(** * ercDeployer: deployment pipeline, token CLI and verification agent

    A shallow embedding of the three scripts of the repository
    (deployTokens.js, interactWithTokens.js, verifyContracts.js) and the
    properties of their orchestration logic.

    Conventions of the embedding:
    - JavaScript strings are [string] (sequences of bytes);
    - BigInt values and JSON integers are [Z];
    - an [async] method is a computation in the monad [M]: a function from
      the state of the script to an outcome and a new state.  An outcome is
      a returned value, a thrown exception or [process.exit];
    - the external collaborators (the chain SDK, the compiler, the explorer
      HTTP API, the clock) are interfaces ([Class]) over an abstract world;
    - console output is not part of the state. *)

From Stdlib Require Import ZArith QArith Ascii String List Lia.
From stdpp Require Import base option list gmap strings.
Import ListNotations.
Local Open Scope string_scope.
Local Open Scope list_scope.
Local Open Scope Z_scope.

(** ** Strings and decimal digits *)

Definition chars (s : string) : list ascii := list_ascii_of_string s.
Definition str (l : list ascii) : string := string_of_list_ascii l.

Definition is_digit (c : ascii) : bool :=
  (48 <=? Z.of_nat (nat_of_ascii c)) && (Z.of_nat (nat_of_ascii c) <=? 57).

Definition digit_val (c : ascii) : Z := Z.of_nat (nat_of_ascii c) - 48.

Definition digit_char (n : Z) : ascii := ascii_of_nat (Z.to_nat (n + 48)).

(** [BigInt(digits)] for a string of decimal digits, most significant
    first, continuing from the value [acc] of the digits already read. *)
Fixpoint digits_val (acc : Z) (l : list ascii) : Z :=
  match l with
  | [] => acc
  | c :: l' => digits_val (10 * acc + digit_val c) l'
  end.

(** [n.toString()] for a non-negative BigInt: decimal digits, no leading
    zero except for the number zero itself. *)
Fixpoint Z_digits_fuel (fuel : nat) (n : Z) (acc : list ascii) : list ascii :=
  match fuel with
  | O => acc
  | S fuel' =>
      let acc' := digit_char (n mod 10) :: acc in
      if n <? 10 then acc' else Z_digits_fuel fuel' (n / 10) acc'
  end.

Definition Z_digits (n : Z) : list ascii :=
  Z_digits_fuel (S (Z.to_nat (Z.log2 n))) n [].

Definition Z_toString (n : Z) : string :=
  if n <? 0 then String "-" (str (Z_digits (- n))) else str (Z_digits n).

(** ** Results of calls into external collaborators *)

Inductive result (A : Type) : Type :=
  | Ok (a : A)
  | Err (msg : string).
Arguments Ok {A} a.
Arguments Err {A} msg.

(** ** Decimal scaling: [ethers.parseUnits] *)

(** Splits the characters at the first dot: the part before it and, when
    there is a dot, the part after it. *)
Fixpoint split_dot (l : list ascii) : list ascii * option (list ascii) :=
  match l with
  | [] => ([], None)
  | c :: l' =>
      if Ascii.eqb c "." then ([], Some l')
      else let '(w, f) := split_dot l' in (c :: w, f)
  end.

Definition strip_sign (l : list ascii) : bool * list ascii :=
  match l with
  | c :: l' => if Ascii.eqb c "-" then (true, l') else (false, l)
  | [] => (false, [])
  end.

Definition zeros (n : nat) : list ascii := repeat "0"%char n.

Definition all_zero (l : list ascii) : bool :=
  forallb (fun c => Ascii.eqb c "0") l.

(** Modelled from the spec: [ethers.parseUnits(value, decimals)] belongs to
    the Ethereum SDK, which is not part of the repository sources.  The
    spec (4.2, step 1) fixes its contract: the human-readable decimal
    string is scaled by [10^decimals] with exact integer arithmetic.  The
    string is an optional sign, digits, an optional dot and digits, with at
    least one digit; the fraction is padded with zeros to [decimals] digits
    and the digits are read as one integer.  For a fraction with more
    significant digits than [decimals], where the spec speaks of rounding,
    the SDK raises a numeric fault, and so does the model; the properties
    below concern the strings with at most [decimals] fractional digits.
    The range checks of the SDK on the size of the result are left out. *)
Definition parseUnits (value : string) (decimals : Z) : result Z :=
  if decimals <? 0 then Err "invalid unit" else
  let d := Z.to_nat decimals in
  let '(neg, body) := strip_sign (chars value) in
  let '(whole, fopt) := split_dot body in
  let frac := default [] fopt in
  if negb (forallb is_digit whole && forallb is_digit frac
           && negb (Nat.eqb (length whole + length frac) 0))
  then Err "invalid FixedNumber string value"
  else if negb (all_zero (drop d frac))
  then Err "too many decimals for format"
  else
    let padded := take d (frac ++ zeros (d - length frac)) in
    let v := digits_val 0 (whole ++ padded) in
    Ok (if neg then - v else v).




(** ** JavaScript objects used as maps *)

(** A JavaScript object with string keys: its own properties in insertion
    order.  [obj[k] = v] overwrites the value of an existing key in place
    and appends a new key at the end.  Keys are plain strings: the keys
    that JavaScript treats apart (array indices, which it lists first, and
    [__proto__]) are not distinguished. *)
Fixpoint obj_set {A : Type} (o : list (string * A)) (k : string) (v : A)
  : list (string * A) :=
  match o with
  | [] => [(k, v)]
  | (k', v') :: o' =>
      if String.eqb k' k then (k', v) :: o' else (k', v') :: obj_set o' k v
  end.

(** [obj[k]] *)
Fixpoint obj_get {A : Type} (o : list (string * A)) (k : string) : option A :=
  match o with
  | [] => None
  | (k', v') :: o' => if String.eqb k' k then Some v' else obj_get o' k
  end.


(** ** JSON values, [JSON.stringify(v, null, 2)] and [JSON.parse] *)

Local Unset Elimination Schemes.
Inductive json : Type :=
  | JNull
  | JBool (b : bool)
  | JNum (n : Z)
  | JStr (s : string)
  | JArr (items : list json)
  | JObj (fields : list (string * json)).
Local Set Elimination Schemes.

(** Induction on JSON values, through the items of arrays and the fields
    of objects. *)
Fixpoint json_induction (P : json -> Prop)
    (Hnull : P JNull) (Hbool : forall b, P (JBool b))
    (Hnum : forall n, P (JNum n)) (Hstr : forall s, P (JStr s))
    (Harr : forall l, Forall P l -> P (JArr l))
    (Hobj : forall l, Forall (fun p => P (snd p)) l -> P (JObj l))
    (v : json) : P v :=
  match v with
  | JNull => Hnull
  | JBool b => Hbool b
  | JNum n => Hnum n
  | JStr s => Hstr s
  | JArr items =>
      Harr items
        ((fix go (l : list json) : Forall P l :=
            match l with
            | [] => @List.Forall_nil _ P
            | x :: l' =>
                @List.Forall_cons _ P x l'
                  (json_induction P Hnull Hbool Hnum Hstr Harr Hobj x) (go l')
            end) items)
  | JObj fields =>
      Hobj fields
        ((fix go (l : list (string * json)) : Forall (fun p => P (snd p)) l :=
            match l with
            | [] => @List.Forall_nil _ (fun p => P (snd p))
            | p :: l' =>
                @List.Forall_cons _ (fun p => P (snd p)) p l'
                  (json_induction P Hnull Hbool Hnum Hstr Harr Hobj (snd p)) (go l')
            end) fields)
  end.

Definition dquote : ascii := ascii_of_nat 34.
Definition backslash : ascii := ascii_of_nat 92.
Definition newline : ascii := ascii_of_nat 10.
Definition space : ascii := ascii_of_nat 32.

Definition hex_char (n : nat) : ascii :=
  nth n (chars "0123456789abcdef") "0"%char.

(** The escape of one character inside a JSON string literal. *)
Definition escape_char (c : ascii) : list ascii :=
  let n := nat_of_ascii c in
  if Nat.eqb n 34 then [backslash; dquote]
  else if Nat.eqb n 92 then [backslash; backslash]
  else if Nat.eqb n 8 then [backslash; "b"%char]
  else if Nat.eqb n 9 then [backslash; "t"%char]
  else if Nat.eqb n 10 then [backslash; "n"%char]
  else if Nat.eqb n 12 then [backslash; "f"%char]
  else if Nat.eqb n 13 then [backslash; "r"%char]
  else if Nat.ltb n 32 then
    [backslash; "u"%char; "0"%char; "0"%char;
     hex_char (Nat.div n 16); hex_char (Nat.modulo n 16)]
  else [c].

Definition quote (s : string) : list ascii :=
  dquote :: flat_map escape_char (chars s) ++ [dquote].

Definition indent (n : nat) : list ascii := newline :: repeat space n.

(** The items of an array or object after the first, each after its
    separator. *)
Definition join_items {A : Type} (sep : list ascii) (f : A -> list ascii)
  : list A -> list ascii :=
  fix go (l : list A) : list ascii :=
    match l with
    | [] => []
    | y :: l' => sep ++ f y ++ go l'
    end.

Fixpoint stringify_value (ind : nat) (v : json) : list ascii :=
  match v with
  | JNull => chars "null"
  | JBool b => if b then chars "true" else chars "false"
  | JNum n => chars (Z_toString n)
  | JStr s => quote s
  | JArr [] => chars "[]"
  | JArr (x :: xs) =>
      "["%char :: indent (ind + 2) ++ stringify_value (ind + 2) x
      ++ join_items (","%char :: indent (ind + 2)) (stringify_value (ind + 2)) xs
      ++ indent ind ++ ["]"%char]
  | JObj [] => chars "{}"
  | JObj (p :: ps) =>
      let member (p : string * json) :=
        quote (fst p) ++ chars ": " ++ stringify_value (ind + 2) (snd p) in
      "{"%char :: indent (ind + 2) ++ member p
      ++ join_items (","%char :: indent (ind + 2)) member ps
      ++ indent ind ++ ["}"%char]
  end.

(** [JSON.stringify(v, null, 2)] *)
Definition JSON_stringify (v : json) : string := str (stringify_value 0 v).

Definition is_ws (c : ascii) : bool :=
  let n := nat_of_ascii c in
  Nat.eqb n 32 || Nat.eqb n 10 || Nat.eqb n 13 || Nat.eqb n 9.

Fixpoint skip_ws (l : list ascii) : list ascii :=
  match l with
  | c :: l' => if is_ws c then skip_ws l' else l
  | [] => []
  end.

Definition hex_val (c : ascii) : option nat :=
  let n := nat_of_ascii c in
  if Nat.leb 48 n && Nat.leb n 57 then Some (n - 48)%nat
  else if Nat.leb 97 n && Nat.leb n 102 then Some (n - 87)%nat
  else if Nat.leb 65 n && Nat.leb n 70 then Some (n - 55)%nat
  else None.

(** The characters of a string literal after its opening quote, up to the
    closing quote.  A code unit escape is accepted for the 7-bit characters
    only: other code units have no counterpart in a byte string. *)
Fixpoint parse_string (l : list ascii) : option (list ascii * list ascii) :=
  match l with
  | [] => None
  | c :: r =>
      if Ascii.eqb c dquote then Some ([], r)
      else if Ascii.eqb c backslash then
        match r with
        | [] => None
        | e :: r1 =>
            let simple (x : ascii) :=
              '(s, r') ← parse_string r1; Some (x :: s, r') in
            if Ascii.eqb e dquote then simple dquote
            else if Ascii.eqb e backslash then simple backslash
            else if Ascii.eqb e "/" then simple "/"%char
            else if Ascii.eqb e "b" then simple (ascii_of_nat 8)
            else if Ascii.eqb e "t" then simple (ascii_of_nat 9)
            else if Ascii.eqb e "n" then simple (ascii_of_nat 10)
            else if Ascii.eqb e "f" then simple (ascii_of_nat 12)
            else if Ascii.eqb e "r" then simple (ascii_of_nat 13)
            else if Ascii.eqb e "u" then
              match r1 with
              | h1 :: h2 :: h3 :: h4 :: r2 =>
                  match hex_val h1, hex_val h2, hex_val h3, hex_val h4 with
                  | Some 0%nat, Some 0%nat, Some a, Some b =>
                      if Nat.ltb (16 * a + b) 128 then
                        '(s, r') ← parse_string r2;
                        Some (ascii_of_nat (16 * a + b) :: s, r')
                      else None
                  | _, _, _, _ => None
                  end
              | _ => None
              end
            else None
        end
      else if Nat.ltb (nat_of_ascii c) 32 then None
      else '(s, r') ← parse_string r; Some (c :: s, r')
  end.

Fixpoint span_digits (l : list ascii) : list ascii * list ascii :=
  match l with
  | c :: l' =>
      if is_digit c then let '(ds, r) := span_digits l' in (c :: ds, r)
      else ([], l)
  | [] => ([], [])
  end.

(** What may follow an integer literal: anything but a character that
    would continue the number. *)
Definition num_end (l : list ascii) : bool :=
  match l with
  | [] => true
  | c :: _ =>
      negb (is_digit c || Ascii.eqb c "." || Ascii.eqb c "e" || Ascii.eqb c "E")
  end.

(** An integer literal: digits without a superfluous leading zero.  Numbers
    with a fraction or an exponent are outside the model. *)
Definition parse_digits (l : list ascii) : option (Z * list ascii) :=
  let '(ds, r) := span_digits l in
  match ds with
  | [] => None
  | d :: ds' =>
      if Ascii.eqb d "0" && negb (Nat.eqb (length ds') 0) then None
      else if num_end r then Some (digits_val 0 ds, r)
      else None
  end.

Definition parse_number (l : list ascii) : option (Z * list ascii) :=
  match l with
  | c :: l' =>
      if Ascii.eqb c "-" then '(n, r) ← parse_digits l'; Some (- n, r)
      else parse_digits l
  | [] => None
  end.

(** The rest of [l] after the characters [word]. *)
Fixpoint expect (word l : list ascii) : option (list ascii) :=
  match word with
  | [] => Some l
  | c :: word' =>
      match l with
      | c' :: l' => if Ascii.eqb c c' then expect word' l' else None
      | [] => None
      end
  end.

(** A pair list read from an object literal becomes an object: a repeated
    key keeps its first position and its last value. *)
Definition obj_of_pairs {A : Type} (ps : list (string * A)) : list (string * A) :=
  fold_left (fun o p => obj_set o (fst p) (snd p)) ps [].

Fixpoint parse_value (fuel : nat) (l : list ascii) : option (json * list ascii) :=
  match fuel with
  | O => None
  | S fuel' =>
      match skip_ws l with
      | [] => None
      | c :: r =>
          if Ascii.eqb c dquote then
            '(s, r') ← parse_string r; Some (JStr (str s), r')
          else if Ascii.eqb c "[" then
            match skip_ws r with
            | c' :: r' =>
                if Ascii.eqb c' "]" then Some (JArr [], r')
                else '(vs, r'') ← parse_elems fuel' r; Some (JArr vs, r'')
            | [] => None
            end
          else if Ascii.eqb c "{" then
            match skip_ws r with
            | c' :: r' =>
                if Ascii.eqb c' "}" then Some (JObj [], r')
                else '(ps, r'') ← parse_members fuel' r;
                     Some (JObj (obj_of_pairs ps), r'')
            | [] => None
            end
          else if Ascii.eqb c "t" then
            r' ← expect (chars "rue") r; Some (JBool true, r')
          else if Ascii.eqb c "f" then
            r' ← expect (chars "alse") r; Some (JBool false, r')
          else if Ascii.eqb c "n" then
            r' ← expect (chars "ull") r; Some (JNull, r')
          else '(n, r') ← parse_number (c :: r); Some (JNum n, r')
      end
  end
with parse_elems (fuel : nat) (l : list ascii) : option (list json * list ascii) :=
  match fuel with
  | O => None
  | S fuel' =>
      '(v, r) ← parse_value fuel' l;
      match skip_ws r with
      | c :: r' =>
          if Ascii.eqb c "," then
            '(vs, r'') ← parse_elems fuel' r'; Some (v :: vs, r'')
          else if Ascii.eqb c "]" then Some ([v], r')
          else None
      | [] => None
      end
  end
with parse_members (fuel : nat) (l : list ascii)
  : option (list (string * json) * list ascii) :=
  match fuel with
  | O => None
  | S fuel' =>
      match skip_ws l with
      | q :: r0 =>
          if Ascii.eqb q dquote then
            '(k, r1) ← parse_string r0;
            match skip_ws r1 with
            | c1 :: r2 =>
                if Ascii.eqb c1 ":" then
                  '(v, r3) ← parse_value fuel' r2;
                  match skip_ws r3 with
                  | c :: r' =>
                      if Ascii.eqb c "," then
                        '(ps, r'') ← parse_members fuel' r';
                        Some ((str k, v) :: ps, r'')
                      else if Ascii.eqb c "}" then Some ([(str k, v)], r')
                      else None
                  | [] => None
                  end
                else None
            | [] => None
            end
          else None
      | [] => None
      end
  end.

(** [JSON.parse(text)]: one value, then nothing but white space. *)
Definition JSON_parse (text : string) : option json :=
  let l := chars text in
  '(v, r) ← parse_value (S (length l)) l;
  match skip_ws r with
  | [] => Some v
  | _ :: _ => None
  end.

(** ** The monad of the scripts *)

(** How a JavaScript computation ends: it returns, it throws, or it calls
    [process.exit], which no [catch] intercepts. *)
Inductive outcome (A : Type) : Type :=
  | Ret (a : A)
  | Throw (msg : string)
  | Exit (code : Z).
Arguments Ret {A} a.
Arguments Throw {A} msg.
Arguments Exit {A} code.

(** A computation over the mutable state [S] of a script.  The state that
    a throwing computation leaves behind is kept: mutations made before a
    [throw] are visible to the handler. *)
Definition M (S A : Type) : Type := S -> outcome A * S.

Definition ret {S A : Type} (a : A) : M S A := fun st => (Ret a, st).

Definition throw {S A : Type} (msg : string) : M S A := fun st => (Throw msg, st).

Definition exit {S A : Type} (code : Z) : M S A := fun st => (Exit code, st).

Definition bind {S A B : Type} (m : M S A) (f : A -> M S B) : M S B :=
  fun st =>
    match m st with
    | (Ret a, st') => f a st'
    | (Throw msg, st') => (Throw msg, st')
    | (Exit code, st') => (Exit code, st')
    end.

(** [try { m } catch (error) { h error.message }] *)
Definition try_catch {S A : Type} (m : M S A) (h : string -> M S A) : M S A :=
  fun st =>
    match m st with
    | (Throw msg, st') => h msg st'
    | other => other
    end.

Definition gets {S A : Type} (f : S -> A) : M S A := fun st => (Ret (f st), st).

Definition modify {S : Type} (f : S -> S) : M S unit := fun st => (Ret tt, f st).

Definition of_result {S A : Type} (r : result A) : M S A :=
  match r with
  | Ok a => ret a
  | Err msg => throw msg
  end.

#[global] Instance M_ret {S : Type} : MRet (M S) := fun A => @ret S A.
#[global] Instance M_bind {S : Type} : MBind (M S) := fun A B f m => @bind S A B m f.

(** [for (const x of xs) { body x }] *)
Fixpoint for_of {S A : Type} (xs : list A) (body : A -> M S unit) : M S unit :=
  match xs with
  | [] => ret tt
  | x :: xs' => body x;; for_of xs' body
  end.

(** ** Data model *)

Record Holder : Type := {
  holder_address : string;
  holder_amount : string
}.

(** An entry of [tokens.json].  The feature flags and the holder list are
    optional in the file.  The four required fields are present by
    typing. *)
Record TokenDefinition : Type := {
  name : string;
  symbol : string;
  decimals : Z;
  initialSupply : string;
  mintable : option bool;
  burnable : option bool;
  pausable : option bool;
  initialHolders : option (list Holder)
}.

Record Config : Type := {
  network : option string;
  continueOnError : option bool;
  tokens : list TokenDefinition
}.

(** The object pushed on [this.deployments] by [deployToken]. *)
Record DeploymentRecord : Type := {
  d_name : string;
  d_symbol : string;
  d_address : string;
  d_decimals : Z;
  d_initialSupply : string;
  d_mintable : bool;
  d_burnable : bool;
  d_pausable : bool;
  d_deploymentTx : string;
  d_blockNumber : Z;
  d_gasUsed : string
}.

Record DeploymentReport : Type := {
  r_timestamp : string;
  r_network : string;
  r_deployer : string;
  r_deployments : list DeploymentRecord
}.

(** An entry of the address map written to [latest-addresses.json]. *)
Record TokenData : Type := {
  td_address : string;
  td_decimals : Z
}.

(** ** External collaborators *)

(** The argument tuple of the contract's constructor. *)
Record CtorArgs : Type := {
  c_name : string;
  c_symbol : string;
  c_decimals : Z;
  c_initialSupply : Z;
  c_mintable : bool;
  c_burnable : bool;
  c_pausable : bool
}.

Record ContractFactory : Type := {
  f_abi : option json;
  f_bytecode : option string
}.

(** A contract handle returned by [factory.deploy]: its address and the
    hash of its deployment transaction. *)
Record Contract : Type := {
  contract_address : string;
  deployment_hash : string
}.

Record Receipt : Type := {
  blockNumber : Z;
  gasUsed : Z
}.

Inductive RoleFn : Type := MINTER_ROLE | PAUSER_ROLE | DEFAULT_ADMIN_ROLE.

(** The chain SDK over a world [W]: every call may fail and may change the
    world. *)
Class ChainClient (W : Type) : Type := {
  getNetwork : W -> result (Z * string) * W;
  getBalance : string -> W -> result Z * W;
  rpc_estimateGas : ContractFactory -> CtorArgs -> W -> result Z * W;
  factory_deploy : ContractFactory -> CtorArgs -> Z -> W -> result Contract * W;
  waitForDeployment : Contract -> W -> result unit * W;
  tx_wait : string -> W -> result Receipt * W;
  contract_transfer : string -> string -> Z -> W -> result string * W;
  contract_role : string -> RoleFn -> W -> result string * W;
  contract_grantRole : string -> string -> string -> W -> result string * W;
  isAddress : string -> bool;
  toISOString_now : W -> string * W
}.

Record CompileError : Type := {
  severity : string;
  formattedMessage : string
}.

Record CompileOutput : Type := {
  errors : option (list CompileError);
  compiled : option (json * string)
}.

(** The Solidity compiler, a function of the contract source. *)
Class ContractBuilder : Type := {
  solc_compile : string -> CompileOutput
}.

(** The calls a script makes on the chain, in order, with their
    arguments. *)
Inductive Call : Type :=
  | CallGetNetwork
  | CallGetBalance (account : string)
  | CallEstimateGas (args : CtorArgs)
  | CallDeploy (args : CtorArgs) (gasLimit : Z)
  | CallWaitForDeployment (c : Contract)
  | CallWait (hash : string)
  | CallTransfer (contract to : string) (amount : Z)
  | CallRole (contract : string) (fn : RoleFn)
  | CallGrantRole (contract roleHash account : string).

(** ** The report and the address map as JSON *)

Definition record_to_json (d : DeploymentRecord) : json :=
  JObj [("name", JStr (d_name d));
        ("symbol", JStr (d_symbol d));
        ("address", JStr (d_address d));
        ("decimals", JNum (d_decimals d));
        ("initialSupply", JStr (d_initialSupply d));
        ("mintable", JBool (d_mintable d));
        ("burnable", JBool (d_burnable d));
        ("pausable", JBool (d_pausable d));
        ("deploymentTx", JStr (d_deploymentTx d));
        ("blockNumber", JNum (d_blockNumber d));
        ("gasUsed", JStr (d_gasUsed d))].

Definition report_to_json (r : DeploymentReport) : json :=
  JObj [("timestamp", JStr (r_timestamp r));
        ("network", JStr (r_network r));
        ("deployer", JStr (r_deployer r));
        ("deployments", JArr (map record_to_json (r_deployments r)))].

Definition tokenData_to_json (t : TokenData) : json :=
  JObj [("address", JStr (td_address t)); ("decimals", JNum (td_decimals t))].

Definition addressMap_to_json (m : list (string * TokenData)) : json :=
  JObj (map (fun p => (fst p, tokenData_to_json (snd p))) m).

(** Property access on parsed JSON, by the type the reader expects. *)
Definition get_str (o : list (string * json)) (k : string) : option string :=
  match obj_get o k with Some (JStr s) => Some s | _ => None end.

Definition get_num (o : list (string * json)) (k : string) : option Z :=
  match obj_get o k with Some (JNum n) => Some n | _ => None end.

Definition get_bool (o : list (string * json)) (k : string) : option bool :=
  match obj_get o k with Some (JBool b) => Some b | _ => None end.

Definition json_to_record (j : json) : option DeploymentRecord :=
  match j with
  | JObj o =>
      nm ← get_str o "name"; sy ← get_str o "symbol";
      ad ← get_str o "address"; de ← get_num o "decimals";
      su ← get_str o "initialSupply"; mi ← get_bool o "mintable";
      bu ← get_bool o "burnable"; pa ← get_bool o "pausable";
      tx ← get_str o "deploymentTx"; bn ← get_num o "blockNumber";
      gu ← get_str o "gasUsed";
      Some {| d_name := nm; d_symbol := sy; d_address := ad; d_decimals := de;
              d_initialSupply := su; d_mintable := mi; d_burnable := bu;
              d_pausable := pa; d_deploymentTx := tx; d_blockNumber := bn;
              d_gasUsed := gu |}
  | _ => None
  end.

Definition json_to_report (j : json) : option DeploymentReport :=
  match j with
  | JObj o =>
      ts ← get_str o "timestamp"; nw ← get_str o "network";
      dp ← get_str o "deployer";
      ds ← match obj_get o "deployments" with
           | Some (JArr items) => mapM json_to_record items
           | _ => None
           end;
      Some {| r_timestamp := ts; r_network := nw; r_deployer := dp;
              r_deployments := ds |}
  | _ => None
  end.

Definition json_to_tokenData (j : json) : option TokenData :=
  match j with
  | JObj o =>
      ad ← get_str o "address"; de ← get_num o "decimals";
      Some {| td_address := ad; td_decimals := de |}
  | _ => None
  end.

Definition json_to_addressMap (j : json) : option (list (string * TokenData)) :=
  match j with
  | JObj o => mapM (fun p => t ← json_to_tokenData (snd p); Some (fst p, t)) o
  | _ => None
  end.

(** [JSON.parse(fs.readFileSync(path, 'utf8'))], as [loadDeploymentReport]
    of the verification script reads a report, with the fields a reader
    accesses. *)
Definition readReport (fs : gmap string string) (path : string)
  : option DeploymentReport :=
  text ← fs !! path; j ← JSON_parse text; json_to_report j.


(** ** deployTokens.js: [TokenDeployer] *)

Record TokenDeployer (W : Type) : Type := {
  world : W;
  wallet_address : string;
  deployments : list DeploymentRecord;
  contractBytecode : option string;
  contractABI : option json;
  files : gmap string string;
  calls : list Call
}.
Arguments world {W} _.
Arguments wallet_address {W} _.
Arguments deployments {W} _.
Arguments contractBytecode {W} _.
Arguments contractABI {W} _.
Arguments files {W} _.
Arguments calls {W} _.

(** [new TokenDeployer()] in a given world and file system. *)
Definition new_TokenDeployer {W : Type} (w : W) (wallet : string)
    (fs : gmap string string) : TokenDeployer W :=
  {| world := w; wallet_address := wallet; deployments := [];
     contractBytecode := None; contractABI := None; files := fs; calls := [] |}.

Definition deploymentDir : string := "deployments".
Definition path_join (dir file : string) : string := dir +:+ "/" +:+ file.
Definition abiPath : string := path_join deploymentDir "ERC20Token.abi.json".
Definition addressPath : string := path_join deploymentDir "latest-addresses.json".
Definition contractPath : string := path_join "contracts" "ERC20Token.sol".

(** [s.replace(/[:.]/g, '-')] *)
Definition replace_colon_dot (s : string) : string :=
  str (map (fun c => if Ascii.eqb c ":" || Ascii.eqb c "." then "-"%char else c)
           (chars s)).

Definition reportPath (network timestamp : string) : string :=
  path_join deploymentDir
    ("deployment-" +:+ network +:+ "-" +:+ timestamp +:+ ".json").

(** [x || false] for an optional flag. *)
Definition or_false (flag : option bool) : bool := default false flag.

Definition ctor_args (token : TokenDefinition) (initialSupplyWei : Z) : CtorArgs :=
  {| c_name := name token; c_symbol := symbol token;
     c_decimals := decimals token; c_initialSupply := initialSupplyWei;
     c_mintable := or_false (mintable token);
     c_burnable := or_false (burnable token);
     c_pausable := or_false (pausable token) |}.

Definition address_entry (d : DeploymentRecord) : TokenData :=
  {| td_address := d_address d; td_decimals := d_decimals d |}.

(** The [addressMap] object built by [saveDeploymentReport]:
    [deployments.forEach(d => addressMap[d.symbol] = {...})]. *)
Definition addressMap (ds : list DeploymentRecord) : list (string * TokenData) :=
  fold_left (fun m d => obj_set m (d_symbol d) (address_entry d)) ds [].


Section TokenDeployer.
Context {W : Type} `{ChainClient W} `{ContractBuilder}.

Abbreviation Deployer := (TokenDeployer W).

(** A call into the chain SDK: the world advances, the call is logged, a
    failure of the call is a thrown exception. *)
Definition rpc {A : Type} (c : Call) (f : W -> result A * W) : M Deployer A :=
  fun st =>
    let '(r, w') := f (world st) in
    (match r with Ok a => Ret a | Err msg => Throw msg end,
     {| world := w'; wallet_address := wallet_address st;
        deployments := deployments st;
        contractBytecode := contractBytecode st;
        contractABI := contractABI st; files := files st;
        calls := calls st ++ [c] |}).

(** [new Date().toISOString()] *)
Definition now : M Deployer string :=
  fun st =>
    let '(t, w') := toISOString_now (world st) in
    (Ret t,
     {| world := w'; wallet_address := wallet_address st;
        deployments := deployments st;
        contractBytecode := contractBytecode st;
        contractABI := contractABI st; files := files st;
        calls := calls st |}).

(** [this.deployments.push(d)] *)
Definition push_deployment (d : DeploymentRecord) : M Deployer unit :=
  modify (fun st =>
    {| world := world st; wallet_address := wallet_address st;
       deployments := deployments st ++ [d];
       contractBytecode := contractBytecode st;
       contractABI := contractABI st; files := files st;
       calls := calls st |}).

Definition set_contract (abi : json) (bytecode : string) : M Deployer unit :=
  modify (fun st =>
    {| world := world st; wallet_address := wallet_address st;
       deployments := deployments st;
       contractBytecode := Some bytecode;
       contractABI := Some abi; files := files st;
       calls := calls st |}).

(** [fs.writeFileSync(path, content)] *)
Definition writeFileSync (path content : string) : M Deployer unit :=
  modify (fun st =>
    {| world := world st; wallet_address := wallet_address st;
       deployments := deployments st;
       contractBytecode := contractBytecode st;
       contractABI := contractABI st;
       files := <[path := content]> (files st);
       calls := calls st |}).

(** [fs.readFileSync(path, 'utf8')] *)
Definition readFileSync (path : string) : M Deployer string :=
  fs ← gets files;
  match fs !! path with
  | Some content => ret content
  | None => throw ("ENOENT: no such file or directory, open " +:+ path)
  end.

Definition saveABI : M Deployer unit :=
  abi ← gets contractABI;
  writeFileSync abiPath (JSON_stringify (default JNull abi)).

Definition compileContract : M Deployer unit :=
  contractSource ← readFileSync contractPath;
  let output := solc_compile contractSource in
  match errors output with
  | Some es =>
      if existsb (fun e => String.eqb (severity e) "error") es
      then exit 1 else ret tt
  | None => ret tt
  end;;
  match compiled output with
  | Some (abi, bytecode) => set_contract abi bytecode;; saveABI
  | None => throw "TypeError: Cannot read properties of undefined"
  end.

Definition validateTokenConfig (token : TokenDefinition) : M Deployer unit :=
  if (decimals token <? 0) || (18 <? decimals token)
  then throw ("Token " +:+ name token +:+ " has invalid decimals: "
              +:+ Z_toString (decimals token) +:+ ". Must be 0-18")
  else
    match initialHolders token with
    | Some holders =>
        for_of holders (fun holder =>
          if isAddress (holder_address holder) then ret tt
          else throw ("Invalid holder address for " +:+ name token +:+ ": "
                      +:+ holder_address holder))
    | None => ret tt
    end.

(** The configuration file as the script finds it: absent, not JSON, or
    a parsed configuration. *)
Definition loadTokenConfig (file : option (result Config)) : M Deployer Config :=
  match file with
  | None => exit 1
  | Some (Err msg) => throw msg
  | Some (Ok config) =>
      for_of (tokens config) validateTokenConfig;; ret config
  end.

Definition new_factory : M Deployer ContractFactory :=
  gets (fun st => {| f_abi := contractABI st; f_bytecode := contractBytecode st |}).

Definition estimateGas (token : TokenDefinition) : M Deployer Z :=
  factory ← new_factory;
  initialSupplyWei ← of_result (parseUnits (initialSupply token) (decimals token));
  let args := ctor_args token initialSupplyWei in
  try_catch
    (estimatedGas ← rpc (CallEstimateGas args) (rpc_estimateGas factory args);
     (* Add 20% buffer *)
     ret (Z.quot (estimatedGas * 120) 100))
    (fun _ =>
     (* Return default gas limit if estimation fails *)
     ret 3000000).

Definition distributeTokens (contract : Contract) (token : TokenDefinition)
  : M Deployer unit :=
  for_of (default [] (initialHolders token)) (fun holder =>
    amount ← of_result (parseUnits (holder_amount holder) (decimals token));
    tx ← rpc (CallTransfer (contract_address contract) (holder_address holder) amount)
             (contract_transfer (contract_address contract)
                                (holder_address holder) amount);
    rpc (CallWait tx) (tx_wait tx);;
    ret tt).

Definition has_holders (token : TokenDefinition) : bool :=
  match initialHolders token with
  | Some (_ :: _) => true
  | _ => false
  end.

Definition deployToken (token : TokenDefinition) : M Deployer string :=
  factory ← new_factory;
  initialSupplyWei ← of_result (parseUnits (initialSupply token) (decimals token));
  (* Estimate gas *)
  gasLimit ← estimateGas token;
  (* Deploy contract *)
  let args := ctor_args token initialSupplyWei in
  contract ← rpc (CallDeploy args gasLimit) (factory_deploy factory args gasLimit);
  (* Wait for deployment *)
  rpc (CallWaitForDeployment contract) (waitForDeployment contract);;
  let address := contract_address contract in
  receipt ← rpc (CallWait (deployment_hash contract))
                (tx_wait (deployment_hash contract));
  (* Distribute initial tokens if configured *)
  (if has_holders token then distributeTokens contract token else ret tt);;
  (* Store deployment info *)
  push_deployment
    {| d_name := name token; d_symbol := symbol token; d_address := address;
       d_decimals := decimals token; d_initialSupply := initialSupply token;
       d_mintable := or_false (mintable token);
       d_burnable := or_false (burnable token);
       d_pausable := or_false (pausable token);
       d_deploymentTx := deployment_hash contract;
       d_blockNumber := blockNumber receipt;
       d_gasUsed := Z_toString (gasUsed receipt) |};;
  ret address.

(** [network.name || 'unknown'] and [config.network || networkInfo.name]:
    the empty string is falsy. *)
Definition or_string (s : option string) (alt : string) : string :=
  match s with
  | Some x => if String.eqb x "" then alt else x
  | None => alt
  end.

Definition getNetworkInfo : M Deployer (string * string) :=
  net ← rpc CallGetNetwork getNetwork;
  wallet ← gets wallet_address;
  rpc (CallGetBalance wallet) (getBalance wallet);;
  ret (Z_toString (fst net), or_string (Some (snd net)) "unknown").

Definition saveDeploymentReport (network : string) : M Deployer unit :=
  iso ← now;
  let timestamp := replace_colon_dot iso in
  let path := reportPath network timestamp in
  stamp ← now;
  deployer ← gets wallet_address;
  ds ← gets deployments;
  let report := {| r_timestamp := stamp; r_network := network;
                   r_deployer := deployer; r_deployments := ds |} in
  writeFileSync path (JSON_stringify (report_to_json report));;
  (* Also save a simple address mapping for easy access *)
  writeFileSync addressPath (JSON_stringify (addressMap_to_json (addressMap ds))).

(** The loop of [deploy] over [config.tokens], which the spec calls
    [deployAll]: a failed token is skipped when [continueOnError] is set
    and ends the loop by re-throwing otherwise. *)
Definition deployAll (continueOnError : bool) (tokens : list TokenDefinition)
  : M Deployer unit :=
  for_of tokens (fun token =>
    try_catch
      (deployToken token;; ret tt)
      (fun msg => if continueOnError then ret tt else throw msg)).

Definition deploy (file : option (result Config)) : M Deployer unit :=
  try_catch
    (networkInfo ← getNetworkInfo;
     config ← loadTokenConfig file;
     compileContract;;
     deployAll (or_false (continueOnError config)) (tokens config);;
     ds ← gets deployments;
     if Nat.ltb 0 (length ds)
     then saveDeploymentReport (or_string (network config) (snd networkInfo))
     else ret tt)
    (fun _ => exit 1).

End TokenDeployer.

(** ** interactWithTokens.js: [TokenInteractor] *)

Record TokenInteractor (W : Type) : Type := {
  i_world : W;
  i_wallet : string;
  i_tokens : list (string * TokenData);
  i_files : gmap string string;
  i_calls : list Call
}.
Arguments i_world {W} _.
Arguments i_wallet {W} _.
Arguments i_tokens {W} _.
Arguments i_files {W} _.
Arguments i_calls {W} _.

Definition upper_char (c : ascii) : ascii :=
  let n := nat_of_ascii c in
  if Nat.leb 97 n && Nat.leb n 122 then ascii_of_nat (n - 32) else c.

(** [s.toUpperCase()], on the 7-bit letters. *)
Definition toUpperCase (s : string) : string := str (map upper_char (chars s)).

Section TokenInteractor.
Context {W : Type} `{ChainClient W}.

Abbreviation Interactor := (TokenInteractor W).

Definition i_rpc {A : Type} (c : Call) (f : W -> result A * W) : M Interactor A :=
  fun st =>
    let '(r, w') := f (i_world st) in
    (match r with Ok a => Ret a | Err msg => Throw msg end,
     {| i_world := w'; i_wallet := i_wallet st; i_tokens := i_tokens st;
        i_files := i_files st; i_calls := i_calls st ++ [c] |}).

Definition set_tokens (m : list (string * TokenData)) : M Interactor unit :=
  modify (fun st =>
    {| i_world := i_world st; i_wallet := i_wallet st; i_tokens := m;
       i_files := i_files st; i_calls := i_calls st |}).

(** The file is the one [saveDeploymentReport] writes; a file of another
    shape is refused on loading. *)
Definition loadTokenAddresses : M Interactor unit :=
  fs ← gets i_files;
  match fs !! addressPath with
  | None => throw "No deployment addresses found. Run deployment first."
  | Some text =>
      match JSON_parse text ≫= json_to_addressMap with
      | Some m => set_tokens m
      | None => throw "SyntaxError: Unexpected token in JSON"
      end
  end.

Definition grantRole (symbol role account : string) : M Interactor Receipt :=
  toks ← gets i_tokens;
  match obj_get toks symbol with
  | None => throw ("Token " +:+ symbol +:+ " not found")
  | Some tokenData =>
      let contract := td_address tokenData in
      roleHash ←
        (let upper := toUpperCase role in
         if String.eqb upper "MINTER" then
           i_rpc (CallRole contract MINTER_ROLE) (contract_role contract MINTER_ROLE)
         else if String.eqb upper "PAUSER" then
           i_rpc (CallRole contract PAUSER_ROLE) (contract_role contract PAUSER_ROLE)
         else if String.eqb upper "ADMIN" then
           i_rpc (CallRole contract DEFAULT_ADMIN_ROLE)
                 (contract_role contract DEFAULT_ADMIN_ROLE)
         else ret role (* Assume it's already a hash *));
      tx ← i_rpc (CallGrantRole contract roleHash account)
                 (contract_grantRole contract roleHash account);
      receipt ← i_rpc (CallWait tx) (tx_wait tx);
      ret receipt
  end.

(** The [grant-role] case of the command line: [args] are the arguments
    after the command name. *)
Definition main_grant_role (args : list string) : M Interactor unit :=
  loadTokenAddresses;;
  try_catch
    (match args with
     | symbol :: role :: account :: _ => grantRole symbol role account;; ret tt
     | _ => exit 1
     end)
    (fun _ => exit 1).

End TokenInteractor.

(** ** verifyContracts.js: [ContractVerifier] *)

(** [response.data] of the explorer API. *)
Record HttpData : Type := {
  data_status : string;
  data_result : string
}.

(** The body of the verification request that varies between contracts. *)
Record SubmitBody : Type := {
  b_apikey : string;
  b_contractaddress : string;
  b_sourceCode : string;
  b_constructorArguements : string
}.

(** The explorer HTTP API over a service state [H]; a failed request is an
    exception of the HTTP client. *)
Class Explorer (H : Type) : Type := {
  axios_post : string -> SubmitBody -> H -> result HttpData * H;
  axios_get : string -> string -> string -> H -> result HttpData * H
}.

(** [abiCoder.encode] of the SDK for the constructor tuple: the hexadecimal
    encoding with its [0x] prefix, or an exception. *)
Class AbiCoder : Type := {
  abi_encode : CtorArgs -> result string
}.

Inductive Request : Type :=
  | ReqSubmit (body : SubmitBody)
  | ReqStatus (guid : string).

Record ContractVerifier (H : Type) : Type := {
  v_network : string;
  v_apiKey : string;
  v_apiUrl : string;
  v_http : H;
  v_files : gmap string string;
  v_requests : list Request;
  v_slept : Z
}.
Arguments v_network {H} _.
Arguments v_apiKey {H} _.
Arguments v_apiUrl {H} _.
Arguments v_http {H} _.
Arguments v_files {H} _.
Arguments v_requests {H} _.
Arguments v_slept {H} _.

Definition ETHERSCAN_APIS : list (string * string) :=
  [("mainnet", "https://api.etherscan.io/api");
   ("sepolia", "https://api-sepolia.etherscan.io/api");
   ("goerli", "https://api-goerli.etherscan.io/api");
   ("polygon", "https://api.polygonscan.com/api");
   ("bsc", "https://api.bscscan.com/api");
   ("arbitrum", "https://api.arbiscan.io/api");
   ("optimism", "https://api-optimistic.etherscan.io/api");
   ("avalanche", "https://api.snowtrace.io/api")].

(** [new ContractVerifier(network, apiKey)] *)
Definition new_ContractVerifier {H : Type} (network apiKey : string) (http : H)
    (fs : gmap string string) : ContractVerifier H :=
  {| v_network := network; v_apiKey := apiKey;
     v_apiUrl := default "https://api.etherscan.io/api"
                         (obj_get ETHERSCAN_APIS network);
     v_http := http; v_files := fs; v_requests := []; v_slept := 0 |}.

(** The object returned by [checkVerificationStatus]. *)
Record VerificationStatus : Type := {
  success : bool;
  message : string
}.

Definition is_status_request (r : Request) : bool :=
  match r with ReqStatus _ => true | ReqSubmit _ => false end.

(** The number of status requests sent so far. *)
Definition polls {H : Type} (st : ContractVerifier H) : nat :=
  length (List.filter is_status_request (v_requests st)).

Section ContractVerifier.
Context {H : Type} `{Explorer H} `{AbiCoder}.

Abbreviation Verifier := (ContractVerifier H).

Definition http {A : Type} (r : Request) (f : H -> result A * H) : M Verifier A :=
  fun st =>
    let '(res, h') := f (v_http st) in
    (match res with Ok a => Ret a | Err msg => Throw msg end,
     {| v_network := v_network st; v_apiKey := v_apiKey st;
        v_apiUrl := v_apiUrl st; v_http := h'; v_files := v_files st;
        v_requests := v_requests st ++ [r]; v_slept := v_slept st |}).

(** [await this.sleep(ms)] *)
Definition sleep (ms : Z) : M Verifier unit :=
  modify (fun st =>
    {| v_network := v_network st; v_apiKey := v_apiKey st;
       v_apiUrl := v_apiUrl st; v_http := v_http st; v_files := v_files st;
       v_requests := v_requests st; v_slept := v_slept st + ms |}).

Definition loadContractSource : M Verifier string :=
  fs ← gets v_files;
  match fs !! contractPath with
  | Some content => ret content
  | None => throw ("ENOENT: no such file or directory, open " +:+ contractPath)
  end.

Definition encodeConstructorArgs (deployment : DeploymentRecord) : M Verifier string :=
  wei ← of_result (parseUnits (d_initialSupply deployment) (d_decimals deployment));
  encoded ← of_result (abi_encode
    {| c_name := d_name deployment; c_symbol := d_symbol deployment;
       c_decimals := d_decimals deployment; c_initialSupply := wei;
       c_mintable := d_mintable deployment;
       c_burnable := d_burnable deployment;
       c_pausable := d_pausable deployment |});
  (* Remove 0x prefix *)
  ret (str (drop 2 (chars encoded))).

(** One pass of the polling loop's [try] block: [Some] is a [return] out
    of the function, [None] falls through to the next iteration. *)
Definition poll_once (guid : string) : M Verifier (option VerificationStatus) :=
  try_catch
    (url ← gets v_apiUrl;
     key ← gets v_apiKey;
     response ← http (ReqStatus guid) (axios_get url key guid);
     if String.eqb (data_status response) "1" then
       ret (Some {| success := true; message := "Verified" |})
     else if String.eqb (data_result response) "Pending in queue" then
       ret None
     else
       ret (Some {| success := false; message := data_result response |}))
    (fun _ => ret None).

(** [for (let i = 0; i < attempts; i++) {...}], by the number of
    iterations left. *)
Fixpoint checkVerificationStatus (guid : string) (attempts : nat)
  : M Verifier VerificationStatus :=
  match attempts with
  | O => ret {| success := false; message := "Verification timeout" |}
  | S attempts' =>
      sleep 3000;;
      verdict ← poll_once guid;
      match verdict with
      | Some status => ret status
      | None => checkVerificationStatus guid attempts'
      end
  end.

(** The default of the [attempts] parameter. *)
Definition default_attempts : nat := 30.

Definition verifyContract (deployment : DeploymentRecord) : M Verifier bool :=
  try_catch
    (sourceCode ← loadContractSource;
     constructorArgs ← encodeConstructorArgs deployment;
     url ← gets v_apiUrl;
     key ← gets v_apiKey;
     let body := {| b_apikey := key;
                    b_contractaddress := d_address deployment;
                    b_sourceCode := sourceCode;
                    b_constructorArguements := constructorArgs |} in
     response ← http (ReqSubmit body) (axios_post url body);
     if String.eqb (data_status response) "1" then
       let guid := data_result response in
       status ← checkVerificationStatus guid default_attempts;
       ret (success status)
     else ret false)
    (fun _ => ret false).

End ContractVerifier.

(** ** Vocabulary of the properties *)

(** A JSON value whose objects have no repeated key: what a JavaScript
    object graph serializes to. *)
Local Unset Elimination Schemes.
Inductive wf_json : json -> Prop :=
  | wf_null : wf_json JNull
  | wf_bool (b : bool) : wf_json (JBool b)
  | wf_num (n : Z) : wf_json (JNum n)
  | wf_str (s : string) : wf_json (JStr s)
  | wf_arr (items : list json) : Forall wf_json items -> wf_json (JArr items)
  | wf_obj (fields : list (string * json)) :
      NoDup (map fst fields) ->
      Forall (fun p => wf_json (snd p)) fields ->
      wf_json (JObj fields).
Local Set Elimination Schemes.

(** The number of values in a JSON value, each counted with its position
    in an array or object: enough fuel to parse its text. *)
Fixpoint json_size (v : json) : nat :=
  match v with
  | JArr items =>
      Datatypes.S ((fix go (l : list json) : nat :=
           match l with
           | [] => O
           | x :: l' => Datatypes.S (json_size x + go l')
           end) items)
  | JObj fields =>
      Datatypes.S ((fix go (l : list (string * json)) : nat :=
           match l with
           | [] => O
           | p :: l' => Datatypes.S (json_size (snd p) + go l')
           end) fields)
  | _ => 1%nat
  end.

Definition items_size (xs : list json) : nat := Nat.pred (json_size (JArr xs)).
Definition members_size (ps : list (string * json)) : nat := Nat.pred (json_size (JObj ps)).

(** A value's text parses back to the value, whatever follows it and
    however much fuel is left beyond its size. *)
Definition roundtrips (v : json) : Prop :=
  wf_json v ->
  forall ind rest fuel,
    (json_size v <= fuel)%nat -> num_end rest = true ->
    parse_value fuel (stringify_value ind v ++ rest) = Some (v, rest).


Section Relations.
Context {S : Type}.

(** A relation between the state before and after that every step of a
    computation keeps. *)
Definition keeps {A : Type} (R : S -> S -> Prop) (m : M S A) : Prop :=
  forall st o st', m st = (o, st') -> R st st'.

End Relations.

(** A call made after the contract creation was submitted: waiting for a
    transaction, or the transfer of a configured holder's scaled amount. *)
Definition distribution_call (token : TokenDefinition) (c : Call) : Prop :=
  match c with
  | CallWaitForDeployment _ | CallWait _ => True
  | CallTransfer _ to amount =>
      exists h, In h (default [] (initialHolders token))
                /\ to = holder_address h
                /\ parseUnits (holder_amount h) (decimals token) = Ok amount
  | _ => False
  end.


(** The record [deployToken] stores for a token, given the contract handle
    and the receipt of its deployment transaction. *)
Definition record_of (token : TokenDefinition) (contract : Contract)
    (receipt : Receipt) : DeploymentRecord :=
  {| d_name := name token; d_symbol := symbol token;
     d_address := contract_address contract;
     d_decimals := decimals token; d_initialSupply := initialSupply token;
     d_mintable := or_false (mintable token);
     d_burnable := or_false (burnable token);
     d_pausable := or_false (pausable token);
     d_deploymentTx := deployment_hash contract;
     d_blockNumber := blockNumber receipt;
     d_gasUsed := Z_toString (gasUsed receipt) |}.


Section DeployerRelations.
Context {W : Type}.

(** Relations between the states before and after a computation. *)
Definition same_records (st st' : TokenDeployer W) : Prop :=
  deployments st' = deployments st.

Definition same_files (st st' : TokenDeployer W) : Prop :=
  files st' = files st.

Definition same_contract (st st' : TokenDeployer W) : Prop :=
  contractABI st' = contractABI st /\ contractBytecode st' = contractBytecode st
  /\ wallet_address st' = wallet_address st.

Definition more_calls (st st' : TokenDeployer W) : Prop :=
  exists new, calls st' = calls st ++ new.

Definition more_records (st st' : TokenDeployer W) : Prop :=
  exists new, deployments st' = deployments st ++ new.

Definition files_but (keep : string -> Prop) (st st' : TokenDeployer W) : Prop :=
  forall p, keep p -> files st' !! p = files st !! p.

(** The gas limit [estimateGas] settles on, as a function of what the
    estimation call of the SDK answers. *)
Definition gas_limit_of (estimate : result Z) : Z :=
  match estimate with
  | Ok g => Z.quot (g * 120) 100
  | Err _ => 3000000
  end.

(** [new ethers.ContractFactory(this.contractABI, this.contractBytecode,
    this.wallet)] in a given state. *)
Definition factory_of (st : TokenDeployer W) : ContractFactory :=
  {| f_abi := contractABI st; f_bytecode := contractBytecode st |}.



End DeployerRelations.

Section DeployerRuns.
Context {W : Type} `{ChainClient W} `{ContractBuilder}.


End DeployerRuns.

(** *** Verification polling *)

(** A status answer that reports neither success nor a final failure. *)
Definition is_pending (d : HttpData) : bool :=
  negb (String.eqb (data_status d) "1")
  && String.eqb (data_result d) "Pending in queue".

(** Whether the outcome of a status request lets the polling go on: a
    pending answer, or an exception of the HTTP client. *)
Definition continues (o : result HttpData) : bool :=
  match o with
  | Ok d => is_pending d
  | Err _ => true
  end.

(** The status a final answer is reported as. *)
Definition verdict_of (d : HttpData) : VerificationStatus :=
  if String.eqb (data_status d) "1"
  then {| success := true; message := "Verified" |}
  else {| success := false; message := data_result d |}.

Definition timed_out : VerificationStatus :=
  {| success := false; message := "Verification timeout" |}.

(** The polling loop as the spec describes it, over the outcomes of the
    successive status requests: the first outcome that does not continue
    decides; when all of them continue, the result is a timeout.  The
    second component counts the requests made. *)
Fixpoint decide_poll (os : list (result HttpData)) : VerificationStatus * nat :=
  match os with
  | [] => (timed_out, O)
  | Ok d :: os' =>
      if is_pending d
      then let '(s, k) := decide_poll os' in (s, Datatypes.S k)
      else (verdict_of d, 1%nat)
  | Err _ :: os' => let '(s, k) := decide_poll os' in (s, Datatypes.S k)
  end.

Section VerifierRelations.
Context {H : Type} `{Explorer H}.

(** The outcomes of the next [n] status requests for [guid], from the
    state [h] of the explorer. *)
Fixpoint outcomes (url key guid : string) (h : H) (n : nat) : list (result HttpData) :=
  match n with
  | O => []
  | Datatypes.S n' =>
      let '(o, h') := axios_get url key guid h in
      o :: outcomes url key guid h' n'
  end.

(** The outcomes a verifier meets on its next [n] polls. *)
Definition next_outcomes (guid : string) (st : ContractVerifier H) (n : nat)
  : list (result HttpData) :=
  outcomes (v_apiUrl st) (v_apiKey st) guid (v_http st) n.

(** The state of the verifier after one more poll. *)
Definition polled (guid : string) (st : ContractVerifier H) : ContractVerifier H :=
  {| v_network := v_network st; v_apiKey := v_apiKey st; v_apiUrl := v_apiUrl st;
     v_http := snd (axios_get (v_apiUrl st) (v_apiKey st) guid (v_http st));
     v_files := v_files st;
     v_requests := v_requests st ++ [ReqStatus guid];
     v_slept := v_slept st + 3000 |}.

End VerifierRelations.

Section VerifierRuns.
Context {H : Type} `{Explorer H} `{AbiCoder}.

(** The steps of [verifyContract] before the polling succeed from [st]:
    the source is read, the constructor arguments are encoded, and the
    explorer accepts the submission under the identifier [guid], leaving
    the verifier in [st1]. *)
Definition submitted (deployment : DeploymentRecord) (st : ContractVerifier H)
    (guid : string) (st1 : ContractVerifier H) : Prop :=
  exists sourceCode constructorArgs response,
    loadContractSource st = (Ret sourceCode, st)
    /\ encodeConstructorArgs deployment st = (Ret constructorArgs, st)
    /\ (let body := {| b_apikey := v_apiKey st;
                       b_contractaddress := d_address deployment;
                       b_sourceCode := sourceCode;
                       b_constructorArguements := constructorArgs |} in
        http (ReqSubmit body) (axios_post (v_apiUrl st) body) st = (Ret response, st1))
    /\ data_status response = "1"
    /\ data_result response = guid.

End VerifierRuns.

(** ** Test doubles for the external collaborators *)

Module Mock.

Definition listed (s : string) (l : list string) : bool :=
  existsb (String.eqb s) l.

(** A scripted chain: contracts and transactions are numbered by a nonce;
    deployments, estimates and transfers fail for the listed symbols and
    holder addresses. *)
Record chain : Type := {
  nonce : Z;
  failing_deploys : list string;
  failing_estimates : list string;
  failing_transfers : list string
}.

Definition bump (w : chain) : chain :=
  {| nonce := nonce w + 1; failing_deploys := failing_deploys w;
     failing_estimates := failing_estimates w;
     failing_transfers := failing_transfers w |}.

Definition role_id (fn : RoleFn) : string :=
  match fn with
  | MINTER_ROLE => "0x9f2df0fed2c77648de5860a4cc508cd0818c85b8b8a1ab4ceeef8d981c8956a6"
  | PAUSER_ROLE => "0x65d7a28e3265b37a6474929f336521b332c1681b933f6cb9f3376673440d862a"
  | DEFAULT_ADMIN_ROLE => "0x0000000000000000000000000000000000000000000000000000000000000000"
  end.

#[global] Instance chain_client : ChainClient chain := {|
  getNetwork w := (Ok (1, "mainnet"), w);
  getBalance _ w := (Ok 5000000000000000000, w);
  rpc_estimateGas _ args w :=
    (if listed (c_symbol args) (failing_estimates w)
     then Err "cannot estimate gas" else Ok 1543211, w);
  factory_deploy _ args _ w :=
    if listed (c_symbol args) (failing_deploys w)
    then (Err "insufficient funds for intrinsic transaction cost", w)
    else (Ok {| contract_address := "0xC" +:+ Z_toString (nonce w);
                deployment_hash := "0xT" +:+ Z_toString (nonce w) |}, bump w);
  waitForDeployment _ w := (Ok tt, w);
  tx_wait _ w := (Ok {| blockNumber := 100 + nonce w; gasUsed := 1285977 |}, w);
  contract_transfer _ to _ w :=
    if listed to (failing_transfers w)
    then (Err "execution reverted", w)
    else (Ok ("0xT" +:+ Z_toString (nonce w)), bump w);
  contract_role _ fn w := (Ok (role_id fn), w);
  contract_grantRole _ _ _ w := (Ok ("0xT" +:+ Z_toString (nonce w)), bump w);
  isAddress s := String.prefix "0x" s;
  toISOString_now w := ("2024-05-01T12:30:45.123Z", w)
|}.

#[global] Instance builder : ContractBuilder := {|
  solc_compile _ :=
    {| errors := None; compiled := Some (JArr [], "0x60806040") |}
|}.

Definition quiet_chain : chain :=
  {| nonce := 0; failing_deploys := []; failing_estimates := [];
     failing_transfers := [] |}.


(** The chain on which no deployment goes through. *)
Definition all_fail : chain :=
  {| nonce := 0; failing_deploys := ["ALF"; "BET"; "GAM"];
     failing_estimates := []; failing_transfers := [] |}.

Definition token (nm sy supply : string) (d : Z) (holders : option (list Holder))
  : TokenDefinition :=
  {| name := nm; symbol := sy; decimals := d; initialSupply := supply;
     mintable := Some true; burnable := None; pausable := None;
     initialHolders := holders |}.

Definition alice : string := "0xA11ce00000000000000000000000000000000001".
Definition bob : string := "0xB0b0000000000000000000000000000000000002".

Definition tokenA : TokenDefinition :=
  token "Alpha" "ALF" "0.1" 18
        (Some [{| holder_address := alice; holder_amount := "0.025" |}]).
Definition tokenB : TokenDefinition :=
  token "Beta" "BET" "1000000" 6
        (Some [{| holder_address := alice; holder_amount := "10" |};
               {| holder_address := bob; holder_amount := "2.5" |}]).
Definition tokenC : TokenDefinition := token "Gamma" "GAM" "21000000" 8 None.

Definition disk : gmap string string :=
  {[ contractPath := "contract ERC20Token {}";
     addressPath := "{}" ]}.

Definition deployer (w : chain) : TokenDeployer chain :=
  new_TokenDeployer w "0xDe9107e500000000000000000000000000000003" disk.

Definition config (continue : option bool) : option (result Config) :=
  Some (Ok {| network := Some "sepolia"; continueOnError := continue;
              tokens := [tokenA; tokenB; tokenC] |}).

Definition record (sy address : string) (d : Z) : DeploymentRecord :=
  {| d_name := sy; d_symbol := sy; d_address := address; d_decimals := d;
     d_initialSupply := "1"; d_mintable := false; d_burnable := false;
     d_pausable := false; d_deploymentTx := "0xT"; d_blockNumber := 1;
     d_gasUsed := "21000" |}.



(** A scripted status endpoint: the answer to the [n]-th request. *)
Record explorer : Type := {
  served : nat;
  script : nat -> result HttpData
}.

#[global] Instance explorer_api : Explorer explorer := {|
  axios_post _ _ h := (Ok {| data_status := "1"; data_result := "guid-1" |}, h);
  axios_get _ _ _ h :=
    (script h (served h), {| served := Datatypes.S (served h); script := script h |})
|}.

#[global] Instance abi_coder : AbiCoder := {|
  abi_encode args := Ok ("0x" +:+ Z_toString (c_initialSupply args))
|}.

Definition pending : result HttpData :=
  Ok {| data_status := "0"; data_result := "Pending in queue" |}.
Definition verified : result HttpData :=
  Ok {| data_status := "1"; data_result := "Pass - Verified" |}.
Definition rejected : result HttpData :=
  Ok {| data_status := "0"; data_result := "Fail - Unable to verify" |}.
Definition unreachable : result HttpData := Err "connect ETIMEDOUT".

Definition verifier (answers : nat -> result HttpData) : ContractVerifier explorer :=
  new_ContractVerifier "sepolia" "KEY" {| served := 0; script := answers |} disk.

(** Pending twice, then verified. *)
Definition slow_success (n : nat) : result HttpData :=
  if Nat.ltb n 2 then pending else verified.

(** Pending for ever. *)
Definition never_done (n : nat) : result HttpData := pending.

(** A network error, a pending answer, another network error, then a
    refusal. *)
Definition flaky_refusal (n : nat) : result HttpData :=
  match n with
  | 0%nat | 2%nat => unreachable
  | 1%nat => pending
  | _ => rejected
  end.

(** The network is down for ever. *)
Definition always_down (n : nat) : result HttpData := unreachable.

End Mock.


(** ** deployTokens.js: the environment, the constructor and [main] *)

Definition lower_char (c : ascii) : ascii :=
  let n := nat_of_ascii c in
  if Nat.leb 65 n && Nat.leb n 90 then ascii_of_nat (n + 32) else c.

(** [s.toLowerCase()], on the 7-bit letters. *)
Definition toLowerCase (s : string) : string := str (map lower_char (chars s)).

(** [!process.env[key]]: a variable that is not set and one set to the
    empty string are both falsy. *)
Definition unset (env : gmap string string) (key : string) : bool :=
  match env !! key with
  | Some value => String.eqb value ""
  | None => true
  end.

Definition required_variables : list string :=
  ["RPC_URL"; "PRIVATE_KEY"; "DEPLOYER_ADDRESS"].

(** [new ethers.Wallet(privateKey).address]: the SDK derives the address
    of a key, or throws on a key it cannot use. *)
Class Signer : Type := {
  Wallet_address : string -> result string
}.

Section DeployerProcess.
Context {W : Type} `{ChainClient W} `{ContractBuilder} `{Signer}.

(** [validateEnvironment] runs on the object under construction, whose
    fields are not initialised yet; it reads [process.env] only. *)
Definition validateEnvironment (env : gmap string string) : M (TokenDeployer W) unit :=
  let missing := List.filter (unset env) required_variables in
  (if Nat.ltb 0 (length missing) then exit 1 else ret tt);;
  (* Validate private key format *)
  let PRIVATE_KEY := default "" (env !! "PRIVATE_KEY") in
  (if negb (String.prefix "0x" PRIVATE_KEY)
      || negb (Nat.eqb (String.length PRIVATE_KEY) 66)
   then exit 1 else ret tt);;
  (* Validate deployer address matches private key *)
  address ← of_result (Wallet_address PRIVATE_KEY);
  if negb (String.eqb (toLowerCase address)
                      (toLowerCase (default "" (env !! "DEPLOYER_ADDRESS"))))
  then exit 1 else ret tt.

(** [constructor()]: the wallet is the one derived from the key, and the
    deployer starts without records and without a compiled contract. *)
Definition TokenDeployer_constructor (env : gmap string string)
  : M (TokenDeployer W) unit :=
  validateEnvironment env;;
  address ← of_result (Wallet_address (default "" (env !! "PRIVATE_KEY")));
  modify (fun st =>
    {| world := world st; wallet_address := address; deployments := [];
       contractBytecode := None; contractABI := None; files := files st;
       calls := calls st |}).

(** [main().catch(error => { ...; process.exit(1) })] *)
Definition deployTokens_main (env : gmap string string)
    (file : option (result Config)) : M (TokenDeployer W) unit :=
  try_catch
    (TokenDeployer_constructor env;; deploy file)
    (fun _ => exit 1).

End DeployerProcess.

(** ** Vocabulary: the deployment run *)

(** A token that [validateTokenConfig] lets through: decimals from 0 to
    18, and only holder addresses that the SDK takes for addresses. *)
Definition valid_token {W : Type} `{ChainClient W} (token : TokenDefinition) : bool :=
  (0 <=? decimals token) && (decimals token <=? 18)
  && forallb (fun holder => isAddress (holder_address holder))
             (default [] (initialHolders token)).

(** A configuration file that [loadTokenConfig] does not return: it is
    absent, it is not JSON, or one of its tokens is not valid. *)
Definition refused {W : Type} `{ChainClient W} (file : option (result Config)) : Prop :=
  match file with
  | None => True
  | Some (Err _) => True
  | Some (Ok config) => forallb valid_token (tokens config) = false
  end.

(** The two read-only calls of [getNetworkInfo]. *)
Definition network_query (c : Call) : Prop :=
  match c with
  | CallGetNetwork | CallGetBalance _ => True
  | _ => False
  end.

(** [d] is the record that [deployToken] stores for [token], for some
    contract handle and receipt. *)
Definition record_for (token : TokenDefinition) (d : DeploymentRecord) : Prop :=
  exists contract receipt, d = record_of token contract receipt.

(** The transfers among a list of calls: contract, recipient, amount. *)
Definition transfers_of (cs : list Call) : list (string * string * Z) :=
  omap (fun c => match c with
                 | CallTransfer contract to amount => Some (contract, to, amount)
                 | _ => None
                 end) cs.

(** The transfer [t] goes to the holder [h], with the holder's amount
    scaled by the decimals of [token]. *)
Definition pays (token : TokenDefinition) (h : Holder) (t : string * string * Z) : Prop :=
  snd (fst t) = holder_address h
  /\ parseUnits (holder_amount h) (decimals token) = Ok (snd t).

(** The diagnostics of a compilation include an error. *)
Definition has_errors (output : CompileOutput) : bool :=
  match errors output with
  | Some es => existsb (fun e => String.eqb (severity e) "error") es
  | None => false
  end.

(** The deployer as the constructor leaves it. *)
Definition constructed {W : Type} (st : TokenDeployer W) (address : string)
  : TokenDeployer W :=
  {| world := world st; wallet_address := address; deployments := [];
     contractBytecode := None; contractABI := None; files := files st;
     calls := calls st |}.

(** The environment that [validateEnvironment] accepts, with the address
    the SDK derives from the key: the three variables are set, the key has
    the prefix [0x] and 66 characters, and the derived address is the
    configured one up to letter case. *)
Definition environment_ok `{Signer} (env : gmap string string) (address : string) : Prop :=
  Forall (fun key => unset env key = false) required_variables
  /\ (exists key deployer,
        env !! "PRIVATE_KEY" = Some key
        /\ env !! "DEPLOYER_ADDRESS" = Some deployer
        /\ String.prefix "0x" key = true
        /\ String.length key = 66%nat
        /\ Wallet_address key = Ok address
        /\ toLowerCase address = toLowerCase deployer).

(** ** verifyContracts.js: the deployment directory and [verifyAll] *)

(** [l] without the prefix [pre], when it starts with it. *)
Fixpoint strip_prefix (pre l : list ascii) : option (list ascii) :=
  match pre, l with
  | [], _ => Some l
  | p :: pre', c :: l' => if Ascii.eqb p c then strip_prefix pre' l' else None
  | _ :: _, [] => None
  end.

(** The part of a relative path before its first separator. *)
Fixpoint first_segment (l : list ascii) : list ascii :=
  match l with
  | [] => []
  | c :: l' => if Ascii.eqb c "/" then [] else c :: first_segment l'
  end.

(** The entry of the directory [dir] under which [path] lies, if any. *)
Definition entry_name (dir path : string) : option string :=
  rest ← strip_prefix (chars (dir +:+ "/")) (chars path);
  Some (str (first_segment rest)).

(** The names of the entries of the directory [dir], in the order the file
    system lists them. *)
Definition directory_entries (dir : string) (fs : gmap string string) : list string :=
  remove_dups (omap (fun entry => entry_name dir (fst entry)) (map_to_list fs)).

(** [fs.readdirSync(dir)].  A directory is present through the files under
    it: without any, the directory does not exist and the call throws. *)
Definition readdirSync (dir : string) (fs : gmap string string) : result (list string) :=
  match directory_entries dir fs with
  | [] => Err ("ENOENT: no such file or directory, scandir " +:+ dir)
  | entries => Ok entries
  end.

(** [s.startsWith(prefix)] *)
Definition startsWith (s prefix : string) : bool := String.prefix prefix s.

(** [s.endsWith(suffix)] *)
Definition endsWith (s suffix : string) : bool :=
  match strip_prefix (rev (chars suffix)) (rev (chars s)) with
  | Some _ => true
  | None => false
  end.

Fixpoint insert_sorted (x : string) (l : list string) : list string :=
  match l with
  | [] => [x]
  | y :: l' => if String.leb x y then x :: l else y :: insert_sorted x l'
  end.

(** [array.sort()] on strings, with the default comparison: code unit by
    code unit, a proper prefix before its extensions. *)
Definition Array_sort (l : list string) : list string :=
  fold_right insert_sorted [] l.

(** The name filter of [loadDeploymentReport]. *)
Definition is_deployment_file (f : string) : bool :=
  startsWith f "deployment-" && endsWith f ".json".



(** [new Date().toISOString()] in the process of the verifier. *)
Class Clock (H : Type) : Type := {
  Date_toISOString : H -> string * H
}.

Section VerifyAll.
Context {H : Type} `{Explorer H} `{AbiCoder} `{Clock H}.



(** The report is the one [saveDeploymentReport] writes; a file of another
    shape is refused on loading. *)
Definition loadDeploymentReport : M (ContractVerifier H) DeploymentReport :=
  fs ← gets v_files;
  files ← of_result (readdirSync deploymentDir fs);
  (* Find the most recent deployment file *)
  let deploymentFiles := List.filter is_deployment_file files in
  if Nat.eqb (length deploymentFiles) 0 then throw "No deployment files found"
  else
    let latestFile := default "" (head (reverse (Array_sort deploymentFiles))) in
    let reportPath := path_join deploymentDir latestFile in
    match fs !! reportPath with
    | None => throw ("ENOENT: no such file or directory, open " +:+ reportPath)
    | Some text =>
        match JSON_parse text ≫= json_to_report with
        | Some report => ret report
        | None => throw "SyntaxError: Unexpected token in JSON"
        end
    end.



End VerifyAll.

(** ** Vocabulary: the verification run *)

(** The status requests for [guid], [k] of them. *)
Definition status_requests (guid : string) (k : nat) : list Request :=
  repeat (ReqStatus guid) k.


(** [m] is among [l] and no name of [l] comes after it. *)
Definition greatest (m : string) (l : list string) : Prop :=
  In m l /\ forall f, In f l -> String.leb f m = true.

(** The names of the report files in the deployment directory. *)
Definition report_names (fs : gmap string string) : list string :=
  List.filter is_deployment_file (directory_entries deploymentDir fs).

(** The name of a report file, without the directory. *)
Definition report_name (network timestamp : string) : string :=
  "deployment-" +:+ network +:+ "-" +:+ timestamp +:+ ".json".

(** A list of names in ascending order. *)
Fixpoint ascending (l : list string) : Prop :=
  match l with
  | [] => True
  | x :: l' => Forall (fun y => String.leb x y = true) l' /\ ascending l'
  end.

(** ** interactWithTokens.js: the commands *)

(** The calls of the token command line: those of [Call], and the other
    functions of [ERC20_ABI] that the commands use. *)
Inductive AbiCall : Type :=
  | Chain (c : Call)
  | CallName (contract : string)
  | CallTotalSupply (contract : string)
  | CallDecimals (contract : string)
  | CallBalanceOf (contract account : string)
  | CallApprove (contract spender : string) (amount : Z)
  | CallHasRole (contract roleHash account : string)
  | CallMint (contract to : string) (amount : Z)
  | CallBurn (contract : string) (amount : Z)
  | CallPause (contract : string)
  | CallUnpause (contract : string).

(** The functions of a deployed token that the command line calls, beside
    those of [ChainClient]: a view answers a value, a transaction answers
    its hash; and [ethers.formatUnits]. *)
Class TokenContract (W : Type) : Type := {
  contract_name : string -> W -> result string * W;
  contract_totalSupply : string -> W -> result Z * W;
  contract_decimals : string -> W -> result Z * W;
  contract_balanceOf : string -> string -> W -> result Z * W;
  contract_approve : string -> string -> Z -> W -> result string * W;
  contract_hasRole : string -> string -> string -> W -> result bool * W;
  contract_mint : string -> string -> Z -> W -> result string * W;
  contract_burn : string -> Z -> W -> result string * W;
  contract_pause : string -> W -> result string * W;
  contract_unpause : string -> W -> result string * W;
  formatUnits : Z -> Z -> string
}.

(** The object returned by [getTokenInfo]. *)
Record TokenInfo : Type := {
  info_name : string;
  info_symbol : string;
  info_address : string;
  info_decimals : Z;
  info_totalSupply : string;
  info_balance : string
}.

(** The interactor with the log of all its calls. *)
Record Cli (W : Type) : Type := {
  cli_world : W;
  cli_wallet : string;
  cli_tokens : list (string * TokenData);
  cli_files : gmap string string;
  cli_calls : list AbiCall
}.
Arguments cli_world {W} _.
Arguments cli_wallet {W} _.
Arguments cli_tokens {W} _.
Arguments cli_files {W} _.
Arguments cli_calls {W} _.

Section Cli.
Context {W : Type} `{ChainClient W} `{TokenContract W}.

Definition cli_rpc {A : Type} (c : AbiCall) (f : W -> result A * W) : M (Cli W) A :=
  fun st =>
    let '(r, w') := f (cli_world st) in
    (match r with Ok a => Ret a | Err msg => Throw msg end,
     {| cli_world := w'; cli_wallet := cli_wallet st; cli_tokens := cli_tokens st;
        cli_files := cli_files st; cli_calls := cli_calls st ++ [c] |}).

(** A method of [TokenInteractor] run on the interactor: its calls are
    appended to the log. *)
Definition lift {A : Type} (m : M (TokenInteractor W) A) : M (Cli W) A :=
  fun st =>
    let '(o, st') := m {| i_world := cli_world st; i_wallet := cli_wallet st;
                          i_tokens := cli_tokens st; i_files := cli_files st;
                          i_calls := [] |} in
    (o, {| cli_world := i_world st'; cli_wallet := i_wallet st';
           cli_tokens := i_tokens st'; cli_files := i_files st';
           cli_calls := cli_calls st ++ map Chain (i_calls st') |}).

(** A call that is started and awaited later: the promise holds its value
    or its failure. *)
Definition started {A : Type} (m : M (Cli W) A) : M (Cli W) (result A) :=
  try_catch (a ← m; ret (Ok a)) (fun msg => ret (Err msg)).

(** The four calls of [Promise.all] are started in the order of the array;
    of several failures, the one reported is the first in that order. *)
Definition getTokenInfo (symbol : string) : M (Cli W) TokenInfo :=
  toks ← gets cli_tokens;
  match obj_get toks symbol with
  | None => throw ("Token " +:+ symbol +:+ " not found")
  | Some tokenData =>
      let contract := td_address tokenData in
      wallet ← gets cli_wallet;
      p_name ← started (cli_rpc (CallName contract) (contract_name contract));
      p_totalSupply ← started (cli_rpc (CallTotalSupply contract)
                                       (contract_totalSupply contract));
      p_decimals ← started (cli_rpc (CallDecimals contract)
                                    (contract_decimals contract));
      p_balance ← started (cli_rpc (CallBalanceOf contract wallet)
                                   (contract_balanceOf contract wallet));
      name ← of_result p_name;
      totalSupply ← of_result p_totalSupply;
      decimals ← of_result p_decimals;
      balance ← of_result p_balance;
      ret {| info_name := name; info_symbol := symbol;
             info_address := contract; info_decimals := decimals;
             info_totalSupply := formatUnits totalSupply decimals;
             info_balance := formatUnits balance decimals |}
  end.

Definition transfer (symbol to amount : string) : M (Cli W) Receipt :=
  toks ← gets cli_tokens;
  match obj_get toks symbol with
  | None => throw ("Token " +:+ symbol +:+ " not found")
  | Some tokenData =>
      let contract := td_address tokenData in
      decimals ← cli_rpc (CallDecimals contract) (contract_decimals contract);
      amountWei ← of_result (parseUnits amount decimals);
      tx ← cli_rpc (Chain (CallTransfer contract to amountWei))
                   (contract_transfer contract to amountWei);
      receipt ← cli_rpc (Chain (CallWait tx)) (tx_wait tx);
      ret receipt
  end.

Definition approve (symbol spender amount : string) : M (Cli W) Receipt :=
  toks ← gets cli_tokens;
  match obj_get toks symbol with
  | None => throw ("Token " +:+ symbol +:+ " not found")
  | Some tokenData =>
      let contract := td_address tokenData in
      decimals ← cli_rpc (CallDecimals contract) (contract_decimals contract);
      amountWei ← of_result (parseUnits amount decimals);
      tx ← cli_rpc (CallApprove contract spender amountWei)
                   (contract_approve contract spender amountWei);
      receipt ← cli_rpc (Chain (CallWait tx)) (tx_wait tx);
      ret receipt
  end.

Definition mint (symbol to amount : string) : M (Cli W) Receipt :=
  toks ← gets cli_tokens;
  match obj_get toks symbol with
  | None => throw ("Token " +:+ symbol +:+ " not found")
  | Some tokenData =>
      let contract := td_address tokenData in
      (* Check if caller has minter role *)
      MINTER ← cli_rpc (Chain (CallRole contract MINTER_ROLE))
                       (contract_role contract MINTER_ROLE);
      wallet ← gets cli_wallet;
      hasMinterRole ← cli_rpc (CallHasRole contract MINTER wallet)
                              (contract_hasRole contract MINTER wallet);
      if negb hasMinterRole
      then throw ("Address " +:+ wallet +:+ " does not have MINTER_ROLE")
      else
        decimals ← cli_rpc (CallDecimals contract) (contract_decimals contract);
        amountWei ← of_result (parseUnits amount decimals);
        tx ← cli_rpc (CallMint contract to amountWei)
                     (contract_mint contract to amountWei);
        receipt ← cli_rpc (Chain (CallWait tx)) (tx_wait tx);
        ret receipt
  end.

Definition burn (symbol amount : string) : M (Cli W) Receipt :=
  toks ← gets cli_tokens;
  match obj_get toks symbol with
  | None => throw ("Token " +:+ symbol +:+ " not found")
  | Some tokenData =>
      let contract := td_address tokenData in
      decimals ← cli_rpc (CallDecimals contract) (contract_decimals contract);
      amountWei ← of_result (parseUnits amount decimals);
      tx ← cli_rpc (CallBurn contract amountWei) (contract_burn contract amountWei);
      receipt ← cli_rpc (Chain (CallWait tx)) (tx_wait tx);
      ret receipt
  end.

Definition pause (symbol : string) : M (Cli W) Receipt :=
  toks ← gets cli_tokens;
  match obj_get toks symbol with
  | None => throw ("Token " +:+ symbol +:+ " not found")
  | Some tokenData =>
      let contract := td_address tokenData in
      tx ← cli_rpc (CallPause contract) (contract_pause contract);
      receipt ← cli_rpc (Chain (CallWait tx)) (tx_wait tx);
      ret receipt
  end.

Definition unpause (symbol : string) : M (Cli W) Receipt :=
  toks ← gets cli_tokens;
  match obj_get toks symbol with
  | None => throw ("Token " +:+ symbol +:+ " not found")
  | Some tokenData =>
      let contract := td_address tokenData in
      tx ← cli_rpc (CallUnpause contract) (contract_unpause contract);
      receipt ← cli_rpc (Chain (CallWait tx)) (tx_wait tx);
      ret receipt
  end.

(** [for (const [symbol, data] of Object.entries(this.tokens))], each
    token in its own [try]. *)
Definition listAllTokens : M (Cli W) unit :=
  toks ← gets cli_tokens;
  for_of toks (fun entry =>
    try_catch
      (getTokenInfo (fst entry);; ret tt)
      (fun _ => ret tt)).

(** [switch (command)]: whether the command is the label of a case; no
    command at all is no label. *)
Definition is_case (command : option string) (label : string) : bool :=
  match command with
  | Some c => String.eqb c label
  | None => false
  end.

(** [main] of the command line; [argv] is [process.argv] from its third
    entry on: the command and its arguments. *)
Definition interactWithTokens_main (argv : list string) : M (Cli W) unit :=
  lift loadTokenAddresses;;
  let command := head argv in
  let args := tail argv in
  try_catch
    (if is_case command "list" then listAllTokens
     else if is_case command "info" then
       match args with
       | symbol :: _ => getTokenInfo symbol;; ret tt
       | _ => exit 1
       end
     else if is_case command "transfer" then
       match args with
       | symbol :: to :: amount :: _ => transfer symbol to amount;; ret tt
       | _ => exit 1
       end
     else if is_case command "approve" then
       match args with
       | symbol :: spender :: amount :: _ => approve symbol spender amount;; ret tt
       | _ => exit 1
       end
     else if is_case command "mint" then
       match args with
       | symbol :: to :: amount :: _ => mint symbol to amount;; ret tt
       | _ => exit 1
       end
     else if is_case command "burn" then
       match args with
       | symbol :: amount :: _ => burn symbol amount;; ret tt
       | _ => exit 1
       end
     else if is_case command "grant-role" then
       match args with
       | symbol :: role :: account :: _ =>
           lift (grantRole symbol role account);; ret tt
       | _ => exit 1
       end
     else if is_case command "pause" then
       match args with
       | symbol :: _ => pause symbol;; ret tt
       | _ => exit 1
       end
     else if is_case command "unpause" then
       match args with
       | symbol :: _ => unpause symbol;; ret tt
       | _ => exit 1
       end
     else ret tt (* the help text *))
    (fun _ => exit 1).


End Cli.

(** ** Vocabulary: the command line *)

(** The commands that name a token, with the number of arguments each
    one needs. *)
Definition token_commands : list (string * nat) :=
  [("info", 1%nat); ("transfer", 3%nat); ("approve", 3%nat); ("mint", 3%nat);
   ("burn", 2%nat); ("grant-role", 3%nat); ("pause", 1%nat); ("unpause", 1%nat)].

Definition known_commands : list string := "list" :: map fst token_commands.

(** The four views that [getTokenInfo] calls. *)
Definition info_calls (contract wallet : string) : list AbiCall :=
  [CallName contract; CallTotalSupply contract; CallDecimals contract;
   CallBalanceOf contract wallet].

(** A call that waits for a transaction. *)
Definition is_wait (c : AbiCall) : Prop :=
  match c with
  | Chain (CallWait _) => True
  | _ => False
  end.

Section CliVocabulary.
Context {W : Type} `{ChainClient W} `{TokenContract W}.

(** How a command that sends an amount runs on a known token, from the
    world [w]: the decimals come from the contract, the amount is scaled by them, and the
    transaction [send v] carries the scaled amount [v]; when the decimals
    cannot be read or the amount does not scale, nothing is sent. *)
Definition scaled_send (w : W) (contract amount : string)
    (send : Z -> AbiCall) (o : outcome Receipt) (new : list AbiCall) : Prop :=
  match fst (contract_decimals contract w) with
  | Err msg => o = Throw msg /\ new = [CallDecimals contract]
  | Ok d =>
      match parseUnits amount d with
      | Err msg => o = Throw msg /\ new = [CallDecimals contract]
      | Ok v =>
          exists rest,
            new = CallDecimals contract :: send v :: rest
            /\ Forall is_wait rest /\ (length rest <= 1)%nat
            /\ forall code, o <> Exit code
      end
  end.

End CliVocabulary.

(** ** Vocabulary: how a script ends *)

(** The compilation cannot succeed from [st]: the contract source is not
    on disk, the compiler reports an error, or its output does not hold
    the contract. *)
Definition cannot_compile {W : Type} `{ContractBuilder} (st : TokenDeployer W) : Prop :=
  match files st !! contractPath with
  | None => True
  | Some source =>
      has_errors (solc_compile source) = true
      \/ compiled (solc_compile source) = None
  end.


(** ** Test doubles for the environment, the token and the clock *)

Module Stub.

Definition key : string :=
  "0x59c6995e998f97a5a0044966f0945389dc9e86dae88c7a8412f4603b6b78690d".

Definition wallet : string := "0xDe9107e500000000000000000000000000000003".

(** The signer knows one key. *)
#[global] Instance signer : Signer := {|
  Wallet_address k :=
    if String.eqb k key then Ok wallet else Err "invalid private key"
|}.

(** An environment whose configured address is the derived one in lower
    case. *)
Definition env : gmap string string :=
  {[ "RPC_URL" := "http://127.0.0.1:8545";
     "PRIVATE_KEY" := key;
     "DEPLOYER_ADDRESS" := "0xde9107e500000000000000000000000000000003";
     "ETHERSCAN_API_KEY" := "KEY" ]}.

(** The process before the constructor has run. *)
Definition blank : TokenDeployer Mock.chain :=
  new_TokenDeployer Mock.quiet_chain "" Mock.disk.

(** A compiler that reports a warning and an error. *)
Definition failing_builder : ContractBuilder := {|
  solc_compile _ :=
    {| errors := Some [{| severity := "warning"; formattedMessage := "unused variable" |};
                       {| severity := "error"; formattedMessage := "undeclared identifier" |}];
       compiled := None |}
|}.

(** A compiler that reports a warning only. *)
Definition warning_builder : ContractBuilder := {|
  solc_compile _ :=
    {| errors := Some [{| severity := "warning"; formattedMessage := "unused variable" |}];
       compiled := Some (JArr [JStr "constructor"], "0x60806040") |}
|}.

(** A token with nineteen decimals. *)
Definition tokenE : TokenDefinition := Mock.token "Eta" "ETA" "1" 19 None.

Definition bad_config : option (result Config) :=
  Some (Ok {| network := None; continueOnError := Some true;
              tokens := [Mock.tokenA; tokenE] |}).

(** A token whose second holder has an amount with too many digits. *)
Definition tokenD : TokenDefinition :=
  Mock.token "Delta" "DEL" "5" 2
    (Some [{| holder_address := Mock.alice; holder_amount := "1" |};
           {| holder_address := Mock.bob; holder_amount := "0.123" |}]).

(** The deployed tokens answer for the contract [0xC0] with eighteen
    decimals and for any other with six; the minter role is held by
    [wallet] alone. *)
#[global] Instance token_contract : TokenContract Mock.chain := {|
  contract_name c w := (Ok ("Token at " +:+ c), w);
  contract_totalSupply c w :=
    (if Mock.listed c (Mock.failing_estimates w)
     then Err "call revert exception" else Ok 1000000, w);
  contract_decimals c w := (Ok (if String.eqb c "0xC0" then 18 else 6), w);
  contract_balanceOf _ _ w := (Ok 250000, w);
  contract_approve _ _ _ w := (Ok ("0xT" +:+ Z_toString (Mock.nonce w)), Mock.bump w);
  contract_hasRole _ _ account w := (Ok (String.eqb account wallet), w);
  contract_mint _ _ _ w := (Ok ("0xT" +:+ Z_toString (Mock.nonce w)), Mock.bump w);
  contract_burn _ _ w := (Ok ("0xT" +:+ Z_toString (Mock.nonce w)), Mock.bump w);
  contract_pause _ w := (Ok ("0xT" +:+ Z_toString (Mock.nonce w)), Mock.bump w);
  contract_unpause _ w := (Ok ("0xT" +:+ Z_toString (Mock.nonce w)), Mock.bump w);
  formatUnits v _ := Z_toString v
|}.

#[global] Instance clock : Clock Mock.explorer := {|
  Date_toISOString h := ("2024-05-02T09:00:00.000Z", h)
|}.

Definition tokens : list (string * TokenData) :=
  [("ALF", {| td_address := "0xC0"; td_decimals := 6 |});
   ("BET", {| td_address := "0xC1"; td_decimals := 6 |})].

(** The command line in a directory that holds the address map. *)
Definition cli : Cli Mock.chain :=
  {| cli_world := Mock.quiet_chain; cli_wallet := wallet; cli_tokens := [];
     cli_files := {[ addressPath := JSON_stringify (addressMap_to_json tokens) ]};
     cli_calls := [] |}.

(** The command line after [loadTokenAddresses]. *)
Definition loaded (account : string) : Cli Mock.chain :=
  {| cli_world := Mock.quiet_chain; cli_wallet := account; cli_tokens := tokens;
     cli_files := cli_files cli; cli_calls := [] |}.

(** The deployer after the deployment of the first token. *)
Definition deployed : TokenDeployer Mock.chain :=
  snd (deployToken Mock.tokenA (Mock.deployer Mock.quiet_chain)).

(** The verifier in the directory the deployer left. *)
Definition verifier (fs : gmap string string) : ContractVerifier Mock.explorer :=
  new_ContractVerifier "sepolia" "KEY"
    {| Mock.served := 0; Mock.script := Mock.slow_success |} fs.

End Stub.
(** * Properties *)

(** ** Reasoning about computations *)

Section Monad.
Context {S : Type}.

Lemma bind_unfold {A B : Type} (m : M S A) (f : A -> M S B) (st : S) :
  (m ≫= f) st =
  match m st with
  | (Ret a, st') => f a st'
  | (Throw msg, st') => (Throw msg, st')
  | (Exit code, st') => (Exit code, st')
  end.
Proof. reflexivity. Qed.

Lemma bind_ret_l {A B : Type} (m : M S A) (f : A -> M S B) (st st1 : S) (a : A) :
  m st = (Ret a, st1) -> (m ≫= f) st = f a st1.
Proof. intros E. rewrite bind_unfold, E. reflexivity. Qed.

Lemma bind_throw_l {A B : Type} (m : M S A) (f : A -> M S B) (st st1 : S) msg :
  m st = (Throw msg, st1) -> (m ≫= f) st = (Throw msg, st1).
Proof. intros E. rewrite bind_unfold, E. reflexivity. Qed.

Lemma bind_exit_l {A B : Type} (m : M S A) (f : A -> M S B) (st st1 : S) code :
  m st = (Exit code, st1) -> (m ≫= f) st = (Exit code, st1).
Proof. intros E. rewrite bind_unfold, E. reflexivity. Qed.

Lemma bind_inv {A B : Type} (m : M S A) (f : A -> M S B) (st st' : S) (o : outcome B) :
  (m ≫= f) st = (o, st') ->
  (exists a st1, m st = (Ret a, st1) /\ f a st1 = (o, st'))
  \/ (exists msg, m st = (Throw msg, st') /\ o = Throw msg)
  \/ (exists code, m st = (Exit code, st') /\ o = Exit code).
Proof.
  rewrite bind_unfold. destruct (m st) as [[a | msg | code] st1]; intros E.
  - left. eauto.
  - right. left. inversion E. eauto.
  - right. right. inversion E. eauto.
Qed.

Lemma try_catch_inv {A : Type} (m : M S A) (h : string -> M S A) (st st' : S)
    (o : outcome A) :
  try_catch m h st = (o, st') ->
  (exists a, m st = (Ret a, st') /\ o = Ret a)
  \/ (exists msg st1, m st = (Throw msg, st1) /\ h msg st1 = (o, st'))
  \/ (exists code, m st = (Exit code, st') /\ o = Exit code).
Proof.
  unfold try_catch. destruct (m st) as [[a | msg | code] st1]; intros E.
  - left. inversion E. eauto.
  - right. left. eauto.
  - right. right. inversion E. eauto.
Qed.

Section Keeps.
Variable R : S -> S -> Prop.
Hypothesis R_refl : forall st, R st st.
Hypothesis R_trans : forall a b c, R a b -> R b c -> R a c.

Lemma keeps_ret {A : Type} (a : A) : keeps R (ret a).
Proof. intros st o st' E. inversion E. apply R_refl. Qed.

Lemma keeps_mret {A : Type} (a : A) : keeps R (mret a : M S A).
Proof. apply keeps_ret. Qed.

Lemma keeps_throw {A : Type} msg : keeps R (throw msg : M S A).
Proof. intros st o st' E. inversion E. apply R_refl. Qed.

Lemma keeps_exit {A : Type} code : keeps R (exit code : M S A).
Proof. intros st o st' E. inversion E. apply R_refl. Qed.

Lemma keeps_gets {A : Type} (f : S -> A) : keeps R (gets f).
Proof. intros st o st' E. inversion E. apply R_refl. Qed.

Lemma keeps_of_result {A : Type} (r : result A) : keeps R (of_result r : M S A).
Proof. destruct r; [apply keeps_ret | apply keeps_throw]. Qed.

Lemma keeps_bind {A B : Type} (m : M S A) (f : A -> M S B) :
  keeps R m -> (forall a, keeps R (f a)) -> keeps R (m ≫= f).
Proof.
  intros Hm Hf st o st' E.
  apply bind_inv in E as [(a & st1 & E1 & E2) | [(msg & E1 & _) | (code & E1 & _)]].
  - eapply R_trans; [eapply Hm | eapply Hf]; eauto.
  - eapply Hm; eauto.
  - eapply Hm; eauto.
Qed.

Lemma keeps_try_catch {A : Type} (m : M S A) (h : string -> M S A) :
  keeps R m -> (forall msg, keeps R (h msg)) -> keeps R (try_catch m h).
Proof.
  intros Hm Hh st o st' E.
  apply try_catch_inv in E as [(a & E1 & _) | [(msg & st1 & E1 & E2) | (code & E1 & _)]].
  - eapply Hm; eauto.
  - eapply R_trans; [eapply Hm | eapply Hh]; eauto.
  - eapply Hm; eauto.
Qed.

Lemma keeps_for_of {A : Type} (xs : list A) (body : A -> M S unit) :
  (forall x, keeps R (body x)) -> keeps R (for_of xs body).
Proof.
  intros Hb. induction xs as [| x xs IH]; simpl.
  - apply keeps_ret.
  - apply keeps_bind; auto.
Qed.

End Keeps.
End Monad.

(** ** Decimal scaling *)

Example parseUnits_tenth : parseUnits "0.1" 18 = Ok 100000000000000000.
Proof. reflexivity. Qed.

Example parseUnits_plain : parseUnits "1000000" 6 = Ok 1000000000000.
Proof. reflexivity. Qed.

Example parseUnits_too_fine : parseUnits "0.123" 2 = Err "too many decimals for format".
Proof. reflexivity. Qed.

Example Z_toString_ex : Z_toString 1234567 = "1234567".
Proof. reflexivity. Qed.

Lemma digits_val_app (acc : Z) (a b : list ascii) :
  digits_val acc (a ++ b) = digits_val (digits_val acc a) b.
Proof. revert acc. induction a as [| c a IH]; intros acc; simpl; auto. Qed.




Example JSON_stringify_layout :
  JSON_stringify (JArr [JNum 1; JArr [JNum (-2); JBool true]; JArr []; JNull])
  = "[
  1,
  [
    -2,
    true
  ],
  [],
  null
]".
Proof. vm_compute. reflexivity. Qed.

Example JSON_roundtrip_ex :
  JSON_parse (JSON_stringify
    (JObj [("a", JArr [JNum 1; JStr "x\y"; JBool true; JArr []; JObj []]);
           ("b", JNum (-20)); ("c", JNull)]))
  = Some (JObj [("a", JArr [JNum 1; JStr "x\y"; JBool true; JArr []; JObj []]);
           ("b", JNum (-20)); ("c", JNull)]).
Proof. vm_compute. reflexivity. Qed.

(** ** The deployment orchestrator *)

Ltac inv_bind H :=
  let a := fresh "a" in
  let st := fresh "st" in
  let E := fresh "E" in
  let msg := fresh "msg" in
  let code := fresh "code" in
  let Ho := fresh "Ho" in
  apply bind_inv in H as [(a & st & E & H) | [(msg & H & Ho) | (code & H & Ho)]];
  [ | first [discriminate Ho | inversion Ho; subst; try clear Ho | subst]
    | first [discriminate Ho | inversion Ho; subst; try clear Ho | subst] ].

Ltac inv_try H :=
  let a := fresh "a" in
  let st := fresh "st" in
  let E := fresh "E" in
  let msg := fresh "msg" in
  let code := fresh "code" in
  let Ho := fresh "Ho" in
  apply try_catch_inv in H as [(a & H & Ho) | [(msg & st & E & H) | (code & H & Ho)]];
  [ first [discriminate Ho | inversion Ho; subst; try clear Ho | subst]
  | | first [discriminate Ho | inversion Ho; subst; try clear Ho | subst] ].

Section DeployerSteps.
Context {W : Type} `{ChainClient W} `{ContractBuilder}.

Lemma more_calls_refl (st : TokenDeployer W) : more_calls st st.
Proof. exists []. rewrite app_nil_r. reflexivity. Qed.

Lemma more_calls_trans (a b c : TokenDeployer W) : more_calls a b -> more_calls b c -> more_calls a c.
Proof. intros [x Hx] [y Hy]. exists (x ++ y). rewrite Hy, Hx, app_assoc. reflexivity. Qed.

Lemma more_records_refl (st : TokenDeployer W) : more_records st st.
Proof. exists []. rewrite app_nil_r. reflexivity. Qed.

Lemma more_records_trans (a b c : TokenDeployer W) : more_records a b -> more_records b c -> more_records a c.
Proof. intros [x Hx] [y Hy]. exists (x ++ y). rewrite Hy, Hx, app_assoc. reflexivity. Qed.

Lemma files_but_refl keep (st : TokenDeployer W) : files_but keep st st.
Proof. intros p _. reflexivity. Qed.

Lemma files_but_trans keep (a b c : TokenDeployer W) :
  files_but keep a b -> files_but keep b c -> files_but keep a c.
Proof. intros Hab Hbc p Hp. rewrite Hbc, Hab; auto. Qed.

(** What a call into the SDK does to the state of the script. *)
Lemma rpc_inv {A : Type} (c : Call) (f : W -> result A * W) st o st' :
  rpc c f st = (o, st') ->
  o = match fst (f (world st)) with Ok a => Ret a | Err msg => Throw msg end
  /\ world st' = snd (f (world st))
  /\ calls st' = calls st ++ [c]
  /\ same_records st st' /\ same_files st st' /\ same_contract st st'.
Proof.
  unfold rpc. destruct (f (world st)) as [r w']. intros E. inversion E. subst.
  unfold same_records, same_files, same_contract. simpl. auto 10.
Qed.

Lemma now_inv st o st' :
  now st = (o, st') ->
  o = Ret (fst (toISOString_now (world st)))
  /\ calls st' = calls st
  /\ same_records st st' /\ same_files st st' /\ same_contract st st'.
Proof.
  unfold now. destruct (toISOString_now (world st)) as [t w']. intros E.
  inversion E. subst. unfold same_records, same_files, same_contract. simpl. auto 10.
Qed.

Lemma writeFileSync_run path content (st st' : TokenDeployer W) o :
  writeFileSync path content st = (o, st') ->
  o = Ret tt /\ files st' = <[path := content]> (files st)
  /\ same_records st st' /\ same_contract st st' /\ calls st' = calls st.
Proof.
  unfold writeFileSync, modify. intros E. inversion E; subst.
  unfold same_records, same_contract. simpl. auto 10.
Qed.

End DeployerSteps.

(** Splits the run of a straight-line computation into the runs of its
    steps. *)
Ltac inv_run :=
  repeat match goal with
  | E : (_ ≫= _) _ = _ |- _ => inv_bind E
  | E : ret _ _ = _ |- _ => inversion E; subst; clear E
  | E : throw _ _ = _ |- _ => inversion E; subst; clear E
  | E : gets _ _ = _ |- _ => inversion E; subst; clear E
  | E : of_result ?r _ = _ |- _ =>
      let Hr := fresh "Hr" in
      destruct r eqn:Hr; cbn [of_result] in E
  | E : rpc _ _ _ = (Exit _, _) |- _ =>
      let Ho := fresh "Ho" in
      exfalso; apply rpc_inv in E as (Ho & _);
      match type of Ho with
      | _ = match ?x with _ => _ end => destruct x; discriminate Ho
      end
  | E : rpc _ _ _ = _ |- _ =>
      let Hc := fresh "Hc" in
      apply rpc_inv in E as (_ & _ & Hc & ? & ? & ?)
  | E : now _ = _ |- _ =>
      let Hc := fresh "Hc" in
      let Ho := fresh "Ho" in
      apply now_inv in E as (Ho & Hc & ? & ? & ?);
      first [discriminate Ho | inversion Ho; subst; try clear Ho]
  | E : writeFileSync _ _ _ = _ |- _ =>
      let Hc := fresh "Hc" in
      let Hf := fresh "Hf" in
      let Ho := fresh "Ho" in
      apply writeFileSync_run in E as (Ho & Hf & ? & ? & Hc);
      first [discriminate Ho | inversion Ho; subst; try clear Ho]
  end.

Ltac chain_calls :=
  repeat match goal with
  | Hc : calls ?s = _ |- context [calls ?s] => rewrite Hc; clear Hc
  end;
  rewrite <- ?app_assoc; simpl;
  first [reflexivity | symmetry; apply app_nil_r].

Ltac rel_side :=
  solve [ exact more_calls_refl | exact more_calls_trans
        | exact more_records_refl | exact more_records_trans
        | apply files_but_refl | apply files_but_trans
        | (unfold same_records, same_files, same_contract; intros; intuition congruence) ].

Ltac keeps_prim :=
  let st := fresh "st" in
  let o := fresh "o" in
  let st' := fresh "st'" in
  let E := fresh "E" in
  intros st o st' E;
  first [ apply rpc_inv in E as (_ & _ & ? & ? & ? & ?)
        | apply now_inv in E as (_ & ? & ? & ? & ?)
        | (unfold push_deployment, set_contract, writeFileSync, modify in E;
           inversion E; subst; clear E) ];
  unfold same_records, same_files, same_contract, more_calls, more_records in *;
  simpl in *;
  first [ intuition congruence
        | (eexists; eassumption)
        | (eexists; reflexivity)
        | (exists []; rewrite app_nil_r; intuition congruence) ].

Ltac keeps_struct :=
  repeat first
    [ apply keeps_ret; rel_side
    | apply keeps_mret; rel_side
    | apply keeps_throw; rel_side
    | apply keeps_exit; rel_side
    | apply keeps_gets; rel_side
    | apply keeps_of_result; rel_side
    | apply keeps_bind; [rel_side | | intros ?]
    | apply keeps_try_catch; [rel_side | | intros ?]
    | apply keeps_for_of; [rel_side | rel_side | intros ?]
    | match goal with |- keeps _ (if ?b then _ else _) => destruct b end
    | match goal with |- keeps _ (match ?x with _ => _ end) => destruct x end
    | solve [keeps_prim] ].

Section DeployerFacts.
Context {W : Type} `{ChainClient W} `{ContractBuilder}.

Lemma estimateGas_same_records token : keeps same_records (estimateGas token).
Proof. unfold estimateGas, new_factory. keeps_struct. Qed.

Lemma estimateGas_same_files token : keeps same_files (estimateGas token).
Proof. unfold estimateGas, new_factory. keeps_struct. Qed.


Lemma distributeTokens_same_records c token : keeps same_records (distributeTokens c token).
Proof. unfold distributeTokens. keeps_struct. Qed.

Lemma distributeTokens_same_files c token : keeps same_files (distributeTokens c token).
Proof. unfold distributeTokens. keeps_struct. Qed.


Lemma deployToken_same_files token : keeps same_files (deployToken token).
Proof.
  unfold deployToken, new_factory.
  pose proof (estimateGas_same_files token).
  pose proof distributeTokens_same_files.
  keeps_struct; auto.
Qed.


Lemma deployToken_more_records token : keeps more_records (deployToken token).
Proof.
  assert (Hsub : forall A (m : M (TokenDeployer W) A),
             keeps same_records m -> keeps more_records m).
  { intros A m Hm st o st' E. apply Hm in E. exists []. rewrite app_nil_r. exact E. }
  unfold deployToken, new_factory.
  pose proof (Hsub _ _ (estimateGas_same_records token)).
  pose proof (fun c t => Hsub _ _ (distributeTokens_same_records c t)).
  keeps_struct; auto.
Qed.

Lemma estimateGas_run token st v :
  parseUnits (initialSupply token) (decimals token) = Ok v ->
  exists st1,
    estimateGas token st
    = (Ret (gas_limit_of (fst (rpc_estimateGas (factory_of st) (ctor_args token v) (world st)))),
       st1)
    /\ calls st1 = calls st ++ [CallEstimateGas (ctor_args token v)]
    /\ same_records st st1 /\ same_files st st1 /\ same_contract st st1.
Proof.
  intros Hv. unfold estimateGas, new_factory, gets.
  rewrite bind_unfold. rewrite Hv. cbn [of_result]. rewrite bind_unfold.
  unfold ret at 1. unfold try_catch. rewrite bind_unfold. unfold rpc, factory_of.
  destruct (rpc_estimateGas _ _ (world st)) as [[g | e] w1]; simpl;
    eexists; (split; [reflexivity |]);
    unfold same_records, same_files, same_contract; simpl; auto 10.
Qed.

Lemma distribute_loop_run contract token hs st o st' :
  (forall h, In h hs -> In h (default [] (initialHolders token))) ->
  for_of hs (fun holder =>
      amount ← of_result (parseUnits (holder_amount holder) (decimals token));
      tx ← rpc (CallTransfer (contract_address contract) (holder_address holder) amount)
               (contract_transfer (contract_address contract)
                                  (holder_address holder) amount);
      rpc (CallWait tx) (tx_wait tx);;
      ret tt) st = (o, st') ->
  (exists new, calls st' = calls st ++ new /\ Forall (distribution_call token) new)
  /\ same_records st st'
  /\ forall code, o <> Exit code.
Proof.
  revert st. induction hs as [| h hs IH]; intros st Hin E.
  - inversion E; subst. split; [| split; [reflexivity | discriminate]].
    exists []. rewrite app_nil_r. split; [reflexivity | constructor].
  - simpl in E.
    assert (Hin' : forall h', In h' hs -> In h' (default [] (initialHolders token)))
      by (intros; apply Hin; right; assumption).
    assert (Hh : forall c amount,
               parseUnits (holder_amount h) (decimals token) = Ok amount ->
               distribution_call token (CallTransfer c (holder_address h) amount)).
    { intros c amount Hp. exists h. split; [apply Hin; left; reflexivity | auto]. }
    inv_bind E.
    + apply IH in E; [| assumption]. destruct E as ((new & Hc & Hall) & Hrec & Hne).
      inv_run.
      split; [| split; [unfold same_records in *; congruence | assumption]].
      eexists. split; [chain_calls |].
      repeat first [assumption | apply List.Forall_nil
                   | apply List.Forall_cons; [first [exact I | apply Hh; reflexivity] |]].
    + inv_run;
        (split; [| split; [unfold same_records in *; congruence | discriminate]]);
        (eexists; split;
         [chain_calls
         | repeat first [assumption | apply List.Forall_nil
                        | apply List.Forall_cons; [first [exact I | apply Hh; reflexivity] |]]]).
    + exfalso. inv_run.
Qed.
(** Every run of [deployToken], by what the scaling of the supply gives:
    the calls it makes, and the records it leaves. *)
Lemma deployToken_run token st o st' :
  deployToken token st = (o, st') ->
  match parseUnits (initialSupply token) (decimals token) with
  | Err msg => o = Throw msg /\ st' = st
  | Ok v =>
      let args := ctor_args token v in
      let gasLimit :=
        gas_limit_of (fst (rpc_estimateGas (factory_of st) args (world st))) in
      (exists rest,
          calls st' = calls st ++ CallEstimateGas args :: CallDeploy args gasLimit :: rest
          /\ Forall (distribution_call token) rest)
      /\ match o with
         | Ret a =>
             exists contract receipt,
               a = contract_address contract
               /\ deployments st' = deployments st ++ [record_of token contract receipt]
         | Throw _ => deployments st' = deployments st
         | Exit _ => False
         end
  end.
Proof.
  unfold deployToken, new_factory. intros E.
  inv_bind E; [| discriminate | discriminate].
  inversion E0; subst a st0; clear E0.
  destruct (parseUnits (initialSupply token) (decimals token)) as [v | msg] eqn:Hv.
  all: cbn [of_result] in E; rewrite bind_unfold in E; cbn [ret throw] in E.
  2: { inversion E. auto. }
  destruct (estimateGas_run token st v Hv) as (st1 & Hg & Hc1 & Hr1 & _ & Hk1).
  fold (factory_of st) in E.
  set (gasLimit := gas_limit_of _) in *. cbv zeta.
  rewrite (bind_ret_l _ _ _ _ _ Hg) in E.
  assert (Hdist : forall c s1 o1 s2,
             (if has_holders token then distributeTokens c token else ret tt) s1
             = (o1, s2) ->
             (exists new, calls s2 = calls s1 ++ new
                          /\ Forall (distribution_call token) new)
             /\ same_records s1 s2 /\ forall code, o1 <> Exit code).
  { intros c s1 o1 s2 Ed. destruct (has_holders token).
    - eapply distribute_loop_run; [| exact Ed]. auto.
    - inversion Ed; subst. split; [| split; [reflexivity | discriminate]].
      exists []. rewrite app_nil_r. split; [reflexivity | constructor]. }
  inv_bind E; [inv_bind E; [inv_bind E; [inv_bind E | |] | |] | |].
  all: inv_run.
  all: repeat match goal with
       | Hd : (if has_holders _ then _ else _) _ = _ |- _ =>
           apply Hdist in Hd as ((? & ? & ?) & ? & ?)
       | Hp : push_deployment _ _ = _ |- _ =>
           unfold push_deployment, modify in Hp; inversion Hp; subst; clear Hp
       end.
  all: simpl in *.
  all: try solve [exfalso;
                  match goal with
                  | Hx : forall c : Z, _ |- _ => solve [eapply Hx; reflexivity]
                  end].
  all: (split;
        [ eexists; split;
          [ chain_calls
          | repeat first [assumption | apply List.Forall_nil
                         | apply List.Forall_cons; [exact I |]] ]
        | unfold same_records in *;
          first [ congruence
                | match goal with
                  | c : Contract, r : Receipt |- _ =>
                      exists c, r; split; [reflexivity |];
                      unfold record_of; congruence
                  end ] ]).
Qed.
End DeployerFacts.



Example mock_deployToken_ok :
  let '(o, st) := deployToken Mock.tokenA (Mock.deployer Mock.quiet_chain) in
  o = Ret "0xC0" /\ map d_symbol (deployments st) = ["ALF"]
  /\ map d_gasUsed (deployments st) = ["1285977"]
  /\ calls st =
     [CallEstimateGas (ctor_args Mock.tokenA 100000000000000000);
      CallDeploy (ctor_args Mock.tokenA 100000000000000000) 1851853;
      CallWaitForDeployment {| contract_address := "0xC0"; deployment_hash := "0xT0" |};
      CallWait "0xT0";
      CallTransfer "0xC0" Mock.alice 25000000000000000;
      CallWait "0xT1"].
Proof. vm_compute. auto. Qed.

Section DeployerProperties.
Context {W : Type} `{ChainClient W} `{ContractBuilder}.


(** C3: when the deployment of a token does not complete, whichever step
    failed, [this.deployments] is what it was before: no record of the
    token is stored. *)
Theorem failed_token_leaves_no_record (token : TokenDefinition)
    (st st' : TokenDeployer W) (o : outcome string) :
  deployToken token st = (o, st') ->
  (forall address, o <> Ret address) ->
  deployments st' = deployments st.
Proof.
  intros E Hfail. apply deployToken_run in E.
  destruct (parseUnits (initialSupply token) (decimals token)).
  - destruct E as (_ & E). destruct o; [exfalso; eapply Hfail; eauto | exact E | contradiction].
  - destruct E as (_ & ->). reflexivity.
Qed.


End DeployerProperties.


Lemma failed_token_leaves_no_record_witness :
  let st := Mock.deployer {| Mock.nonce := 0; Mock.failing_deploys := [];
                             Mock.failing_estimates := [];
                             Mock.failing_transfers := [Mock.bob] |} in
  fst (deployToken Mock.tokenB st) = Throw "execution reverted"
  /\ deployments (snd (deployToken Mock.tokenB st)) = deployments st.
Proof.
  intros st. split; [vm_compute; reflexivity |].
  apply (failed_token_leaves_no_record Mock.tokenB st _ (fst (deployToken Mock.tokenB st))).
  - apply surjective_pairing.
  - intros address. vm_compute. discriminate.
Defined.


Example estimate_failure_does_not_abort :
  let st := Mock.deployer {| Mock.nonce := 0; Mock.failing_deploys := [];
                             Mock.failing_estimates := ["GAM"];
                             Mock.failing_transfers := [] |} in
  fst (estimateGas Mock.tokenC st) = Ret 3000000
  /\ fst (deployToken Mock.tokenC st) = Ret "0xC0"
  /\ calls (snd (deployToken Mock.tokenC st))
     = [CallEstimateGas (ctor_args Mock.tokenC 2100000000000000);
        CallDeploy (ctor_args Mock.tokenC 2100000000000000) 3000000;
        CallWaitForDeployment {| contract_address := "0xC0"; deployment_hash := "0xT0" |};
        CallWait "0xT0"].
Proof. vm_compute. auto. Qed.

Section DeployFacts.
Context {W : Type} `{ChainClient W} `{ContractBuilder}.

Lemma loop_body_ok (continue : bool) token (st st1 : TokenDeployer W) a :
  deployToken token st = (Ret a, st1) ->
  try_catch (deployToken token;; ret tt)
            (fun msg : string => if continue then ret tt else throw msg) st
  = (Ret tt, st1).
Proof. intros E. unfold try_catch. rewrite bind_unfold, E. reflexivity. Qed.

Lemma loop_body_failed (continue : bool) token (st st1 : TokenDeployer W) msg :
  deployToken token st = (Throw msg, st1) ->
  try_catch (deployToken token;; ret tt)
            (fun msg : string => if continue then ret tt else throw msg) st
  = (if continue then Ret tt else Throw msg, st1).
Proof.
  intros E. unfold try_catch. rewrite bind_unfold, E.
  destruct continue; reflexivity.
Qed.

Lemma getNetworkInfo_keeps :
  keeps (fun st st' : TokenDeployer W =>
           same_records st st' /\ same_files st st' /\ same_contract st st')
        getNetworkInfo.
Proof.
  unfold getNetworkInfo. intros st o st' E. inv_run;
    unfold same_records, same_files, same_contract in *; intuition congruence.
Qed.

Lemma loadTokenConfig_state file (st st' : TokenDeployer W) o :
  loadTokenConfig file st = (o, st') -> st' = st.
Proof.
  assert (K : keeps (fun a b : TokenDeployer W => b = a) (loadTokenConfig file)).
  { assert (Ht : forall a b c : TokenDeployer W, b = a -> c = b -> c = a) by congruence.
    unfold loadTokenConfig, validateTokenConfig.
    repeat first
      [ apply keeps_ret; reflexivity
      | apply keeps_throw; reflexivity
      | apply keeps_exit; reflexivity
      | apply keeps_bind; [exact Ht | | intros ?]
      | apply keeps_for_of; [reflexivity | exact Ht | intros ?]
      | match goal with |- keeps _ (if ?b then _ else _) => destruct b end
      | match goal with |- keeps _ (match ?x with _ => _ end) => destruct x end ]. }
  intros E. exact (K _ _ _ E).
Qed.

Lemma compileContract_keeps (st st' : TokenDeployer W) o :
  compileContract st = (o, st') ->
  same_records st st' /\ files_but (fun p => p <> abiPath) st st'.
Proof.
  unfold compileContract, readFileSync, saveABI, set_contract, modify.
  intros E. inv_run.
  all: repeat match goal with
       | E : match ?x with _ => _ end _ = _ |- _ => destruct x eqn:?
       | E : (if ?x then _ else _) _ = _ |- _ => destruct x eqn:?
       | E : exit _ _ = _ |- _ => inversion E; subst; clear E
       | E : (_, _) = (_, _) |- _ => inversion E; subst; clear E
       | E : writeFileSync _ _ _ = _ |- _ =>
           apply writeFileSync_run in E as (? & ? & ? & ? & ?)
       | _ => progress inv_run
       end.
  all: unfold same_records, files_but in *; simpl in *.
  all: split; [congruence |]; intros p Hp.
  all: repeat match goal with
       | Hf : files _ = <[_ := _]> _ |- _ => rewrite Hf; clear Hf
       end.
  all: rewrite ?lookup_insert_ne by congruence; reflexivity.
Qed.

Lemma deployAll_same_files c ts : keeps same_files (deployAll c ts).
Proof. unfold deployAll. pose proof deployToken_same_files. keeps_struct; auto. Qed.

Lemma deployAll_more_records c ts : keeps more_records (deployAll c ts).
Proof. unfold deployAll. pose proof deployToken_more_records. keeps_struct; auto. Qed.

Lemma saveDeploymentReport_run network (st st' : TokenDeployer W) o :
  saveDeploymentReport network st = (o, st') ->
  o = Ret tt /\ same_records st st' /\ wallet_address st' = wallet_address st
  /\ exists iso stamp,
       files st'
       = <[addressPath := JSON_stringify (addressMap_to_json (addressMap (deployments st)))]>
           (<[reportPath network (replace_colon_dot iso) :=
                JSON_stringify (report_to_json
                  {| r_timestamp := stamp; r_network := network;
                     r_deployer := wallet_address st;
                     r_deployments := deployments st |})]> (files st)).
Proof.
  unfold saveDeploymentReport. intros E. inv_run.
  unfold same_records, same_files, same_contract in *.
  split; [reflexivity |]. split; [congruence |]. split; [intuition congruence |].
  eexists _, _.
  repeat match goal with Hf : files _ = <[_ := _]> _ |- _ => rewrite Hf; clear Hf end.
  repeat match goal with
  | Hq : _ /\ _ |- _ => destruct Hq
  | Hq : ?f ?s' = ?f ?s |- _ => rewrite Hq; clear Hq
  end.
  reflexivity.
Qed.

End DeployFacts.

Ltac deploy_steps :=
  repeat match goal with
  | E : getNetworkInfo _ = _ |- _ => apply getNetworkInfo_keeps in E as (? & ? & ?)
  | E : loadTokenConfig _ _ = _ |- _ => apply loadTokenConfig_state in E; subst
  | E : compileContract _ = _ |- _ => apply compileContract_keeps in E as (? & ?)
  | E : deployAll _ _ _ = _ |- _ =>
      let E' := fresh E in
      pose proof (deployAll_same_files _ _ _ _ _ E) as E';
      apply deployAll_more_records in E
  | E : saveDeploymentReport _ _ = _ |- _ =>
      apply saveDeploymentReport_run in E as (? & ? & ? & ? & ? & ?)
  | E : exit _ _ = _ |- _ => inversion E; subst; clear E
  end.

Section DeployRuns.
Context {W : Type} `{ChainClient W} `{ContractBuilder}.

(** Every run of [deploy] only adds records, and a run that ends without
    records, or does not return, has written no file but the ABI. *)
Lemma deploy_quiet file (st st' : TokenDeployer W) o :
  deploy file st = (o, st') ->
  more_records st st'
  /\ (deployments st' = [] -> files_but (fun p => p <> abiPath) st st')
  /\ ((forall u, o <> Ret u) -> files_but (fun p => p <> abiPath) st st').
Proof.
  unfold deploy. intros E. inv_try E.
  all: inv_run.
  all: repeat match goal with
       | E : (if ?b then _ else _) _ = _ |- _ => destruct b eqn:?
       end.
  all: inv_run; deploy_steps.
  all: unfold same_records, same_files, more_records, files_but in *.
  all: repeat match goal with
       | Hx : exists _, _ |- _ => destruct Hx
       | Hx : _ /\ _ |- _ => destruct Hx
       end.
  all: split;
    [ eexists;
      repeat match goal with
      | Hq : deployments ?s = _ |- context [deployments ?s] => rewrite Hq; clear Hq
      end;
      rewrite <- ?app_assoc; first [reflexivity | symmetry; apply app_nil_r]
    | split;
      [ intros Hnil p Hp;
        try (exfalso;
             match goal with
             | Hlt : Nat.ltb 0 (length (deployments ?s)) = true,
               Hq : deployments _ = deployments ?s |- _ =>
                 rewrite <- Hq, Hnil in Hlt; discriminate Hlt
             end)
      | intros Hne p Hp; try (exfalso; eapply Hne; reflexivity) ];
      repeat match goal with
      | Hq : forall q, _ -> files _ !! q = _ |- _ => specialize (Hq p Hp)
      end;
      congruence ].
Qed.

Lemma deployAll_cons continue token tokens (st : TokenDeployer W) :
  deployAll continue (token :: tokens) st
  = match deployToken token st with
    | (Ret _, st1) => deployAll continue tokens st1
    | (Throw msg, st1) =>
        if continue then deployAll continue tokens st1 else (Throw msg, st1)
    | (Exit code, st1) => (Exit code, st1)
    end.
Proof.
  unfold deployAll. cbn [for_of]. rewrite bind_unfold. unfold try_catch.
  rewrite bind_unfold.
  destruct (deployToken token st) as [[a | msg | code] st1]; try reflexivity.
  destruct continue; reflexivity.
Qed.

Lemma deployAll_nil continue (st : TokenDeployer W) :
  deployAll continue [] st = (Ret tt, st).
Proof. reflexivity. Qed.

Lemma reportPath_not_abi network timestamp : reportPath network timestamp <> abiPath.
Proof. intros Heq. vm_compute in Heq. discriminate Heq. Qed.

Lemma addressPath_not_abi : addressPath <> abiPath.
Proof. intros Heq. vm_compute in Heq. discriminate Heq. Qed.

Lemma reportPath_not_address network timestamp : reportPath network timestamp <> addressPath.
Proof. intros Heq. vm_compute in Heq. discriminate Heq. Qed.

End DeployRuns.

Section DeployProperties.
Context {W : Type} `{ChainClient W} `{ContractBuilder}.


(** C10: when [deploy] ends with an empty [this.deployments], it has
    written neither a report nor the address map: the file
    [latest-addresses.json], every report path and every other file but
    the ABI are as they were before the run. *)
Theorem empty_run_writes_no_report (file : option (result Config))
    (st st' : TokenDeployer W) (o : outcome unit) :
  deploy file st = (o, st') ->
  deployments st' = [] ->
  files st' !! addressPath = files st !! addressPath
  /\ (forall network timestamp,
         files st' !! reportPath network timestamp
         = files st !! reportPath network timestamp)
  /\ (forall p, p <> abiPath -> files st' !! p = files st !! p).
Proof.
  intros E Hnil. apply deploy_quiet in E as (_ & Hq & _). specialize (Hq Hnil).
  split; [apply Hq, addressPath_not_abi |].
  split; [intros; apply Hq, reportPath_not_abi | exact Hq].
Qed.

End DeployProperties.

Lemma disk_has_no_report network timestamp :
  Mock.disk !! reportPath network timestamp = None.
Proof.
  unfold Mock.disk.
  rewrite lookup_insert_ne
    by (intros Heq; vm_compute in Heq; discriminate Heq).
  rewrite lookup_singleton_ne
    by (intros Heq; vm_compute in Heq; discriminate Heq).
  reflexivity.
Qed.



Lemma empty_run_writes_no_report_witness :
  let run := deploy (Mock.config (Some true)) (Mock.deployer Mock.all_fail) in
  fst run = Ret tt
  /\ files (snd run) !! addressPath = Some "{}"
  /\ forall network timestamp, files (snd run) !! reportPath network timestamp = None.
Proof.
  intros run.
  destruct (empty_run_writes_no_report (Mock.config (Some true))
              (Mock.deployer Mock.all_fail) (snd run) (fst run))
    as (Ha & Hr & _).
  - apply surjective_pairing.
  - vm_compute. reflexivity.
  - split; [vm_compute; reflexivity |].
    split; [rewrite Ha; vm_compute; reflexivity |].
    intros network timestamp. rewrite Hr. simpl. apply disk_has_no_report.
Defined.

(** ** Decimal strings of integers *)

Lemma chars_str (l : list ascii) : chars (str l) = l.
Proof. apply list_ascii_of_string_of_list_ascii. Qed.

Lemma str_chars (s : string) : str (chars s) = s.
Proof. apply string_of_list_ascii_of_string. Qed.

Lemma digit_char_spec (k : Z) :
  0 <= k < 10 ->
  is_digit (digit_char k) = true /\ digit_val (digit_char k) = k
  /\ (Ascii.eqb (digit_char k) "0" = true -> k = 0).
Proof.
  intros Hk.
  assert (Hc : k = 0 \/ k = 1 \/ k = 2 \/ k = 3 \/ k = 4 \/ k = 5 \/ k = 6
               \/ k = 7 \/ k = 8 \/ k = 9) by lia.
  repeat destruct Hc as [-> | Hc]; try subst k;
    (split; [reflexivity | split; [reflexivity | vm_compute; congruence]]).
Qed.

(** The digits [n.toString()] prints: all decimal digits, at least one, no
    leading zero unless the number is zero, and they read back as [n]. *)
Lemma Z_digits_fuel_spec (fuel : nat) (n : Z) (acc : list ascii) :
  0 <= n < 2 ^ Z.of_nat fuel -> (0 < fuel)%nat ->
  exists ds,
    Z_digits_fuel fuel n acc = ds ++ acc
    /\ forallb is_digit ds = true
    /\ ds <> []
    /\ (forall a, digits_val a ds = a * 10 ^ Z.of_nat (length ds) + n)
    /\ (forall d ds', ds = d :: ds' -> Ascii.eqb d "0" = true -> ds' = [] /\ n = 0).
Proof.
  revert n acc. induction fuel as [| fuel IH]; intros n acc Hn Hf; [lia |].
  cbn [Z_digits_fuel].
  assert (Hm : 0 <= n mod 10 < 10) by (apply Z.mod_pos_bound; lia).
  destruct (digit_char_spec _ Hm) as (Hdig & Hval & Hzero).
  destruct (n <? 10) eqn:Hlt.
  - apply Z.ltb_lt in Hlt. rewrite Z.mod_small in * by lia.
    exists [digit_char n].
    split; [reflexivity |].
    split; [simpl; rewrite Hdig; reflexivity |].
    split; [discriminate |].
    split; [intros a; simpl; rewrite Hval; lia |].
    intros d ds' Heq Hz. inversion Heq; subst. auto.
  - apply Z.ltb_ge in Hlt.
    assert (Hfuel : (0 < fuel)%nat).
    { destruct fuel; [| lia]. simpl in Hn. lia. }
    assert (Hdiv : 0 <= n / 10 < 2 ^ Z.of_nat fuel).
    { split; [apply Z.div_pos; lia |].
      rewrite Nat2Z.inj_succ, Z.pow_succ_r in Hn by lia.
      apply Z.div_lt_upper_bound; lia. }
    destruct (IH (n / 10) (digit_char (n mod 10) :: acc) Hdiv Hfuel)
      as (ds & Hds & Hall & Hne & Hv & Hlead).
    exists (ds ++ [digit_char (n mod 10)]).
    split; [rewrite Hds, <- app_assoc; reflexivity |].
    split; [rewrite forallb_app, Hall; simpl; rewrite Hdig; reflexivity |].
    split; [destruct ds; discriminate |].
    split.
    + intros a. rewrite digits_val_app, Hv. simpl. rewrite Hval.
      rewrite length_app, Nat2Z.inj_add. simpl length.
      rewrite Z.pow_add_r by lia. change (10 ^ Z.of_nat 1) with 10.
      pose proof (Z.div_mod n 10). lia.
    + intros d ds' Heq Hz.
      destruct ds as [| d0 ds0]; [congruence |].
      simpl in Heq. inversion Heq; subst.
      destruct (Hlead _ _ eq_refl Hz) as (_ & Hzero0).
      exfalso. assert (n < 10) by (apply Z.div_small_iff in Hzero0; lia). lia.
Qed.

Lemma Z_digits_spec (n : Z) :
  0 <= n ->
  forallb is_digit (Z_digits n) = true
  /\ Z_digits n <> []
  /\ digits_val 0 (Z_digits n) = n
  /\ (forall d ds', Z_digits n = d :: ds' -> Ascii.eqb d "0" = true -> ds' = []).
Proof.
  intros Hn. unfold Z_digits.
  destruct (Z_digits_fuel_spec (Datatypes.S (Z.to_nat (Z.log2 n))) n [])
    as (ds & Hds & Hall & Hne & Hv & Hlead).
  - split; [lia |].
    rewrite Nat2Z.inj_succ, Z2Nat.id by apply Z.log2_nonneg.
    destruct (Z.eq_dec n 0) as [-> | Hnz]; [reflexivity |].
    apply Z.log2_spec. lia.
  - lia.
  - rewrite app_nil_r in Hds. rewrite Hds.
    split; [exact Hall |]. split; [exact Hne |].
    split; [rewrite Hv; lia |].
    intros d ds' Heq Hz. eapply Hlead; eauto.
Qed.


(** ** JSON text round trip *)

Lemma parse_string_escape (c : ascii) (tl : list ascii) :
  parse_string (escape_char c ++ tl)
  = match parse_string tl with
    | Some (s, r) => Some (c :: s, r)
    | None => None
    end.
Proof.
  destruct c as [[] [] [] [] [] [] [] []];
    match goal with
    | |- context [escape_char ?c] =>
        let e := eval vm_compute in (escape_char c) in
        change (escape_char c) with e
    end;
    cbn [app]; reflexivity.
Qed.

Lemma parse_string_quoted (l rest : list ascii) :
  parse_string (flat_map escape_char l ++ dquote :: rest) = Some (l, rest).
Proof.
  induction l as [| c l IH]; [reflexivity |].
  cbn [flat_map]. rewrite <- app_assoc, parse_string_escape, IH. reflexivity.
Qed.

Lemma skip_ws_spaces (k : nat) (l : list ascii) :
  skip_ws (repeat space k ++ l) = skip_ws l.
Proof. induction k as [| k IH]; [reflexivity | exact IH]. Qed.

Lemma skip_ws_indent (k : nat) (l : list ascii) :
  skip_ws (indent k ++ l) = skip_ws l.
Proof. unfold indent. cbn [app]. cbn [skip_ws]. apply skip_ws_spaces. Qed.

Lemma parse_value_skip (fuel : nat) (l l' : list ascii) :
  skip_ws l = skip_ws l' -> parse_value fuel l = parse_value fuel l'.
Proof. destruct fuel; [reflexivity |]. cbn [parse_value]. intros ->. reflexivity. Qed.

Lemma parse_members_skip (fuel : nat) (l l' : list ascii) :
  skip_ws l = skip_ws l' -> parse_members fuel l = parse_members fuel l'.
Proof. destruct fuel; [reflexivity |]. cbn [parse_members]. intros ->. reflexivity. Qed.

Lemma parse_elems_skip (fuel : nat) (l l' : list ascii) :
  skip_ws l = skip_ws l' -> parse_elems fuel l = parse_elems fuel l'.
Proof.
  destruct fuel; [reflexivity |]. cbn [parse_elems]. intros Hs.
  rewrite (parse_value_skip fuel l l' Hs). reflexivity.
Qed.

Lemma span_digits_app (ds rest : list ascii) :
  forallb is_digit ds = true -> num_end rest = true ->
  span_digits (ds ++ rest) = (ds, rest).
Proof.
  intros Hds Hrest. induction ds as [| d ds IH].
  - destruct rest as [| c rest]; [reflexivity |].
    cbn in *. destruct (is_digit c); [discriminate | reflexivity].
  - cbn in *. apply andb_prop in Hds as [Hd Hds]. rewrite Hd, (IH Hds). reflexivity.
Qed.

Lemma parse_digits_Z (n : Z) (rest : list ascii) :
  0 <= n -> num_end rest = true ->
  parse_digits (Z_digits n ++ rest) = Some (n, rest).
Proof.
  intros Hn Hrest. unfold parse_digits.
  destruct (Z_digits_spec n Hn) as (Hall & Hne & Hv & Hlead).
  rewrite (span_digits_app _ _ Hall Hrest).
  destruct (Z_digits n) as [| d ds] eqn:Hd; [congruence |].
  destruct (Ascii.eqb d "0") eqn:Hz.
  - assert (ds = []) by (eapply Hlead; eauto). subst ds.
    cbn [length Nat.eqb negb andb]. rewrite Hrest, Hv. reflexivity.
  - cbn [andb]. rewrite Hrest, Hv. reflexivity.
Qed.

Lemma digit_not_minus (d : ascii) : is_digit d = true -> Ascii.eqb d "-" = false.
Proof.
  intros Hd. destruct (Ascii.eqb d "-") eqn:E; [| reflexivity].
  apply Ascii.eqb_eq in E. subst d. discriminate Hd.
Qed.

Lemma parse_number_Z (n : Z) (rest : list ascii) :
  num_end rest = true ->
  parse_number (chars (Z_toString n) ++ rest) = Some (n, rest).
Proof.
  intros Hrest. unfold Z_toString. destruct (n <? 0) eqn:Hneg.
  - apply Z.ltb_lt in Hneg.
    change (chars (String "-" (str (Z_digits (- n)))))
      with ("-"%char :: chars (str (Z_digits (- n)))).
    rewrite chars_str. cbn [app parse_number]. change (Ascii.eqb "-" "-") with true.
    cbn match. rewrite parse_digits_Z by (auto; lia). cbn. f_equal. f_equal. lia.
  - apply Z.ltb_ge in Hneg. rewrite chars_str.
    destruct (Z_digits_spec n Hneg) as (Hall & Hne & _).
    pose proof (parse_digits_Z n rest Hneg Hrest) as Hp.
    destruct (Z_digits n) as [| d ds]; [congruence |].
    cbn [app parse_number]. cbn in Hall. apply andb_prop in Hall as [Hd _].
    rewrite (digit_not_minus d Hd). exact Hp.
Qed.

(** Decides the character tests of the parser on known characters. *)
Ltac eval_tests :=
  repeat match goal with
  | |- context [is_ws ?c] =>
      let b := eval vm_compute in (is_ws c) in
      change (is_ws c) with b; cbn match
  | |- context [Ascii.eqb ?a ?b] =>
      let v := eval vm_compute in (Ascii.eqb a b) in
      change (Ascii.eqb a b) with v; cbn match
  end.

Lemma digit_head_facts (c : ascii) :
  is_digit c = true \/ c = "-"%char ->
  is_ws c = false
  /\ Ascii.eqb c "]" = false /\ Ascii.eqb c "}" = false
  /\ forall fuel r,
       parse_value (Datatypes.S fuel) (c :: r)
       = match parse_number (c :: r) with
         | Some (n, r') => Some (JNum n, r')
         | None => None
         end.
Proof.
  intros [Hd | ->].
  - destruct c as [[] [] [] [] [] [] [] []]; try discriminate Hd;
      (split; [reflexivity |]; split; [reflexivity |]; split; [reflexivity |]);
      intros fuel r; cbn [parse_value skip_ws]; eval_tests;
      destruct (parse_number _) as [[n r'] |]; reflexivity.
  - split; [reflexivity |]. split; [reflexivity |]. split; [reflexivity |].
    intros fuel r. cbn [parse_value skip_ws]. eval_tests.
    destruct (parse_number _) as [[n r'] |]; reflexivity.
Qed.

Lemma Z_toString_head (n : Z) (tl : list ascii) :
  exists c r, chars (Z_toString n) ++ tl = c :: r
              /\ (is_digit c = true \/ c = "-"%char).
Proof.
  unfold Z_toString. destruct (n <? 0) eqn:Hneg.
  - eexists _, _. split; [reflexivity | right; reflexivity].
  - apply Z.ltb_ge in Hneg. rewrite chars_str.
    destruct (Z_digits_spec n Hneg) as (Hall & Hne & _).
    destruct (Z_digits n) as [| d ds]; [congruence |].
    cbn in Hall. apply andb_prop in Hall as [Hd _].
    exists d, (ds ++ tl). split; [reflexivity | left; exact Hd].
Qed.

(** The text of a value starts with a character that is neither white
    space nor a closing bracket. *)
Lemma stringify_head (v : json) (ind : nat) (tl : list ascii) :
  exists c r, stringify_value ind v ++ tl = c :: r
              /\ is_ws c = false
              /\ Ascii.eqb c "]" = false /\ Ascii.eqb c "}" = false.
Proof.
  destruct v as [| [] | n | s | [| x xs] | [| p ps]];
    try (eexists _, _; split; [reflexivity | repeat split; reflexivity]).
  destruct (Z_toString_head n tl) as (c & r & Heq & Hc).
  exists c, r. cbn [stringify_value]. split; [exact Heq |].
  destruct (digit_head_facts c Hc) as (? & ? & ? & _). auto.
Qed.

Lemma skip_ws_stringify (v : json) (ind : nat) (tl : list ascii) :
  skip_ws (stringify_value ind v ++ tl) = stringify_value ind v ++ tl.
Proof.
  destruct (stringify_head v ind tl) as (c & r & -> & Hws & _).
  cbn [skip_ws]. rewrite Hws. reflexivity.
Qed.

Lemma num_end_join (sep : list ascii) {A : Type} (f : A -> list ascii)
    (xs : list A) (k : nat) (tl : list ascii) :
  (exists tl', sep = ","%char :: tl') ->
  num_end (join_items sep f xs ++ indent k ++ tl) = true.
Proof.
  intros (tl' & ->). destruct xs as [| y ys]; reflexivity.
Qed.

Lemma parse_elems_items (xs : list json) :
  Forall roundtrips xs -> Forall wf_json xs ->
  forall x, roundtrips x -> wf_json x ->
  forall ind rest fuel,
    (Datatypes.S (json_size x + items_size xs) <= fuel)%nat ->
    parse_elems fuel
      (indent (ind + 2) ++ stringify_value (ind + 2) x
       ++ join_items (","%char :: indent (ind + 2)) (stringify_value (ind + 2)) xs
       ++ indent ind ++ "]"%char :: rest)
    = Some (x :: xs, rest).
Proof.
  induction xs as [| y ys IH]; intros Hrt Hwf x Hx Hwx ind rest fuel Hfuel.
  - destruct fuel as [| fuel]; [lia |]. cbn [parse_elems].
    rewrite (parse_value_skip fuel _ _ (skip_ws_indent _ _)).
    rewrite (Hx Hwx) by (first [cbn in Hfuel; lia | reflexivity]).
    cbn [join_items app mbind option_bind]. rewrite skip_ws_indent.
    reflexivity.
  - destruct fuel as [| fuel]; [lia |]. cbn [parse_elems].
    rewrite (parse_value_skip fuel _ _ (skip_ws_indent _ _)).
    inversion Hrt as [| ? ? Hy Hys]; subst. inversion Hwf as [| ? ? Hwy Hwys]; subst.
    assert (Hsz : items_size (y :: ys) = Datatypes.S (json_size y + items_size ys))
      by reflexivity.
    rewrite (Hx Hwx) by (first [lia | reflexivity]).
    cbn [join_items]. rewrite <- !app_assoc. cbn [app mbind option_bind skip_ws].
    eval_tests.
    rewrite (IH Hys Hwys y Hy Hwy) by lia.
    reflexivity.
Qed.

Lemma parse_members_items (ps : list (string * json)) :
  Forall (fun p => roundtrips (snd p)) ps ->
  Forall (fun p => wf_json (snd p)) ps ->
  forall p, roundtrips (snd p) -> wf_json (snd p) ->
  forall ind rest fuel,
    (Datatypes.S (json_size (snd p) + members_size ps) <= fuel)%nat ->
    parse_members fuel
      (indent (ind + 2) ++ quote (fst p) ++ chars ": "
       ++ stringify_value (ind + 2) (snd p)
       ++ join_items (","%char :: indent (ind + 2))
            (fun q => quote (fst q) ++ chars ": " ++ stringify_value (ind + 2) (snd q)) ps
       ++ indent ind ++ "}"%char :: rest)
    = Some (p :: ps, rest).
Proof.
  assert (Hkey : forall fuel (p : string * json) tl,
    parse_members (Datatypes.S fuel) (quote (fst p) ++ chars ": " ++ tl)
    = match parse_value fuel tl with
      | Some (v, r3) =>
          match skip_ws r3 with
          | c :: r' =>
              if Ascii.eqb c "," then
                match parse_members fuel r' with
                | Some (qs, r'') => Some ((fst p, v) :: qs, r'')
                | None => None
                end
              else if Ascii.eqb c "}" then Some ([(fst p, v)], r')
              else None
          | [] => None
          end
      | None => None
      end).
  { intros fuel p tl. cbn [parse_members]. unfold quote.
    cbn [app skip_ws]. eval_tests.
    rewrite <- app_assoc. cbn [app]. rewrite parse_string_quoted.
    cbn [mbind option_bind]. cbn [chars list_ascii_of_string app skip_ws].
    eval_tests.
    rewrite (parse_value_skip fuel (" "%char :: tl) tl) by reflexivity.
    rewrite str_chars.
    destruct (parse_value fuel tl) as [[v r3] |]; [| reflexivity].
    cbn [mbind option_bind].
    destruct (skip_ws r3) as [| c r']; [reflexivity |].
    destruct (Ascii.eqb c ","); [| reflexivity].
    destruct (parse_members fuel r') as [[qs r''] |]; reflexivity. }
  induction ps as [| q qs IH]; intros Hrt Hwf p Hp Hwp ind rest fuel Hfuel.
  - destruct fuel as [| fuel]; [lia |].
    rewrite (parse_members_skip _ _ _ (skip_ws_indent _ _)).
    rewrite Hkey.
    rewrite (Hp Hwp) by (first [cbn in Hfuel; lia | reflexivity]).
    cbn [join_items app]. rewrite skip_ws_indent.
    destruct p; reflexivity.
  - destruct fuel as [| fuel]; [lia |].
    rewrite (parse_members_skip _ _ _ (skip_ws_indent _ _)).
    rewrite Hkey.
    inversion Hrt as [| ? ? Hq Hqs]; subst. inversion Hwf as [| ? ? Hwq Hwqs]; subst.
    assert (Hsz : members_size (q :: qs)
                  = Datatypes.S (json_size (snd q) + members_size qs))
      by reflexivity.
    rewrite (Hp Hwp) by (first [lia | reflexivity]).
    cbn [join_items]. rewrite <- !app_assoc. cbn [app skip_ws].
    eval_tests.
    rewrite (IH Hqs Hwqs q Hq Hwq) by lia.
    destruct p; reflexivity.
Qed.

Lemma obj_set_fresh {A : Type} (o : list (string * A)) (k : string) (v : A) :
  ~ In k (map fst o) -> obj_set o k v = o ++ [(k, v)].
Proof.
  induction o as [| [k' v'] o IH]; intros Hk; [reflexivity |].
  cbn [obj_set]. destruct (String.eqb k' k) eqn:E.
  - apply String.eqb_eq in E. subst k'. exfalso. apply Hk. left. reflexivity.
  - cbn [app]. rewrite IH; [reflexivity |]. intros Hin. apply Hk. right. exact Hin.
Qed.

Lemma obj_of_pairs_nodup {A : Type} (ps : list (string * A)) :
  NoDup (map fst ps) -> obj_of_pairs ps = ps.
Proof.
  unfold obj_of_pairs.
  assert (G : forall acc : list (string * A),
             NoDup (map fst (acc ++ ps)) ->
             fold_left (fun o p => obj_set o (fst p) (snd p)) ps acc = acc ++ ps).
  { induction ps as [| [k v] ps IH]; intros acc Hnd.
    - rewrite app_nil_r. reflexivity.
    - cbn [fold_left fst snd].
      rewrite obj_set_fresh.
      + rewrite IH; rewrite <- app_assoc; [reflexivity | exact Hnd].
      + rewrite map_app in Hnd. cbn in Hnd.
        apply NoDup_ListNoDup in Hnd.
        apply List.NoDup_remove_2 in Hnd.
        intros Hin. apply Hnd. apply in_or_app. left. exact Hin. }
  intros Hnd. apply (G []). exact Hnd.
Qed.

Lemma stringify_roundtrips (v : json) : roundtrips v.
Proof.
  induction v using json_induction; intros Hwf ind rest fuel Hfuel Hrest;
    (destruct fuel as [| fuel]; [cbn in Hfuel; lia |]).
  - cbn [stringify_value chars list_ascii_of_string app parse_value skip_ws].
    eval_tests. reflexivity.
  - destruct b;
      cbn [stringify_value chars list_ascii_of_string app parse_value skip_ws];
      eval_tests; reflexivity.
  - cbn [stringify_value].
    destruct (Z_toString_head n rest) as (c & r & Heq & Hc).
    pose proof (parse_number_Z n rest Hrest) as Hp.
    rewrite Heq in *.
    destruct (digit_head_facts c Hc) as (_ & _ & _ & Hv).
    rewrite Hv, Hp. reflexivity.
  - cbn [stringify_value]. unfold quote.
    cbn [app parse_value skip_ws]. eval_tests.
    rewrite <- app_assoc. cbn [app]. rewrite parse_string_quoted.
    cbn [mbind option_bind]. rewrite str_chars. reflexivity.
  - inversion Hwf as [| | | | items Hitems |]; subst.
    destruct l as [| x xs].
    + cbn [stringify_value chars list_ascii_of_string app parse_value skip_ws].
      eval_tests. reflexivity.
    + inversion H as [| ? ? Hx Hxs]; subst.
      inversion Hitems as [| ? ? Hwx Hwxs]; subst.
      cbn [stringify_value]. cbn [app parse_value skip_ws]. eval_tests.
      rewrite <- !app_assoc. cbn [app].
      rewrite skip_ws_indent, skip_ws_stringify.
      destruct (stringify_head x (ind + 2)
                  (join_items (","%char :: indent (ind + 2))
                     (stringify_value (ind + 2)) xs ++ indent ind ++ "]"%char :: rest))
        as (c & r & Hhead & _ & Hclose & _).
      rewrite Hhead, Hclose, <- Hhead.
      rewrite (parse_elems_items xs Hxs Hwxs x Hx Hwx)
        by (change (json_size (JArr (x :: xs)))
              with (Datatypes.S (Datatypes.S (json_size x + items_size xs))) in Hfuel;
            lia).
      reflexivity.
  - inversion Hwf as [| | | | | fields Hnd Hfields]; subst.
    destruct l as [| p ps].
    + cbn [stringify_value chars list_ascii_of_string app parse_value skip_ws].
      eval_tests. reflexivity.
    + inversion H as [| ? ? Hp Hps]; subst.
      inversion Hfields as [| ? ? Hwp Hwps]; subst.
      cbn [stringify_value]. cbn [app parse_value skip_ws]. eval_tests.
      rewrite <- !app_assoc. cbn [app].
      rewrite skip_ws_indent. unfold quote at 1. cbn [app skip_ws]. eval_tests.
      fold (quote (fst p)).
      change (dquote :: (flat_map escape_char (chars (fst p)) ++ [dquote])
              ++ chars ": " ++ ?tl) with (quote (fst p) ++ chars ": " ++ tl).
      rewrite (parse_members_items ps Hps Hwps p Hp Hwp)
        by (change (json_size (JObj (p :: ps)))
              with (Datatypes.S (Datatypes.S (json_size (snd p) + members_size ps)))
              in Hfuel;
            lia).
      cbn [mbind option_bind]. rewrite obj_of_pairs_nodup by exact Hnd.
      reflexivity.
Qed.

Lemma stringify_nonempty (v : json) (ind : nat) :
  (1 <= length (stringify_value ind v))%nat.
Proof.
  destruct (stringify_head v ind []) as (c & r & Heq & _).
  rewrite app_nil_r in Heq. rewrite Heq. cbn. lia.
Qed.

Lemma json_size_le_length (v : json) :
  forall ind, (json_size v <= length (stringify_value ind v))%nat.
Proof.
  induction v using json_induction; intros ind.
  - cbn [json_size]. apply (stringify_nonempty JNull).
  - cbn [json_size]. apply (stringify_nonempty (JBool b)).
  - cbn [json_size]. apply (stringify_nonempty (JNum n)).
  - cbn [json_size]. apply (stringify_nonempty (JStr s)).
  - destruct l as [| x xs]; [cbn; lia |].
    inversion H as [| ? ? Hx Hxs]; subst.
    change (json_size (JArr (x :: xs)))
      with (Datatypes.S (Datatypes.S (json_size x + items_size xs))).
    cbn [stringify_value]. cbn [length]. rewrite !length_app. cbn [length].
    specialize (Hx (ind + 2)%nat).
    assert (Hjoin : (items_size xs
                     <= length (join_items (","%char :: indent (ind + 2))
                                  (stringify_value (ind + 2)) xs))%nat).
    { clear Hx H. induction xs as [| y ys IHys]; [cbn; lia |].
      inversion Hxs as [| ? ? Hy Hys]; subst.
      change (items_size (y :: ys))
        with (Datatypes.S (json_size y + items_size ys)).
      cbn [join_items]. cbn [app length]. rewrite !length_app.
      specialize (Hy (ind + 2)%nat). specialize (IHys Hys). lia. }
    lia.
  - destruct l as [| p ps]; [cbn; lia |].
    inversion H as [| ? ? Hp Hps]; subst.
    change (json_size (JObj (p :: ps)))
      with (Datatypes.S (Datatypes.S (json_size (snd p) + members_size ps))).
    cbn [stringify_value]. cbn [length]. rewrite !length_app. cbn [length].
    specialize (Hp (ind + 2)%nat).
    assert (Hjoin : (members_size ps
                     <= length (join_items (","%char :: indent (ind + 2))
                                  (fun q => quote (fst q) ++ chars ": "
                                            ++ stringify_value (ind + 2) (snd q)) ps))%nat).
    { clear Hp H. induction ps as [| q qs IHqs]; [cbn; lia |].
      inversion Hps as [| ? ? Hq Hqs]; subst.
      change (members_size (q :: qs))
        with (Datatypes.S (json_size (snd q) + members_size qs)).
      cbn [join_items]. cbn [app length]. rewrite !length_app.
      specialize (Hq (ind + 2)%nat). specialize (IHqs Hqs). lia. }
    lia.
Qed.

(** [JSON.parse(JSON.stringify(v, null, 2))] is [v]. *)
Lemma JSON_parse_stringify (v : json) :
  wf_json v -> JSON_parse (JSON_stringify v) = Some v.
Proof.
  intros Hwf. unfold JSON_parse, JSON_stringify. rewrite chars_str.
  pose proof (stringify_roundtrips v Hwf 0%nat []
                (Datatypes.S (length (stringify_value 0 v)))) as Hp.
  rewrite app_nil_r in Hp. rewrite Hp.
  - reflexivity.
  - pose proof (json_size_le_length v 0%nat). lia.
  - reflexivity.
Qed.

(** ** The report file *)

Lemma json_to_record_of_json (d : DeploymentRecord) :
  json_to_record (record_to_json d) = Some d.
Proof. destruct d. reflexivity. Qed.

Lemma json_to_report_of_json (r : DeploymentReport) :
  json_to_report (report_to_json r) = Some r.
Proof.
  destruct r as [ts nw dp ds]. unfold json_to_report, report_to_json.
  cbn [r_timestamp r_network r_deployer r_deployments].
  assert (Hds : mapM json_to_record (map record_to_json ds) = Some ds).
  { induction ds as [| d ds IH]; [reflexivity |].
    cbn [map mapM]. rewrite json_to_record_of_json. cbn. rewrite IH. reflexivity. }
  cbn. rewrite Hds. reflexivity.
Qed.

Lemma wf_record_json (d : DeploymentRecord) : wf_json (record_to_json d).
Proof.
  unfold record_to_json. constructor.
  - apply (bool_decide_unpack _). vm_compute. exact I.
  - repeat (apply List.Forall_cons; [constructor |]). apply List.Forall_nil.
Qed.

Lemma wf_report_json (r : DeploymentReport) : wf_json (report_to_json r).
Proof.
  unfold report_to_json. constructor.
  - apply (bool_decide_unpack _). vm_compute. exact I.
  - repeat (apply List.Forall_cons; [try (constructor; fail) |]);
      [| apply List.Forall_nil].
    cbn [snd]. constructor.
    induction (r_deployments r) as [| d ds IH]; [apply List.Forall_nil |].
    cbn [map]. apply List.Forall_cons; [apply wf_record_json | exact IH].
Qed.

Lemma option_bind_Some {A B : Type} (f : A -> option B) (x : A) :
  Some x ≫= f = f x.
Proof. reflexivity. Qed.

Lemma readReport_written (fs : gmap string string) (path : string)
    (report : DeploymentReport) :
  fs !! path = Some (JSON_stringify (report_to_json report)) ->
  readReport fs path = Some report.
Proof.
  intros Hfile. unfold readReport. rewrite Hfile, option_bind_Some.
  rewrite (JSON_parse_stringify _ (wf_report_json report)), option_bind_Some.
  apply json_to_report_of_json.
Qed.

Section ReportProperties.
Context {W : Type} `{ChainClient W} `{ContractBuilder}.



End ReportProperties.


(** ** The address map *)










Section AddressMapProperties.
Context {W : Type} `{ChainClient W} `{ContractBuilder}.


End AddressMapProperties.


(** ** The token CLI: [grant-role] *)

Section InteractorProperties.
Context {W : Type} `{ChainClient W}.




End InteractorProperties.


Example cli_reads_what_the_deployer_wrote :
  let deployed := snd (deploy (Mock.config (Some true)) (Mock.deployer Mock.quiet_chain)) in
  let cli := {| i_world := Mock.quiet_chain; i_wallet := wallet_address deployed;
                i_tokens := []; i_files := files deployed; i_calls := [] |} in
  map d_symbol (deployments deployed) = ["ALF"; "BET"; "GAM"]
  /\ i_tokens (snd (loadTokenAddresses cli)) = addressMap (deployments deployed)
  /\ i_calls (snd (main_grant_role ["ALF"; "pauser"; Mock.bob] cli))
     = [CallRole "0xC0" PAUSER_ROLE;
        CallGrantRole "0xC0" (Mock.role_id PAUSER_ROLE) Mock.bob;
        CallWait "0xT0"].
Proof. vm_compute. auto. Qed.


(** ** The verification agent *)

Section VerifierFacts.
Context {H : Type} `{Explorer H} `{AbiCoder}.

Lemma polls_polled guid (st : ContractVerifier H) :
  polls (polled guid st) = Datatypes.S (polls st).
Proof.
  unfold polls, polled. cbn [v_requests].
  rewrite List.filter_app, length_app. cbn. lia.
Qed.

(** One iteration of the loop: a sleep and a request, whose outcome either
    ends the loop or falls through. *)
Lemma iteration_run guid (st : ContractVerifier H) :
  (sleep 3000;; poll_once guid) st
  = (Ret (match fst (axios_get (v_apiUrl st) (v_apiKey st) guid (v_http st)) with
          | Ok d => if is_pending d then None else Some (verdict_of d)
          | Err _ => None
          end),
     polled guid st).
Proof.
  rewrite bind_unfold. unfold sleep, modify, poll_once, try_catch.
  rewrite bind_unfold. unfold gets at 1. cbv beta iota.
  rewrite bind_unfold. unfold gets at 1. cbv beta iota.
  rewrite bind_unfold. unfold http, polled. cbn [v_http v_apiUrl v_apiKey v_network
    v_files v_requests v_slept].
  destruct (axios_get _ _ guid (v_http st)) as [[d | msg] h']; cbn [fst snd].
  - unfold is_pending, verdict_of.
    destruct (String.eqb (data_status d) "1"); [reflexivity |].
    destruct (String.eqb (data_result d) "Pending in queue"); reflexivity.
  - reflexivity.
Qed.

Lemma check_unfold guid attempts (st : ContractVerifier H) :
  checkVerificationStatus guid (Datatypes.S attempts) st
  = match fst (axios_get (v_apiUrl st) (v_apiKey st) guid (v_http st)) with
    | Ok d =>
        if is_pending d then checkVerificationStatus guid attempts (polled guid st)
        else (Ret (verdict_of d), polled guid st)
    | Err _ => checkVerificationStatus guid attempts (polled guid st)
    end.
Proof.
  cbn [checkVerificationStatus].
  change (sleep 3000;; verdict ← poll_once guid;
          match verdict with
          | Some status => ret status
          | None => checkVerificationStatus guid attempts
          end)
    with ((sleep 3000 ≫= fun _ => poll_once guid ≫= fun verdict =>
          match verdict with
          | Some status => ret status
          | None => checkVerificationStatus guid attempts
          end)).
  pose proof (iteration_run guid st) as Hit.
  rewrite bind_unfold in Hit. rewrite bind_unfold.
  destruct (sleep 3000 st) as [[[] | msg | code] st0]; try discriminate Hit.
  rewrite bind_unfold, Hit.
  destruct (fst (axios_get _ _ guid (v_http st))) as [d | msg];
    [destruct (is_pending d) |]; reflexivity.
Qed.

(** The loop refines [decide_poll]: it returns the status that the
    outcomes of its [attempts] next requests decide, after the number of
    requests [decide_poll] counts. *)
Lemma check_refines guid attempts (st : ContractVerifier H) :
  exists st',
    checkVerificationStatus guid attempts st
    = (Ret (fst (decide_poll (next_outcomes guid st attempts))), st')
    /\ polls st' = (polls st + snd (decide_poll (next_outcomes guid st attempts)))%nat.
Proof.
  revert st. induction attempts as [| n IH]; intros st.
  - exists st. split; [reflexivity |]. cbn. lia.
  - rewrite check_unfold. unfold next_outcomes. cbn [outcomes].
    destruct (IH (polled guid st)) as (st' & Hrun & Hpolls).
    unfold next_outcomes in *. cbn [polled v_apiUrl v_apiKey v_http] in Hrun, Hpolls.
    rewrite polls_polled in Hpolls.
    destruct (axios_get (v_apiUrl st) (v_apiKey st) guid (v_http st))
      as [[d | msg] h'] eqn:Eget; cbn [fst snd decide_poll] in *.
    + destruct (is_pending d).
      * exists st'. rewrite Hrun.
        destruct (decide_poll _) as [s k]. cbn [fst snd] in *.
        split; [reflexivity | lia].
      * exists (polled guid st). split; [reflexivity |].
        rewrite polls_polled. cbn. lia.
    + exists st'. rewrite Hrun.
      destruct (decide_poll _) as [s k]. cbn [fst snd] in *.
      split; [reflexivity | lia].
Qed.

End VerifierFacts.

Lemma decide_poll_app_final (pre : list (result HttpData)) (d : HttpData)
    (post : list (result HttpData)) :
  Forall (fun o => continues o = true) pre -> is_pending d = false ->
  decide_poll (pre ++ Ok d :: post) = (verdict_of d, Datatypes.S (length pre)).
Proof.
  intros Hpre Hd. induction pre as [| o pre IH].
  - cbn. rewrite Hd. reflexivity.
  - inversion Hpre as [| ? ? Ho Hpre']; subst.
    cbn [app decide_poll length]. rewrite (IH Hpre').
    destruct o as [p | msg]; [cbn in Ho; rewrite Ho |]; reflexivity.
Qed.

Lemma decide_poll_all_continue (os : list (result HttpData)) :
  Forall (fun o => continues o = true) os ->
  decide_poll os = (timed_out, length os).
Proof.
  intros Hos. induction os as [| o os IH]; [reflexivity |].
  inversion Hos as [| ? ? Ho Hos']; subst.
  cbn [decide_poll length]. rewrite (IH Hos').
  destruct o as [p | msg]; [cbn in Ho; rewrite Ho |]; reflexivity.
Qed.

(** What [decide_poll] can answer: the verdict of the first final answer,
    or a timeout when every outcome continues. *)
Lemma decide_poll_cases (os : list (result HttpData)) :
  (exists pre d post,
      os = pre ++ Ok d :: post
      /\ Forall (fun o => continues o = true) pre
      /\ is_pending d = false
      /\ decide_poll os = (verdict_of d, Datatypes.S (length pre)))
  \/ (Forall (fun o => continues o = true) os
      /\ decide_poll os = (timed_out, length os)).
Proof.
  induction os as [| o os IH].
  - right. split; [constructor | reflexivity].
  - destruct (continues o) eqn:Ho.
    + destruct IH as [(pre & d & post & -> & Hpre & Hd & Hdec) | (Hall & Hdec)].
      * left. exists (o :: pre), d, post.
        split; [reflexivity |]. split; [constructor; assumption |].
        split; [exact Hd |].
        apply (decide_poll_app_final (o :: pre)); [constructor; assumption | exact Hd].
      * right. split; [constructor; assumption |].
        apply decide_poll_all_continue. constructor; assumption.
    + destruct o as [d | msg]; [| discriminate Ho]. cbn in Ho.
      left. exists [], d, os. split; [reflexivity |]. split; [constructor |].
      split; [exact Ho |]. cbn. rewrite Ho. reflexivity.
Qed.

Section VerifierProperties.
Context {H : Type} `{Explorer H} `{AbiCoder}.

Lemma outcomes_length url key guid (h : H) n :
  length (outcomes url key guid h n) = n.
Proof.
  revert h. induction n as [| n IH]; intros h; [reflexivity |].
  cbn [outcomes]. destruct (axios_get url key guid h) as [o h'].
  cbn [length]. rewrite IH. reflexivity.
Qed.

Lemma outcomes_more url key guid (h : H) n m :
  exists rest, outcomes url key guid h (n + m) = outcomes url key guid h n ++ rest.
Proof.
  revert h. induction n as [| n IH]; intros h.
  - eexists. reflexivity.
  - cbn [outcomes Nat.add]. destruct (axios_get url key guid h) as [o h'].
    destruct (IH h') as (rest & ->). exists rest. reflexivity.
Qed.

(** [verifyContract] reports what the polling loop decides, once the
    submission is accepted. *)
Lemma verifyContract_polls deployment (st st1 st2 : ContractVerifier H) guid status :
  submitted deployment st guid st1 ->
  checkVerificationStatus guid default_attempts st1 = (Ret status, st2) ->
  verifyContract deployment st = (Ret (success status), st2).
Proof.
  intros (src & args & response & Hsrc & Hargs & Hpost & Hstatus & Hguid) Hpoll.
  unfold verifyContract, try_catch.
  rewrite bind_unfold, Hsrc, bind_unfold, Hargs.
  rewrite bind_unfold. unfold gets at 1. cbv beta iota.
  rewrite bind_unfold. unfold gets at 1. cbv beta iota.
  cbv zeta in Hpost. rewrite bind_unfold, Hpost, Hstatus.
  cbn [String.eqb Ascii.eqb Bool.eqb]. rewrite Hguid, bind_unfold, Hpoll.
  reflexivity.
Qed.

(** C6: when the status endpoint answers pending twice and then success,
    the polling loop returns success after exactly three requests; when
    each of its thirty answers is pending, the loop returns the timeout
    failure after exactly thirty requests; and of the answers of the
    endpoint, a pending one makes the loop poll again while any other ends
    it at once with that answer's verdict.  [verifyContract] returns that
    verdict for a submission the explorer accepted. *)
Theorem polling_until_final_answer (guid : string) (st : ContractVerifier H) :
  (forall p1 p2 d,
      next_outcomes guid st 3 = [Ok p1; Ok p2; Ok d] ->
      is_pending p1 = true -> is_pending p2 = true -> data_status d = "1" ->
      exists st',
        checkVerificationStatus guid default_attempts st
        = (Ret {| success := true; message := "Verified" |}, st')
        /\ polls st' = (polls st + 3)%nat
        /\ forall deployment st0,
             submitted deployment st0 guid st ->
             verifyContract deployment st0 = (Ret true, st'))
  /\ (Forall (fun o => exists p, o = Ok p /\ is_pending p = true)
             (next_outcomes guid st default_attempts) ->
      exists st',
        checkVerificationStatus guid default_attempts st
        = (Ret {| success := false; message := "Verification timeout" |}, st')
        /\ polls st' = (polls st + 30)%nat
        /\ forall deployment st0,
             submitted deployment st0 guid st ->
             verifyContract deployment st0 = (Ret false, st'))
  /\ (forall attempts d,
        fst (axios_get (v_apiUrl st) (v_apiKey st) guid (v_http st)) = Ok d ->
        (is_pending d = true ->
         checkVerificationStatus guid (Datatypes.S attempts) st
         = checkVerificationStatus guid attempts (polled guid st))
        /\ (is_pending d = false ->
            checkVerificationStatus guid (Datatypes.S attempts) st
            = (Ret (verdict_of d), polled guid st)
            /\ polls (polled guid st) = (polls st + 1)%nat)).
Proof.
  split; [| split].
  - intros p1 p2 d Hos Hp1 Hp2 Hd.
    destruct (check_refines guid default_attempts st) as (st' & Hrun & Hpolls).
    destruct (outcomes_more (v_apiUrl st) (v_apiKey st) guid (v_http st) 3 27)
      as (rest & Hmore).
    change (3 + 27)%nat with default_attempts in Hmore.
    fold (next_outcomes guid st default_attempts) in Hmore.
    fold (next_outcomes guid st 3) in Hmore.
    assert (Hfinal : is_pending d = false)
      by (unfold is_pending; rewrite Hd; reflexivity).
    assert (Hdec : decide_poll (next_outcomes guid st default_attempts)
                   = (verdict_of d, 3%nat)).
    { rewrite Hmore, Hos.
      apply (decide_poll_app_final [Ok p1; Ok p2] d rest); [| exact Hfinal].
      repeat constructor; assumption. }
    rewrite Hdec in Hrun, Hpolls. cbn [fst snd] in Hrun, Hpolls.
    unfold verdict_of in Hrun. rewrite Hd in Hrun. cbn in Hrun.
    exists st'. split; [exact Hrun |]. split; [exact Hpolls |].
    intros deployment st0 Hsub.
    apply (verifyContract_polls deployment st0 st st' guid _ Hsub Hrun).
  - intros Hall.
    destruct (check_refines guid default_attempts st) as (st' & Hrun & Hpolls).
    assert (Hdec : decide_poll (next_outcomes guid st default_attempts)
                   = (timed_out, default_attempts)).
    { rewrite decide_poll_all_continue.
      - unfold next_outcomes. rewrite outcomes_length. reflexivity.
      - eapply Forall_impl; [exact Hall |].
        intros o (p & -> & Hp). exact Hp. }
    rewrite Hdec in Hrun, Hpolls. cbn [fst snd] in Hrun, Hpolls.
    exists st'. split; [exact Hrun |]. split; [exact Hpolls |].
    intros deployment st0 Hsub.
    apply (verifyContract_polls deployment st0 st st' guid _ Hsub Hrun).
  - intros attempts d Hget. rewrite check_unfold, Hget.
    split; intros Hd; rewrite Hd; [reflexivity |].
    split; [reflexivity |]. rewrite polls_polled. lia.
Qed.

(** C9: an exception of the status request does not end the polling: the
    request is counted, the loop goes on with one attempt less.  In every
    run the loop returns what [decide_poll] decides from the outcomes of
    its requests: the verdict of the first answer that is not pending, a
    success or a final failure, after as many requests as it took to get
    it, or the timeout after all the attempts, when every outcome was a
    pending answer or an exception. *)
Theorem polling_survives_exceptions (guid : string) (st : ContractVerifier H) :
  (forall attempts msg,
      fst (axios_get (v_apiUrl st) (v_apiKey st) guid (v_http st)) = Err msg ->
      checkVerificationStatus guid (Datatypes.S attempts) st
      = checkVerificationStatus guid attempts (polled guid st)
      /\ polls (polled guid st) = (polls st + 1)%nat)
  /\ (forall attempts,
        let os := next_outcomes guid st attempts in
        exists st',
          checkVerificationStatus guid attempts st = (Ret (fst (decide_poll os)), st')
          /\ polls st' = (polls st + snd (decide_poll os))%nat
          /\ ((exists pre d post,
                  os = pre ++ Ok d :: post
                  /\ Forall (fun o => continues o = true) pre
                  /\ is_pending d = false
                  /\ decide_poll os = (verdict_of d, Datatypes.S (length pre)))
              \/ (Forall (fun o => continues o = true) os
                  /\ decide_poll os = (timed_out, attempts)))).
Proof.
  split.
  - intros attempts msg Hget. rewrite check_unfold, Hget.
    split; [reflexivity |]. rewrite polls_polled. lia.
  - intros attempts os.
    destruct (check_refines guid attempts st) as (st' & Hrun & Hpolls).
    exists st'. split; [exact Hrun |]. split; [exact Hpolls |].
    destruct (decide_poll_cases os) as [Hfinal | (Hall & Hdec)]; [left; exact Hfinal |].
    right. split; [exact Hall |]. rewrite Hdec. subst os. unfold next_outcomes.
    rewrite outcomes_length. reflexivity.
Qed.

End VerifierProperties.

Lemma polling_until_final_answer_witness :
  let quick := Mock.verifier Mock.slow_success in
  let stuck := Mock.verifier Mock.never_done in
  (fst (checkVerificationStatus "guid-1" default_attempts quick)
   = Ret {| success := true; message := "Verified" |}
   /\ polls (snd (checkVerificationStatus "guid-1" default_attempts quick)) = 3%nat)
  /\ (fst (checkVerificationStatus "guid-1" default_attempts stuck)
      = Ret {| success := false; message := "Verification timeout" |}
      /\ polls (snd (checkVerificationStatus "guid-1" default_attempts stuck)) = 30%nat).
Proof.
  intros quick stuck. split.
  - destruct (proj1 (polling_until_final_answer "guid-1" quick)
                {| data_status := "0"; data_result := "Pending in queue" |}
                {| data_status := "0"; data_result := "Pending in queue" |}
                {| data_status := "1"; data_result := "Pass - Verified" |})
      as (st' & Hrun & Hpolls & _).
    + vm_compute. reflexivity.
    + reflexivity.
    + reflexivity.
    + reflexivity.
    + rewrite Hrun. split; [reflexivity | exact Hpolls].
  - destruct (proj1 (proj2 (polling_until_final_answer "guid-1" stuck)))
      as (st' & Hrun & Hpolls & _).
    + assert (Hos : next_outcomes "guid-1" stuck default_attempts
                    = repeat Mock.pending 30) by (vm_compute; reflexivity).
      rewrite Hos. apply List.Forall_forall. intros o Hin.
      apply repeat_spec in Hin. subst o. eexists. split; reflexivity.
    + rewrite Hrun. split; [reflexivity | exact Hpolls].
Defined.

Lemma polling_survives_exceptions_witness :
  let flaky := Mock.verifier Mock.flaky_refusal in
  let down := Mock.verifier Mock.always_down in
  (checkVerificationStatus "guid-1" 30 flaky
   = checkVerificationStatus "guid-1" 29 (polled "guid-1" flaky)
   /\ fst (checkVerificationStatus "guid-1" 30 flaky)
      = Ret {| success := false; message := "Fail - Unable to verify" |}
   /\ polls (snd (checkVerificationStatus "guid-1" 30 flaky)) = 4%nat)
  /\ (fst (checkVerificationStatus "guid-1" 30 down)
      = Ret {| success := false; message := "Verification timeout" |}
      /\ polls (snd (checkVerificationStatus "guid-1" 30 down)) = 30%nat).
Proof.
  intros flaky down. split.
  - destruct (proj1 (polling_survives_exceptions "guid-1" flaky)
                29%nat "connect ETIMEDOUT") as (Hstep & _);
      [vm_compute; reflexivity |].
    destruct (proj2 (polling_survives_exceptions "guid-1" flaky) 30%nat)
      as (st' & Hrun & Hpolls & _).
    split; [exact Hstep |]. rewrite Hrun.
    split; [reflexivity | exact Hpolls].
  - destruct (proj2 (polling_survives_exceptions "guid-1" down) 30%nat)
      as (st' & Hrun & Hpolls & _).
    rewrite Hrun. split; [reflexivity | exact Hpolls].
Defined.

Example verifyContract_after_two_pending :
  let run := verifyContract (Mock.record "ALF" "0xC0" 18)
                            (Mock.verifier Mock.slow_success) in
  fst run = Ret true /\ polls (snd run) = 3%nat /\ v_slept (snd run) = 9000.
Proof. vm_compute. auto. Qed.

(** ** The deployment run: validation, compilation, order *)

Section ValidationFacts.
Context {W : Type} `{ChainClient W} `{ContractBuilder}.

Lemma validate_holders_run (nm : string) (holders : list Holder) (st : TokenDeployer W) :
  exists o,
    for_of holders (fun holder =>
      if isAddress (holder_address holder) then ret tt
      else throw ("Invalid holder address for " +:+ nm +:+ ": "
                  +:+ holder_address holder)) st = (o, st)
    /\ match o with
       | Ret _ => forallb (fun holder => isAddress (holder_address holder)) holders = true
       | Throw _ => forallb (fun holder => isAddress (holder_address holder)) holders = false
       | Exit _ => False
       end.
Proof.
  induction holders as [| h hs IH]; cbn [for_of forallb].
  - eexists. split; [reflexivity | reflexivity].
  - rewrite bind_unfold. destruct (isAddress (holder_address h)); cbn [ret throw andb].
    + exact IH.
    + eexists. split; reflexivity.
Qed.

Lemma validateTokenConfig_run (token : TokenDefinition) (st : TokenDeployer W) :
  exists o,
    validateTokenConfig token st = (o, st)
    /\ match o with
       | Ret _ => valid_token token = true
       | Throw _ => valid_token token = false
       | Exit _ => False
       end.
Proof.
  unfold validateTokenConfig, valid_token.
  destruct (decimals token <? 0) eqn:Elo;
    [eexists; split; [reflexivity |];
     apply Z.ltb_lt in Elo; apply andb_false_intro1, andb_false_intro1;
     apply Z.leb_gt; lia |].
  destruct (18 <? decimals token) eqn:Ehi;
    [eexists; split; [reflexivity |];
     apply Z.ltb_lt in Ehi; apply andb_false_intro1, andb_false_intro2;
     apply Z.leb_gt; lia |].
  cbn [orb].
  apply Z.ltb_ge in Elo, Ehi.
  replace (0 <=? decimals token) with true by (symmetry; apply Z.leb_le; lia).
  replace (decimals token <=? 18) with true by (symmetry; apply Z.leb_le; lia).
  cbn [andb].
  destruct (initialHolders token) as [holders |]; cbn [default].
  - apply validate_holders_run.
  - eexists. split; reflexivity.
Qed.

Lemma validate_all_run (ts : list TokenDefinition) (st : TokenDeployer W) :
  exists o,
    for_of ts validateTokenConfig st = (o, st)
    /\ match o with
       | Ret _ => forallb valid_token ts = true
       | Throw _ => forallb valid_token ts = false
       | Exit _ => False
       end.
Proof.
  induction ts as [| t ts IH]; cbn [for_of forallb].
  - eexists. split; reflexivity.
  - rewrite bind_unfold.
    destruct (validateTokenConfig_run t st) as ([[] | msg | code] & -> & Hv);
      try contradiction; rewrite Hv; cbn [andb].
    + exact IH.
    + eexists. split; reflexivity.
Qed.

Lemma loadTokenConfig_run (config : Config) (st : TokenDeployer W) :
  exists o,
    loadTokenConfig (Some (Ok config)) st = (o, st)
    /\ match o with
       | Ret c => c = config /\ forallb valid_token (tokens config) = true
       | Throw _ => forallb valid_token (tokens config) = false
       | Exit _ => False
       end.
Proof.
  unfold loadTokenConfig. rewrite bind_unfold.
  destruct (validate_all_run (tokens config) st) as ([[] | msg | code] & -> & Hv);
    try contradiction.
  - exists (Ret config). split; [reflexivity |]. split; [reflexivity | exact Hv].
  - exists (Throw msg). split; [reflexivity |]. exact Hv.
Qed.

Lemma loadTokenConfig_refused (file : option (result Config)) (st : TokenDeployer W) :
  refused file ->
  exists o, loadTokenConfig file st = (o, st)
            /\ ((exists msg, o = Throw msg) \/ o = Exit 1).
Proof.
  destruct file as [[config | msg] |]; cbn [refused]; intros Href.
  - destruct (loadTokenConfig_run config st) as ([c | msg | code] & E & Hv).
    + destruct Hv as (_ & Hv). congruence.
    + eexists. split; [exact E |]. left. eauto.
    + contradiction.
  - eexists. split; [reflexivity |]. left. eauto.
  - eexists. split; [reflexivity |]. right. reflexivity.
Qed.

Lemma getNetworkInfo_calls (st st' : TokenDeployer W) o :
  getNetworkInfo st = (o, st') ->
  (exists new, calls st' = calls st ++ new /\ Forall network_query new)
  /\ (forall code, o <> Exit code)
  /\ same_records st st' /\ same_files st st' /\ same_contract st st'.
Proof.
  intros E. pose proof (getNetworkInfo_keeps _ _ _ E) as (Hr & Hf & Hc).
  split; [| split; [| auto]].
  - unfold getNetworkInfo in E. inv_run.
    all: eexists; split;
      [ chain_calls
      | repeat first [apply List.Forall_nil | apply List.Forall_cons; [exact I |]] ].
  - intros code ->. unfold getNetworkInfo in E. inv_run.
Qed.

End ValidationFacts.

Section DeployRunFacts.
Context {W : Type} `{ChainClient W} `{ContractBuilder}.

(** The runs of [compileContract], by what it finds on disk and what the
    compiler answers. *)
Lemma compileContract_run (st : TokenDeployer W) :
  compileContract st
  = match files st !! contractPath with
    | None =>
        (Throw ("ENOENT: no such file or directory, open " +:+ contractPath), st)
    | Some source =>
        if has_errors (solc_compile source) then (Exit 1, st)
        else
          match compiled (solc_compile source) with
          | Some (abi, bytecode) =>
              (Ret tt,
               {| world := world st; wallet_address := wallet_address st;
                  deployments := deployments st;
                  contractBytecode := Some bytecode; contractABI := Some abi;
                  files := <[abiPath := JSON_stringify abi]> (files st);
                  calls := calls st |})
          | None => (Throw "TypeError: Cannot read properties of undefined", st)
          end
    end.
Proof.
  unfold compileContract, readFileSync, has_errors.
  rewrite bind_unfold, bind_unfold. unfold gets. cbv beta iota.
  destruct (files st !! contractPath) as [source |]; [| reflexivity].
  cbn [ret]. rewrite bind_unfold.
  destruct (errors (solc_compile source)) as [es |].
  - destruct (existsb _ es); [reflexivity |]. cbn [ret].
    destruct (compiled (solc_compile source)) as [[abi bytecode] |]; reflexivity.
  - cbn [ret].
    destruct (compiled (solc_compile source)) as [[abi bytecode] |]; reflexivity.
Qed.

Lemma deployToken_records token (st st' : TokenDeployer W) o :
  deployToken token st = (o, st') ->
  match o with
  | Ret a =>
      exists contract receipt,
        a = contract_address contract
        /\ deployments st' = deployments st ++ [record_of token contract receipt]
  | Throw _ => deployments st' = deployments st
  | Exit _ => False
  end.
Proof.
  intros E. apply deployToken_run in E.
  destruct (parseUnits (initialSupply token) (decimals token)).
  - destruct E as (_ & E). exact E.
  - destruct E as (-> & ->). reflexivity.
Qed.

(** The records that the loop of [deploy] adds, against the tokens of the
    configuration. *)
Lemma deployAll_run continue tokens (st st' : TokenDeployer W) o :
  deployAll continue tokens st = (o, st') ->
  exists deployed new,
    deployments st' = deployments st ++ new
    /\ Forall2 record_for deployed new
    /\ deployed `sublist_of` tokens
    /\ match o with
       | Ret _ => continue = false -> deployed = tokens
       | Throw _ =>
           continue = false /\ deployed `prefix_of` tokens
           /\ (length deployed < length tokens)%nat
       | Exit _ => False
       end.
Proof.
  revert st. induction tokens as [| t ts IH]; intros st E.
  - rewrite deployAll_nil in E. inversion E; subst.
    exists [], []. rewrite app_nil_r.
    split; [reflexivity |]. split; [constructor |]. split; [constructor |]. auto.
  - rewrite deployAll_cons in E.
    destruct (deployToken t st) as [[a | msg | code] st1] eqn:Et;
      apply deployToken_records in Et.
    + destruct Et as (contract & receipt & _ & Hd).
      destruct (IH _ E) as (deployed & new & Hnew & Hrec & Hsub & Ho).
      exists (t :: deployed), (record_of t contract receipt :: new).
      split; [rewrite Hnew, Hd, <- app_assoc; reflexivity |].
      split; [constructor; [exists contract, receipt; reflexivity | exact Hrec] |].
      split; [apply sublist_skip; exact Hsub |].
      destruct o as [u | m | c]; [| | exact Ho].
      * intros Hc. rewrite (Ho Hc). reflexivity.
      * destruct Ho as (Hc & Hpre & Hlen).
        split; [exact Hc |]. split; [apply prefix_cons; exact Hpre |].
        cbn [length]. lia.
    + destruct continue.
      * destruct (IH _ E) as (deployed & new & Hnew & Hrec & Hsub & Ho).
        exists deployed, new.
        split; [rewrite Hnew, Et; reflexivity |].
        split; [exact Hrec |].
        split; [apply sublist_cons; exact Hsub |].
        destruct o as [u | m | c]; [discriminate | | exact Ho].
        destruct Ho as (Hc & _). discriminate Hc.
      * inversion E; subst. exists [], []. rewrite app_nil_r.
        split; [exact Et |]. split; [constructor |].
        split; [apply sublist_nil_l |].
        split; [reflexivity |]. split; [apply prefix_nil |]. cbn [length]. lia.
    + contradiction.
Qed.


Lemma loadTokenConfig_exit file (st st' : TokenDeployer W) code :
  loadTokenConfig file st = (Exit code, st') -> code = 1.
Proof.
  destruct file as [[config | msg] |]; intros E.
  - destruct (loadTokenConfig_run config st) as (o & E' & Ho).
    rewrite E' in E. inversion E; subst. contradiction.
  - discriminate E.
  - inversion E. reflexivity.
Qed.

Lemma compileContract_exit (st st' : TokenDeployer W) code :
  compileContract st = (Exit code, st') -> code = 1 /\ st' = st.
Proof.
  rewrite compileContract_run.
  destruct (files st !! contractPath) as [source |]; [| discriminate].
  destruct (has_errors (solc_compile source)).
  - intros E. inversion E. auto.
  - destruct (compiled (solc_compile source)) as [[abi bytecode] |]; discriminate.
Qed.

(** How [deploy] ends, by how the steps of its [try] block end. *)
Lemma deploy_outcome file (st st' : TokenDeployer W) o :
  deploy file st = (o, st') -> o = Ret tt \/ o = Exit 1.
Proof.
  unfold deploy. intros E. inv_try E.
  - destruct a. left. reflexivity.
  - inversion E. right. reflexivity.
  - right. inv_run.
    + match type of E with
      | (if ?b then _ else _) _ = _ => destruct b
      end; [apply saveDeploymentReport_run in E as (Ho & _) | ]; discriminate.
    + exfalso. apply deployAll_run in E as (? & ? & _ & _ & _ & []).
    + apply compileContract_exit in E as (-> & _). reflexivity.
    + apply loadTokenConfig_exit in E. subst. reflexivity.
    + exfalso. apply getNetworkInfo_calls in E as (_ & Hne & _).
      eapply Hne. reflexivity.
Qed.

End DeployRunFacts.

Section DistributionFacts.
Context {W : Type} `{ChainClient W} `{ContractBuilder}.

Lemma transfers_of_app (a b : list Call) :
  transfers_of (a ++ b) = transfers_of a ++ transfers_of b.
Proof. apply omap_app. Qed.

(** The transfers of the distribution loop go to a prefix of the holders,
    one transfer each, in the order of the list; the loop returns only
    after the last one. *)
Lemma distribute_loop_trace contract token hs (st st' : TokenDeployer W) o :
  for_of hs (fun holder =>
      amount ← of_result (parseUnits (holder_amount holder) (decimals token));
      tx ← rpc (CallTransfer (contract_address contract) (holder_address holder) amount)
               (contract_transfer (contract_address contract)
                                  (holder_address holder) amount);
      rpc (CallWait tx) (tx_wait tx);;
      ret tt) st = (o, st') ->
  exists new k,
    calls st' = calls st ++ new
    /\ Forall2 (pays token) (take k hs) (transfers_of new)
    /\ Forall (fun t => fst (fst t) = contract_address contract) (transfers_of new)
    /\ (forall u, o = Ret u -> k = length hs).
Proof.
  revert st. induction hs as [| h hs IH]; intros st E.
  - inversion E; subst. exists [], 0%nat. rewrite app_nil_r.
    split; [reflexivity |]. split; [constructor |]. split; [constructor |]. auto.
  - cbn [for_of] in E. inv_bind E.
    + apply IH in E as (new & k & Hc & Hpay & Hto & Hret).
      inv_run.
      eexists (CallTransfer _ _ _ :: CallWait _ :: new), (Datatypes.S k).
      split; [chain_calls |].
      cbn [transfers_of omap take].
      split; [constructor; [split; [reflexivity | assumption] | exact Hpay] |].
      split; [constructor; [reflexivity | exact Hto] |].
      intros u Hu. rewrite (Hret u Hu). reflexivity.
    + inv_run.
      * eexists [CallTransfer _ _ _; CallWait _], 1%nat.
        split; [chain_calls |]. cbn [transfers_of omap take].
        split; [constructor; [split; [reflexivity | assumption] | constructor] |].
        split; [constructor; [reflexivity | constructor] |]. discriminate.
      * eexists [CallTransfer _ _ _], 1%nat.
        split; [chain_calls |]. cbn [transfers_of omap take].
        split; [constructor; [split; [reflexivity | assumption] | constructor] |].
        split; [constructor; [reflexivity | constructor] |]. discriminate.
      * exists [], 0%nat. rewrite app_nil_r.
        split; [reflexivity |]. split; [constructor |]. split; [constructor |].
        discriminate.
    + exfalso. inv_run.
Qed.

(** The calls of [deployToken] once the supply is scaled: the estimate,
    the deployment, and then the transfers to a prefix of the holders. *)
Lemma deployToken_trace token (st st' : TokenDeployer W) o :
  deployToken token st = (o, st') ->
  exists new k,
    calls st' = calls st ++ new
    /\ Forall2 (pays token) (take k (default [] (initialHolders token)))
               (transfers_of new)
    /\ (forall address, o = Ret address ->
          k = length (default [] (initialHolders token))
          /\ Forall (fun t => fst (fst t) = address) (transfers_of new)).
Proof.
  unfold deployToken, new_factory. intros E.
  inv_bind E; [| discriminate | discriminate].
  inversion E0; subst a st0; clear E0.
  destruct (parseUnits (initialSupply token) (decimals token)) as [v | msg] eqn:Hv.
  all: cbn [of_result] in E; rewrite bind_unfold in E; cbn [ret throw] in E.
  2: { inversion E. exists [], 0%nat. rewrite app_nil_r.
       split; [reflexivity |]. split; [constructor | discriminate]. }
  destruct (estimateGas_run token st v Hv) as (st1 & Hg & Hc1 & _).
  rewrite (bind_ret_l _ _ _ _ _ Hg) in E.
  assert (Hdist : forall c s1 o1 s2,
             (if has_holders token then distributeTokens c token else ret tt) s1
             = (o1, s2) ->
             exists new k,
               calls s2 = calls s1 ++ new
               /\ Forall2 (pays token) (take k (default [] (initialHolders token)))
                          (transfers_of new)
               /\ Forall (fun t => fst (fst t) = contract_address c) (transfers_of new)
               /\ (forall u, o1 = Ret u -> k = length (default [] (initialHolders token)))).
  { intros c s1 o1 s2 Ed. unfold has_holders in Ed.
    destruct (initialHolders token) as [[| h hs] |] eqn:Hh; cbn [default].
    2: { eapply distribute_loop_trace. unfold distributeTokens in Ed.
         rewrite Hh in Ed. exact Ed. }
    all: inversion Ed; subst; exists [], 0%nat; rewrite app_nil_r;
      (split; [reflexivity |]); (split; [constructor |]);
      (split; [constructor | reflexivity]). }
  inv_bind E; [inv_bind E; [inv_bind E; [inv_bind E | |] | |] | |].
  all: inv_run.
  all: repeat match goal with
       | Hd : (if has_holders _ then _ else _) _ = _ |- _ =>
           apply Hdist in Hd as (? & ? & ? & ? & ? & ?)
       | Hp : push_deployment _ _ = _ |- _ =>
           unfold push_deployment, modify in Hp; inversion Hp; subst; clear Hp
       end.
  all: cbn [calls] in *.
  all: unfold transfers_of in *.
  all: first
    [ match goal with
      | Hk : Forall2 (pays _) (take ?k _) (omap _ ?new) |- _ =>
          eexists _, k; split; [chain_calls |]; simpl;
          split; [exact Hk |];
          first [ discriminate
                | intros address Ha; inversion Ha; subst;
                  split; [eauto | assumption] ]
      end
    | eexists _, 0%nat; split; [chain_calls |]; simpl;
      split; [constructor | discriminate] ].
Qed.

End DistributionFacts.

Lemma pays_scalable (token : TokenDefinition) (hs : list Holder)
    (ts : list (string * string * Z)) (h : Holder) :
  Forall2 (pays token) hs ts -> In h hs ->
  exists amount, parseUnits (holder_amount h) (decimals token) = Ok amount.
Proof.
  induction 1 as [| h0 t hs ts (_ & Hp) _ IH]; intros Hin; [destruct Hin |].
  destruct Hin as [-> | Hin]; [eauto | auto].
Qed.


Section DeploymentRunProperties.
Context {W : Type} `{ChainClient W} `{ContractBuilder}.


(** X2: when the configuration file is absent, is not JSON, or holds one
    token that fails validation, [deploy] ends the process with status 1
    before compiling: no file is written, no contract is set, no record is
    stored, and the only calls made are the two network queries. *)
Theorem refused_configuration_stops_the_run (file : option (result Config))
    (st : TokenDeployer W) :
  refused file ->
  let run := deploy file st in
  fst run = Exit 1
  /\ files (snd run) = files st
  /\ deployments (snd run) = deployments st
  /\ contractABI (snd run) = contractABI st
  /\ contractBytecode (snd run) = contractBytecode st
  /\ exists new, calls (snd run) = calls st ++ new /\ Forall network_query new.
Proof.
  intros Href run. subst run. unfold deploy, try_catch. rewrite bind_unfold.
  destruct (getNetworkInfo st) as [[info | msg | code] s1] eqn:En;
    apply getNetworkInfo_calls in En as (Hcalls & Hne & Hr & Hf & Hc & Hb & _).
  - rewrite bind_unfold.
    destruct (loadTokenConfig_refused file s1 Href) as (o & -> & [(msg & ->) | ->]);
      cbn [exit fst snd]; auto 10.
  - cbn [exit fst snd]. auto 10.
  - exfalso. eapply Hne. reflexivity.
Qed.

(** X3: with the contract source on disk, [compileContract] ends the
    process with status 1, leaving the deployer as it was, exactly when a
    diagnostic of the compiler has severity [error]; warnings do not stop
    it.  When it goes on and the output holds the contract, it stores the
    ABI and the bytecode and writes the ABI, and nothing else, to
    [ERC20Token.abi.json], from which the ABI is read back. *)
Theorem compilation_stops_on_errors_only (source : string) (st : TokenDeployer W) :
  files st !! contractPath = Some source ->
  let output := solc_compile source in
  let run := compileContract st in
  (has_errors output = true -> run = (Exit 1, st))
  /\ (has_errors output = false ->
      forall abi bytecode, compiled output = Some (abi, bytecode) ->
        fst run = Ret tt
        /\ contractABI (snd run) = Some abi
        /\ contractBytecode (snd run) = Some bytecode
        /\ files (snd run) = <[abiPath := JSON_stringify abi]> (files st)
        /\ deployments (snd run) = deployments st
        /\ calls (snd run) = calls st
        /\ (wf_json abi -> files (snd run) !! abiPath ≫= JSON_parse = Some abi)).
Proof.
  intros Hsrc output run. subst run output. rewrite compileContract_run, Hsrc.
  split; intros ->; [reflexivity |].
  intros abi bytecode ->. cbn [fst snd contractABI contractBytecode files deployments calls].
  repeat (split; [reflexivity |]).
  intros Hwf. rewrite lookup_insert_eq, option_bind_Some.
  apply JSON_parse_stringify. exact Hwf.
Qed.


(** X5: the transfers that [deployToken] makes go to the configured
    holders in the order of the configuration, one transfer per holder,
    each with the holder's amount scaled by the token's decimals, without
    gaps: they cover a prefix of the holder list.  When [deployToken]
    returns, the prefix is the whole list and every transfer was sent to
    the contract whose address is returned. *)
Theorem holders_are_paid_in_order (token : TokenDefinition) (st : TokenDeployer W) :
  let run := deployToken token st in
  let holders := default [] (initialHolders token) in
  exists new k,
    calls (snd run) = calls st ++ new
    /\ Forall2 (pays token) (take k holders) (transfers_of new)
    /\ (forall address, fst run = Ret address ->
          k = length holders
          /\ Forall (fun t => fst (fst t) = address) (transfers_of new)).
Proof.
  intros run holders. subst run holders.
  destruct (deployToken token st) as [o st'] eqn:E.
  apply deployToken_trace in E. exact E.
Qed.

(** X6: the amounts of the holders are not checked before the contract is
    created.  A token whose supply scales but one of whose holders has an
    amount that does not scale is never recorded: [deployToken] throws,
    and yet the call that deploys the contract has been made. *)
Theorem holder_amounts_are_checked_after_deployment (token : TokenDefinition)
    (st : TokenDeployer W) (h : Holder) (v : Z) (msg : string) :
  parseUnits (initialSupply token) (decimals token) = Ok v ->
  In h (default [] (initialHolders token)) ->
  parseUnits (holder_amount h) (decimals token) = Err msg ->
  let run := deployToken token st in
  (exists msg', fst run = Throw msg')
  /\ deployments (snd run) = deployments st
  /\ exists gasLimit, In (CallDeploy (ctor_args token v) gasLimit) (calls (snd run)).
Proof.
  intros Hv Hin Hbad run. subst run.
  destruct (deployToken token st) as [o st'] eqn:E. cbn [fst snd].
  pose proof (deployToken_trace _ _ _ _ E) as (new & k & _ & Hpay & Hret).
  pose proof (deployToken_records _ _ _ _ E) as Hrec.
  pose proof (deployToken_run _ _ _ _ E) as Hrun. rewrite Hv in Hrun.
  destruct Hrun as ((rest & Hc & _) & _).
  assert (Hthrow : exists msg', o = Throw msg').
  { destruct o as [a | msg' | code]; [| eauto | contradiction].
    exfalso. destruct (Hret a eq_refl) as (-> & _).
    rewrite firstn_all in Hpay.
    destruct (pays_scalable _ _ _ _ Hpay Hin) as (amount & Hok). congruence. }
  split; [exact Hthrow |].
  split; [destruct Hthrow as (msg' & ->); exact Hrec |].
  eexists. rewrite Hc. apply in_or_app. right. right. left. reflexivity.
Qed.

End DeploymentRunProperties.

(** ** The report files *)

Lemma chars_app (a b : string) : chars (a +:+ b) = chars a ++ chars b.
Proof.
  unfold chars. induction a as [| c a IH]; [reflexivity |].
  simpl. f_equal. exact IH.
Qed.





Section ReportFileProperties.
Context {W : Type} `{ChainClient W} `{ContractBuilder}.

(** What [saveDeploymentReport] leaves behind: the clock is read twice,
    for the name of the report and for its [timestamp] field. *)
Lemma saveDeploymentReport_eq (network : string) (st : TokenDeployer W) :
  saveDeploymentReport network st
  = (Ret tt,
     {| world := snd (toISOString_now (snd (toISOString_now (world st))));
        wallet_address := wallet_address st;
        deployments := deployments st;
        contractBytecode := contractBytecode st;
        contractABI := contractABI st;
        files :=
          <[addressPath :=
              JSON_stringify (addressMap_to_json (addressMap (deployments st)))]>
            (<[reportPath network
                 (replace_colon_dot (fst (toISOString_now (world st)))) :=
                 JSON_stringify (report_to_json
                   {| r_timestamp :=
                        fst (toISOString_now (snd (toISOString_now (world st))));
                      r_network := network;
                      r_deployer := wallet_address st;
                      r_deployments := deployments st |})]> (files st));
        calls := calls st |}).
Proof.
  unfold saveDeploymentReport.
  rewrite bind_unfold. unfold now at 1.
  destruct (toISOString_now (world st)) as [iso w1]. cbv beta iota zeta.
  cbn [fst snd].
  rewrite bind_unfold. unfold now at 1. cbn [world].
  destruct (toISOString_now w1) as [stamp w2]. cbv beta iota zeta.
  cbn [fst snd]. reflexivity.
Qed.


(** X8: [deploy] has two ways to end: it returns, or it ends the process
    with status 1.  No exception leaves it, and no other status is
    used. *)
Theorem deploy_returns_or_exits_1 (file : option (result Config))
    (st : TokenDeployer W) :
  fst (deploy file st) = Ret tt \/ fst (deploy file st) = Exit 1.
Proof.
  destruct (deploy file st) as [o st'] eqn:E.
  apply deploy_outcome in E. exact E.
Qed.


End ReportFileProperties.

(** ** The environment *)

Section EnvironmentProperties.
Context {W : Type} `{ChainClient W} `{ContractBuilder} `{Signer}.

Lemma validateEnvironment_run (env : gmap string string) (st : TokenDeployer W) :
  validateEnvironment env st
  = (if Nat.ltb 0 (length (List.filter (unset env) required_variables)) then Exit 1
     else if negb (String.prefix "0x" (default "" (env !! "PRIVATE_KEY")))
             || negb (Nat.eqb (String.length (default "" (env !! "PRIVATE_KEY"))) 66)
     then Exit 1
     else match Wallet_address (default "" (env !! "PRIVATE_KEY")) with
          | Err msg => Throw msg
          | Ok address =>
              if negb (String.eqb (toLowerCase address)
                         (toLowerCase (default "" (env !! "DEPLOYER_ADDRESS"))))
              then Exit 1 else Ret tt
          end,
     st).
Proof.
  unfold validateEnvironment. rewrite bind_unfold.
  destruct (Nat.ltb 0 _); [reflexivity |]. cbn [ret]. rewrite bind_unfold.
  destruct (negb _ || negb _); [reflexivity |]. cbn [ret]. rewrite bind_unfold.
  destruct (Wallet_address _) as [address | msg]; [| reflexivity].
  cbn [of_result ret]. destruct (negb _); reflexivity.
Qed.

Lemma unset_false (env : gmap string string) (key : string) :
  unset env key = false -> exists value, env !! key = Some value.
Proof. unfold unset. destruct (env !! key); [eauto | discriminate]. Qed.

Lemma required_all_set (env : gmap string string) :
  Nat.ltb 0 (length (List.filter (unset env) required_variables)) = false
  <-> Forall (fun key => unset env key = false) required_variables.
Proof.
  unfold required_variables. cbn [List.filter].
  destruct (unset env "RPC_URL") eqn:E1, (unset env "PRIVATE_KEY") eqn:E2,
           (unset env "DEPLOYER_ADDRESS") eqn:E3; cbn [length Nat.ltb Nat.leb].
  all: split; intros Hx; try discriminate Hx.
  all: try (repeat constructor; assumption).
  all: try reflexivity.
  all: exfalso; inversion Hx as [| ? ? Ha Hx1]; subst;
       inversion Hx1 as [| ? ? Hb Hx2]; subst;
       inversion Hx2 as [| ? ? Hc Hx3]; subst; congruence.
Qed.

(** X10: [main] of the deployment script ends by returning or with
    status 1.  With an accepted environment it runs [deploy] on a deployer
    whose wallet is the one derived from the key, without records and
    without a contract.  With any other environment (a variable missing or
    empty, a key without the [0x] prefix or not 66 characters long, a key
    the SDK refuses, or a configured address that differs from the derived
    one by more than letter case) it ends with status 1 and has called and
    written nothing. *)
Theorem environment_is_checked_first (env : gmap string string)
    (file : option (result Config)) (st : TokenDeployer W) :
  let run := deployTokens_main env file st in
  (fst run = Ret tt \/ fst run = Exit 1)
  /\ (forall address,
        environment_ok env address -> run = deploy file (constructed st address))
  /\ ((forall address, ~ environment_ok env address) -> run = (Exit 1, st)).
Proof.
  intros run. subst run.
  unfold deployTokens_main, TokenDeployer_constructor, try_catch.
  rewrite bind_unfold, bind_unfold, validateEnvironment_run.
  destruct (Nat.ltb 0 _) eqn:Eset.
  { split; [right; reflexivity |]. split; [| reflexivity].
    intros address (Hall & _). apply required_all_set in Hall. congruence. }
  apply required_all_set in Eset.
  assert (Hkey : exists key, env !! "PRIVATE_KEY" = Some key).
  { inversion Eset as [| ? ? _ Hx]; subst. inversion Hx as [| ? ? Hk _]; subst.
    apply unset_false. exact Hk. }
  assert (Hdep : exists deployer, env !! "DEPLOYER_ADDRESS" = Some deployer).
  { inversion Eset as [| ? ? _ Hx]; subst. inversion Hx as [| ? ? _ Hy]; subst.
    inversion Hy as [| ? ? Hk _]; subst. apply unset_false. exact Hk. }
  destruct Hkey as (key & Hkey). destruct Hdep as (deployer & Hdep).
  rewrite Hkey, Hdep. cbn [default from_option id].
  destruct (String.prefix "0x" key) eqn:Epre; cbn [negb orb].
  2: { split; [right; reflexivity |]. split; [| reflexivity].
       intros address (_ & key' & deployer' & Hk & _ & Hp & _). congruence. }
  destruct (Nat.eqb (String.length key) 66) eqn:Elen; cbn [negb].
  2: { split; [right; reflexivity |]. split; [| reflexivity].
       intros address (_ & key' & deployer' & Hk & _ & _ & Hl & _).
       apply Nat.eqb_neq in Elen. congruence. }
  apply Nat.eqb_eq in Elen.
  destruct (Wallet_address key) as [address | msg] eqn:Ew.
  2: { split; [right; reflexivity |]. split; [| reflexivity].
       intros address (_ & key' & deployer' & Hk & _ & _ & _ & Hw & _). congruence. }
  destruct (String.eqb (toLowerCase address) (toLowerCase deployer)) eqn:Eaddr;
    cbn [negb].
  2: { split; [right; reflexivity |]. split; [| reflexivity].
       intros address' (_ & key' & deployer' & Hk & Hd & _ & _ & Hw & Hl).
       apply String.eqb_neq in Eaddr. congruence. }
  apply String.eqb_eq in Eaddr.
  cbn [default from_option id of_result]. rewrite bind_unfold. cbn [ret].
  unfold modify. fold (constructed st address).
  assert (Hrun : match deploy file (constructed st address) with
                 | (Throw msg, st1) => exit 1 st1
                 | other => other
                 end = deploy file (constructed st address)).
  { destruct (deploy file (constructed st address)) as [o st1] eqn:E.
    apply deploy_outcome in E as [-> | ->]; reflexivity. }
  rewrite Hrun.
  split.
  { destruct (deploy file (constructed st address)) as [o st1] eqn:E.
    apply deploy_outcome in E. exact E. }
  split.
  - intros address' (_ & key' & deployer' & Hk & _ & _ & _ & Hw & _).
    assert (address' = address) by congruence. subst. reflexivity.
  - intros Hnone. exfalso. apply (Hnone address).
    split; [exact Eset |]. exists key, deployer. auto 10.
Qed.

End EnvironmentProperties.

(** *** The deployment run on the test doubles *)


Lemma refused_configuration_stops_the_run_witness :
  let run := deploy Stub.bad_config (Mock.deployer Mock.quiet_chain) in
  fst run = Exit 1
  /\ files (snd run) = Mock.disk
  /\ deployments (snd run) = []
  /\ calls (snd run) = [CallGetNetwork; CallGetBalance Stub.wallet].
Proof.
  intros run.
  destruct (refused_configuration_stops_the_run Stub.bad_config
              (Mock.deployer Mock.quiet_chain))
    as (Ho & Hf & Hd & _).
  - vm_compute. reflexivity.
  - split; [exact Ho |]. split; [exact Hf |]. split; [exact Hd |].
    vm_compute. reflexivity.
Defined.

Lemma compilation_stops_on_errors_only_witness :
  let st := Mock.deployer Mock.quiet_chain in
  @compileContract _ Stub.failing_builder st = (Exit 1, st)
  /\ fst (@compileContract _ Stub.warning_builder st) = Ret tt
  /\ files (snd (@compileContract _ Stub.warning_builder st)) !! abiPath
     ≫= JSON_parse = Some (JArr [JStr "constructor"]).
Proof.
  intros st. split.
  - apply (proj1 (@compilation_stops_on_errors_only _ Stub.failing_builder
                    "contract ERC20Token {}" st ltac:(vm_compute; reflexivity))).
    reflexivity.
  - destruct (proj2 (@compilation_stops_on_errors_only _ Stub.warning_builder
                       "contract ERC20Token {}" st ltac:(vm_compute; reflexivity))
                eq_refl (JArr [JStr "constructor"]) "0x60806040" eq_refl)
      as (Ho & _ & _ & _ & _ & _ & Hparse).
    split; [exact Ho |]. apply Hparse.
    constructor. apply List.Forall_cons; [constructor | apply List.Forall_nil].
Defined.


Lemma holders_are_paid_in_order_witness :
  let run := deployToken Mock.tokenB (Mock.deployer Mock.quiet_chain) in
  fst run = Ret "0xC0"
  /\ exists new,
       calls (snd run) = new
       /\ Forall2 (pays Mock.tokenB)
            [{| holder_address := Mock.alice; holder_amount := "10" |};
             {| holder_address := Mock.bob; holder_amount := "2.5" |}]
            (transfers_of new)
       /\ Forall (fun t => fst (fst t) = "0xC0") (transfers_of new).
Proof.
  intros run.
  assert (Hret : fst run = Ret "0xC0") by (vm_compute; reflexivity).
  split; [exact Hret |].
  destruct (holders_are_paid_in_order Mock.tokenB (Mock.deployer Mock.quiet_chain))
    as (new & k & Hc & Hpay & Hall).
  destruct (Hall "0xC0" Hret) as (-> & Hto).
  exists new. split; [exact Hc |]. split; [exact Hpay | exact Hto].
Defined.

Lemma holder_amounts_are_checked_after_deployment_witness :
  let run := deployToken Stub.tokenD (Mock.deployer Mock.quiet_chain) in
  (exists msg, fst run = Throw msg)
  /\ deployments (snd run) = []
  /\ exists gasLimit, In (CallDeploy (ctor_args Stub.tokenD 500) gasLimit) (calls (snd run)).
Proof.
  intros run.
  apply (holder_amounts_are_checked_after_deployment Stub.tokenD
           (Mock.deployer Mock.quiet_chain)
           {| holder_address := Mock.bob; holder_amount := "0.123" |}
           500 "too many decimals for format").
  - vm_compute. reflexivity.
  - right. left. reflexivity.
  - vm_compute. reflexivity.
Defined.



Lemma environment_is_checked_first_witness :
  deployTokens_main Stub.env (Mock.config None) Stub.blank
  = deploy (Mock.config None) (constructed Stub.blank Stub.wallet)
  /\ deployTokens_main (delete "PRIVATE_KEY" Stub.env) (Mock.config None) Stub.blank
     = (Exit 1, Stub.blank).
Proof.
  split.
  - apply (proj1 (proj2 (environment_is_checked_first Stub.env (Mock.config None)
                           Stub.blank))).
    split.
    + repeat (apply List.Forall_cons; [vm_compute; reflexivity |]).
      apply List.Forall_nil.
    + exists Stub.key, "0xde9107e500000000000000000000000000000003".
      repeat split; vm_compute; reflexivity.
  - apply (proj2 (proj2 (environment_is_checked_first (delete "PRIVATE_KEY" Stub.env)
                           (Mock.config None) Stub.blank))).
    intros address (Hall & _).
    inversion Hall as [| ? ? _ Hrest]; subst.
    inversion Hrest as [| ? ? Hkey _]; subst.
    vm_compute in Hkey. discriminate Hkey.
Defined.

(** ** The order of file names *)

Ltac N_compare_facts :=
  repeat match goal with
  | E : (?n ?= ?m)%N = Eq |- _ => apply N.compare_eq_iff in E
  | E : (?n ?= ?m)%N = Lt |- _ =>
      let L := fresh "L" in
      pose proof (proj1 (N.compare_lt_iff n m) E) as L; clear E
  | E : (?n ?= ?m)%N = Gt |- _ =>
      let L := fresh "L" in
      pose proof (proj1 (N.compare_gt_iff n m) E) as L; clear E
  end.

Lemma leb_refl (s : string) : String.leb s s = true.
Proof.
  unfold String.leb. induction s as [| c s IH]; [reflexivity |].
  cbn [String.compare]. unfold Ascii.compare. rewrite N.compare_refl. exact IH.
Qed.

Lemma leb_total (a b : string) : String.leb a b = false -> String.leb b a = true.
Proof.
  unfold String.leb. rewrite (String.compare_antisym b a).
  destruct (String.compare a b); [discriminate | discriminate | reflexivity].
Qed.

Lemma leb_trans (a b c : string) :
  String.leb a b = true -> String.leb b c = true -> String.leb a c = true.
Proof.
  unfold String.leb. revert b c.
  induction a as [| a0 a IH]; intros [| b0 b] [| c0 c]; cbn [String.compare];
    try reflexivity; try discriminate.
  unfold Ascii.compare.
  destruct (N_of_ascii a0 ?= N_of_ascii b0)%N eqn:E1;
    destruct (N_of_ascii b0 ?= N_of_ascii c0)%N eqn:E2;
    destruct (N_of_ascii a0 ?= N_of_ascii c0)%N eqn:E3;
    intros H1 H2; try discriminate H1; try discriminate H2; try reflexivity;
    try (eapply IH; eassumption).
  all: exfalso; N_compare_facts; lia.
Qed.

Lemma leb_antisym (a b : string) :
  String.leb a b = true -> String.leb b a = true -> a = b.
Proof.
  unfold String.leb. rewrite (String.compare_antisym b a).
  destruct (String.compare a b) eqn:E; cbn [CompOpp]; intros H1 H2;
    [| discriminate H2 | discriminate H1].
  apply String.compare_eq_iff. exact E.
Qed.

Lemma insert_sorted_In (x y : string) (l : list string) :
  In y (insert_sorted x l) <-> y = x \/ In y l.
Proof.
  induction l as [| z l IH]; cbn [insert_sorted In]; [intuition |].
  destruct (String.leb x z); cbn [In]; [intuition | rewrite IH; intuition].
Qed.

Lemma Array_sort_In (y : string) (l : list string) :
  In y (Array_sort l) <-> In y l.
Proof.
  unfold Array_sort. induction l as [| x l IH]; cbn [fold_right In]; [reflexivity |].
  rewrite insert_sorted_In, IH. intuition.
Qed.

Lemma insert_sorted_ascending (x : string) (l : list string) :
  ascending l -> ascending (insert_sorted x l).
Proof.
  induction l as [| z l IH]; cbn [insert_sorted ascending]; intros Hasc.
  - split; [constructor | exact I].
  - destruct Hasc as (Hz & Hasc). destruct (String.leb x z) eqn:E; cbn [ascending].
    + split; [| split; assumption].
      apply List.Forall_cons; [exact E |].
      eapply Forall_impl; [exact Hz |]. intros y Hy. cbn beta in *.
      eapply leb_trans; eassumption.
    + split; [| apply IH; exact Hasc].
      apply List.Forall_forall. intros y Hy.
      apply insert_sorted_In in Hy as [-> | Hy].
      * apply leb_total. exact E.
      * rewrite List.Forall_forall in Hz. apply Hz. exact Hy.
Qed.

Lemma Array_sort_ascending (l : list string) : ascending (Array_sort l).
Proof.
  unfold Array_sort. induction l as [| x l IH]; cbn [fold_right]; [exact I |].
  apply insert_sorted_ascending. exact IH.
Qed.

Lemma ascending_last (l : list string) (m : string) :
  ascending l -> last l = Some m -> forall f, In f l -> String.leb f m = true.
Proof.
  induction l as [| x l IH]; intros Hasc Hlast f Hin; [destruct Hin |].
  destruct Hasc as (Hx & Hasc).
  destruct l as [| y l].
  - cbn in Hlast. inversion Hlast; subst. destruct Hin as [-> | []]. apply leb_refl.
  - change (last (x :: y :: l)) with (last (y :: l)) in Hlast.
    destruct Hin as [-> | Hin]; [| exact (IH Hasc Hlast f Hin)].
    rewrite List.Forall_forall in Hx. apply Hx.
    apply last_Some in Hlast as (l' & Hl'). rewrite Hl'.
    apply in_or_app. right. left. reflexivity.
Qed.

(** The first name after sorting and reversing is the greatest. *)
Lemma latest_is_greatest (l : list string) :
  l <> [] ->
  exists m, head (reverse (Array_sort l)) = Some m /\ greatest m l.
Proof.
  intros Hne. rewrite head_reverse.
  destruct (last (Array_sort l)) as [m |] eqn:Hlast.
  - exists m. split; [reflexivity |]. split.
    + apply Array_sort_In. apply last_Some in Hlast as (l' & Hl'). rewrite Hl'.
      apply in_or_app. right. left. reflexivity.
    + intros f Hf. apply (ascending_last (Array_sort l) m).
      * apply Array_sort_ascending.
      * exact Hlast.
      * apply Array_sort_In. exact Hf.
  - exfalso. apply Hne.
    destruct l as [| x l]; [reflexivity |].
    assert (Hin : In x (Array_sort (x :: l))) by (apply Array_sort_In; left; reflexivity).
    destruct (Array_sort (x :: l)) as [| y s]; [destruct Hin |].
    clear Hin. exfalso. revert y Hlast. induction s as [| z s IH]; intros y Hlast.
    + discriminate Hlast.
    + apply (IH z). exact Hlast.
Qed.

Lemma greatest_unique (m m' : string) (l : list string) :
  greatest m l -> greatest m' l -> m = m'.
Proof.
  intros (Hin & Hmax) (Hin' & Hmax'). apply leb_antisym; auto.
Qed.

(** ** The verification run *)

Section VerificationFacts.
Context {H : Type} `{Explorer H} `{AbiCoder}.

(** What the verifier keeps of its state through its requests. *)
Lemma polled_frame guid (st : ContractVerifier H) :
  v_files (polled guid st) = v_files st
  /\ v_apiUrl (polled guid st) = v_apiUrl st
  /\ v_apiKey (polled guid st) = v_apiKey st
  /\ v_network (polled guid st) = v_network st.
Proof. repeat split; reflexivity. Qed.

(** The polling loop in full: it returns, after [k] status requests for
    the same identifier, three seconds of sleep before each. *)
Lemma check_trace guid attempts (st : ContractVerifier H) :
  exists status st' k,
    checkVerificationStatus guid attempts st = (Ret status, st')
    /\ (k <= attempts)%nat
    /\ v_requests st' = v_requests st ++ status_requests guid k
    /\ v_slept st' = v_slept st + 3000 * Z.of_nat k
    /\ v_files st' = v_files st
    /\ v_apiUrl st' = v_apiUrl st
    /\ v_apiKey st' = v_apiKey st
    /\ v_network st' = v_network st
    /\ (success status = true -> (1 <= k)%nat)
    /\ (k = 0%nat -> status = timed_out).
Proof.
  revert st. induction attempts as [| n IH]; intros st.
  - exists timed_out, st, 0%nat. cbn [status_requests repeat].
    rewrite app_nil_r, Z.mul_0_r, Z.add_0_r.
    split; [reflexivity |]. split; [lia |]. do 6 (split; [reflexivity |]).
    split; [discriminate | reflexivity].
  - rewrite check_unfold.
    destruct (IH (polled guid st))
      as (status & st' & k & Hrun & Hk & Hreq & Hslept & Hf & Hu & Hkey & Hn & Hs & _).
    assert (Hnext : exists status st' k,
               checkVerificationStatus guid n (polled guid st) = (Ret status, st')
               /\ (k <= Datatypes.S n)%nat
               /\ v_requests st' = v_requests st ++ status_requests guid k
               /\ v_slept st' = v_slept st + 3000 * Z.of_nat k
               /\ v_files st' = v_files st
               /\ v_apiUrl st' = v_apiUrl st
               /\ v_apiKey st' = v_apiKey st
               /\ v_network st' = v_network st
               /\ (success status = true -> (1 <= k)%nat)
               /\ (k = 0%nat -> status = timed_out)).
    { exists status, st', (Datatypes.S k).
      split; [exact Hrun |]. split; [lia |].
      split; [rewrite Hreq; cbn [polled v_requests status_requests repeat];
              rewrite <- app_assoc; reflexivity |].
      split; [rewrite Hslept; cbn [polled v_slept]; lia |].
      do 4 (split; [assumption |]). split; [lia | intros Hz; discriminate Hz]. }
    assert (Hone : forall status,
               success status = success status ->
               exists st' k,
                 (Ret status, polled guid st) = (Ret status, st')
                 /\ (k <= Datatypes.S n)%nat
                 /\ v_requests st' = v_requests st ++ status_requests guid k
                 /\ v_slept st' = v_slept st + 3000 * Z.of_nat k
                 /\ v_files st' = v_files st
                 /\ v_apiUrl st' = v_apiUrl st
                 /\ v_apiKey st' = v_apiKey st
                 /\ v_network st' = v_network st
                 /\ (success status = true -> (1 <= k)%nat)
                 /\ (k = 0%nat -> status = timed_out)).
    { intros s _. exists (polled guid st), 1%nat.
      split; [reflexivity |]. split; [lia |].
      do 6 (split; [reflexivity |]). split; [lia | intros Hz; discriminate Hz]. }
    destruct (fst (axios_get (v_apiUrl st) (v_apiKey st) guid (v_http st))) as [d | msg].
    + destruct (is_pending d); [exact Hnext |].
      destruct (Hone (verdict_of d) eq_refl) as (st1 & k1 & Hx). eauto.
    + exact Hnext.
Qed.


End VerificationFacts.

Section DirectoryFacts.

Lemma directory_entries_In (dir f : string) (fs : gmap string string) :
  In f (directory_entries dir fs)
  <-> exists path, is_Some (fs !! path) /\ entry_name dir path = Some f.
Proof.
  unfold directory_entries. rewrite <- list_elem_of_In, elem_of_remove_dups, list_elem_of_omap.
  split.
  - intros ((path & text) & Hin & Hname). apply elem_of_map_to_list in Hin.
    exists path. split; [eexists; exact Hin | exact Hname].
  - intros (path & (text & Hfile) & Hname). exists (path, text).
    split; [apply elem_of_map_to_list; exact Hfile | exact Hname].
Qed.

Lemma strip_prefix_app (pre l : list ascii) : strip_prefix pre (pre ++ l) = Some l.
Proof.
  induction pre as [| c pre IH]; [reflexivity |].
  cbn [app strip_prefix]. rewrite Ascii.eqb_refl. exact IH.
Qed.

Lemma first_segment_plain (l : list ascii) :
  ~ In "/"%char l -> first_segment l = l.
Proof.
  induction l as [| c l IH]; intros Hno; [reflexivity |].
  cbn [first_segment]. destruct (Ascii.eqb c "/") eqn:E.
  - apply Ascii.eqb_eq in E. exfalso. apply Hno. left. exact E.
  - rewrite IH; [reflexivity |]. intros Hin. apply Hno. right. exact Hin.
Qed.

(** A file directly under a directory is listed under its own name. *)
Lemma entry_name_join (dir f : string) :
  ~ In "/"%char (chars f) -> entry_name dir (path_join dir f) = Some f.
Proof.
  intros Hno. unfold entry_name, path_join.
  replace (chars (dir +:+ "/" +:+ f)) with (chars (dir +:+ "/") ++ chars f)
    by (rewrite !chars_app, <- app_assoc; reflexivity).
  rewrite strip_prefix_app, option_bind_Some, (first_segment_plain _ Hno), str_chars.
  reflexivity.
Qed.

Lemma startsWith_append (pre s : string) : startsWith (pre +:+ s) pre = true.
Proof.
  unfold startsWith. induction pre as [| c pre IH]; [destruct s; reflexivity |].
  simpl. destruct (ascii_dec c c); [exact IH | congruence].
Qed.

Lemma endsWith_append (s suffix : string) : endsWith (s +:+ suffix) suffix = true.
Proof.
  unfold endsWith. rewrite chars_app, rev_app_distr, strip_prefix_app. reflexivity.
Qed.

Lemma report_name_is_deployment_file (network timestamp : string) :
  is_deployment_file (report_name network timestamp) = true.
Proof.
  unfold is_deployment_file, report_name.
  rewrite startsWith_append. cbn [andb].
  replace ("deployment-" +:+ network +:+ "-" +:+ timestamp +:+ ".json")
    with (("deployment-" +:+ network +:+ "-" +:+ timestamp) +:+ ".json").
  - apply endsWith_append.
  - rewrite <- (str_chars (_ +:+ ".json")),
            <- (str_chars ("deployment-" +:+ network +:+ "-" +:+ timestamp +:+ ".json")).
    f_equal. rewrite !chars_app, <- !app_assoc. reflexivity.
Qed.

Lemma reportPath_join (network timestamp : string) :
  reportPath network timestamp = path_join deploymentDir (report_name network timestamp).
Proof. reflexivity. Qed.

End DirectoryFacts.

Section LoadReportFacts.
Context {H : Type} `{Explorer H} `{AbiCoder} `{Clock H}.

(** The runs of [loadDeploymentReport]: it reads the report under the
    greatest name. *)
Lemma loadDeploymentReport_run (st : ContractVerifier H) :
  match report_names (v_files st) with
  | [] =>
      exists msg,
        loadDeploymentReport st = (Throw msg, st)
        /\ (directory_entries deploymentDir (v_files st) <> [] ->
            msg = "No deployment files found")
  | _ :: _ =>
      exists latest,
        greatest latest (report_names (v_files st))
        /\ exists o,
             loadDeploymentReport st = (o, st)
             /\ (forall code, o <> Exit code)
             /\ forall report,
                  o = Ret report
                  <-> readReport (v_files st) (path_join deploymentDir latest)
                      = Some report
  end.
Proof.
  unfold loadDeploymentReport. rewrite bind_unfold. unfold gets. cbv beta iota zeta.
  rewrite bind_unfold. unfold report_names, readdirSync.
  destruct (directory_entries deploymentDir (v_files st)) as [| e es] eqn:Hentries.
  { cbn [List.filter of_result throw]. eexists. split; [reflexivity |].
    intros Hne. exfalso. apply Hne. reflexivity. }
  cbn [of_result ret].
  destruct (List.filter is_deployment_file (e :: es)) as [| f0 fs0] eqn:Hnames.
  { cbn [length Nat.eqb throw]. eexists. split; [reflexivity |]. reflexivity. }
  cbn [length Nat.eqb].
  destruct (latest_is_greatest (f0 :: fs0)) as (latest & -> & Hmax); [discriminate |].
  exists latest. split; [exact Hmax |]. cbn [default from_option id].
  unfold readReport.
  destruct (v_files st !! path_join deploymentDir latest) as [text |].
  - rewrite option_bind_Some.
    change (JSON_parse text ≫= json_to_report)
      with (j ← JSON_parse text; json_to_report j).
    destruct (j ← JSON_parse text; json_to_report j) as [report |].
    + eexists. split; [reflexivity |]. split; [discriminate |].
      intros r. split; intros Hr; inversion Hr; reflexivity.
    + eexists. split; [reflexivity |]. split; [discriminate |].
      intros r. split; intros Hr; discriminate Hr.
  - eexists. split; [reflexivity |]. split; [discriminate |].
    intros r. split; intros Hr; discriminate Hr.
Qed.

End LoadReportFacts.


Lemma status_requests_polls (guid : string) (k : nat) :
  length (List.filter is_status_request (status_requests guid k)) = k.
Proof. induction k as [| k IH]; [reflexivity |]. cbn. rewrite <- IH at 2. reflexivity. Qed.

Section VerifyAllFacts.
Context {H : Type} `{Explorer H} `{AbiCoder} `{Clock H}.



End VerifyAllFacts.

Section VerificationProperties.
Context {H : Type} `{Explorer H} `{AbiCoder} `{Clock H}.

(** X11: for any number of attempts, [checkVerificationStatus] returns.
    It sends at most that many requests, all of them status requests for
    the given identifier, and sleeps three seconds before each: the time
    slept grows by 3000 ms per request.  A success is reported only after
    at least one request; without any request the answer is the timeout.
    The files are not touched. *)
Theorem polling_is_bounded (guid : string) (attempts : nat) (st : ContractVerifier H) :
  let run := checkVerificationStatus guid attempts st in
  exists status k,
    fst run = Ret status
    /\ (k <= attempts)%nat
    /\ v_requests (snd run) = v_requests st ++ status_requests guid k
    /\ polls (snd run) = (polls st + k)%nat
    /\ v_slept (snd run) = v_slept st + 3000 * Z.of_nat k
    /\ v_files (snd run) = v_files st
    /\ (success status = true -> (1 <= k)%nat)
    /\ (k = 0%nat -> status = timed_out).
Proof.
  intros run. subst run.
  destruct (check_trace guid attempts st)
    as (status & st' & k & -> & Hk & Hreq & Hslept & Hf & _ & _ & _ & Hs & Hz).
  exists status, k. cbn [fst snd].
  split; [reflexivity |]. split; [exact Hk |]. split; [exact Hreq |].
  split; [unfold polls; rewrite Hreq, List.filter_app, length_app,
            status_requests_polls; reflexivity |].
  auto.
Qed.


(** X13: [loadDeploymentReport] never changes the verifier and never ends
    the process.  Without a file named [deployment-*.json] in the
    deployment directory it throws, with the message
    [No deployment files found] when the directory has other entries;
    otherwise it reads the file whose name is the greatest in the order
    of [sort], code unit by code unit, and returns a report exactly when
    that file holds one. *)
Theorem latest_report_is_the_greatest_name (st : ContractVerifier H) :
  let run := loadDeploymentReport st in
  snd run = st
  /\ (forall code, fst run <> Exit code)
  /\ (report_names (v_files st) = [] ->
      (exists msg, fst run = Throw msg)
      /\ (directory_entries deploymentDir (v_files st) <> [] ->
          fst run = Throw "No deployment files found"))
  /\ (report_names (v_files st) <> [] ->
      exists latest,
        greatest latest (report_names (v_files st))
        /\ forall report,
             fst run = Ret report
             <-> readReport (v_files st) (path_join deploymentDir latest) = Some report).
Proof.
  intros run. subst run. pose proof (loadDeploymentReport_run st) as Hrun.
  destruct (report_names (v_files st)) as [| f0 fs0].
  - destruct Hrun as (msg & -> & Hmsg). cbn [fst snd].
    split; [reflexivity |]. split; [discriminate |].
    split; [| intros Hne; exfalso; apply Hne; reflexivity].
    intros _. split; [exists msg; reflexivity |].
    intros Hdir. rewrite (Hmsg Hdir). reflexivity.
  - destruct Hrun as (latest & Hmax & o & -> & Hexit & Hret). cbn [fst snd].
    split; [reflexivity |]. split; [exact Hexit |]. split; [discriminate |].
    intros _. exists latest. split; [exact Hmax | exact Hret].
Qed.


End VerificationProperties.

(** ** From the deployer to the verifier *)

Section HandOver.
Context {W : Type} `{ChainClient W} `{ContractBuilder}.
Context {X : Type} `{Explorer X} `{AbiCoder} `{Clock X}.

(** X14: the verifier finds the report that the deployer has just
    written.  When the name of the new report has no path separator and no
    report file already in the directory has a greater name,
    [loadDeploymentReport], run on the files that [saveDeploymentReport]
    left, returns the report of that run: its network, the wallet address
    and the records in memory. *)
Theorem verifier_reads_the_report_just_written (network : string)
    (st : TokenDeployer W) (vst : ContractVerifier X) :
  let iso := fst (toISOString_now (world st)) in
  let stamp := fst (toISOString_now (snd (toISOString_now (world st)))) in
  let name := report_name network (replace_colon_dot iso) in
  ~ In "/"%char (chars name) ->
  (forall f, In f (report_names (files st)) -> String.leb f name = true) ->
  v_files vst = files (snd (saveDeploymentReport network st)) ->
  loadDeploymentReport vst
  = (Ret {| r_timestamp := stamp; r_network := network;
            r_deployer := wallet_address st;
            r_deployments := deployments st |}, vst).
Proof.
  intros iso stamp name Hplain Hmax Hfiles.
  rewrite saveDeploymentReport_eq in Hfiles. cbn [snd files] in Hfiles.
  fold iso stamp in Hfiles.
  change (reportPath network (replace_colon_dot iso))
    with (path_join deploymentDir name) in Hfiles.
  set (report := {| r_timestamp := stamp; r_network := network;
                    r_deployer := wallet_address st;
                    r_deployments := deployments st |}) in *.
  assert (Hne : path_join deploymentDir name <> addressPath).
  { apply (reportPath_not_address network (replace_colon_dot iso)). }
  assert (Hfile : v_files vst !! path_join deploymentDir name
                  = Some (JSON_stringify (report_to_json report))).
  { rewrite Hfiles, lookup_insert_ne by (apply not_eq_sym; exact Hne).
    apply lookup_insert_eq. }
  assert (Hin : In name (report_names (v_files vst))).
  { unfold report_names. apply List.filter_In.
    split; [| apply report_name_is_deployment_file].
    apply directory_entries_In. exists (path_join deploymentDir name).
    split; [rewrite Hfile; eexists; reflexivity | apply entry_name_join; exact Hplain]. }
  assert (Hgreatest : greatest name (report_names (v_files vst))).
  { split; [exact Hin |]. intros f Hf.
    unfold report_names in Hf. apply List.filter_In in Hf as (Hf & Hdep).
    apply directory_entries_In in Hf as (path & Hsome & Hentry).
    rewrite Hfiles in Hsome.
    destruct (decide (path = addressPath)) as [-> | Hna].
    { exfalso. vm_compute in Hentry. inversion Hentry; subst f.
      vm_compute in Hdep. discriminate Hdep. }
    rewrite lookup_insert_ne in Hsome by congruence.
    destruct (decide (path = path_join deploymentDir name)) as [-> | Hnr].
    { rewrite (entry_name_join _ _ Hplain) in Hentry. inversion Hentry.
      apply leb_refl. }
    rewrite lookup_insert_ne in Hsome by congruence.
    apply Hmax. unfold report_names. apply List.filter_In. split; [| exact Hdep].
    apply directory_entries_In. exists path. auto. }
  pose proof (loadDeploymentReport_run vst) as Hrun.
  destruct (report_names (v_files vst)) as [| f0 fs0] eqn:Hnames; [destruct Hin |].
  destruct Hrun as (latest & Hlatest & o & -> & _ & Hret).
  rewrite (greatest_unique _ _ _ Hlatest Hgreatest) in Hret.
  f_equal. apply Hret. apply readReport_written. exact Hfile.
Qed.

End HandOver.

(** *** The verification run on the test doubles *)

Lemma polling_is_bounded_witness :
  let run := checkVerificationStatus "guid-1" 5 (Mock.verifier Mock.never_done) in
  exists status k,
    fst run = Ret status
    /\ (k <= 5)%nat
    /\ v_requests (snd run) = status_requests "guid-1" k
    /\ v_slept (snd run) = 3000 * Z.of_nat k.
Proof.
  intros run.
  destruct (polling_is_bounded "guid-1" 5 (Mock.verifier Mock.never_done))
    as (status & k & Ho & Hk & Hreq & _ & Hslept & _).
  exists status, k. split; [exact Ho |]. split; [exact Hk |].
  split; [exact Hreq | exact Hslept].
Defined.


Lemma latest_report_is_the_greatest_name_witness :
  let bare := Stub.verifier {[ addressPath := "{}" ]} in
  let st := Stub.verifier (files (snd (saveDeploymentReport "sepolia" Stub.deployed))) in
  fst (loadDeploymentReport bare) = Throw "No deployment files found"
  /\ (exists msg, fst (loadDeploymentReport (Stub.verifier Mock.disk)) = Throw msg)
  /\ exists latest,
       greatest latest (report_names (v_files st))
       /\ forall report,
            fst (loadDeploymentReport st) = Ret report
            <-> readReport (v_files st) (path_join deploymentDir latest) = Some report.
Proof.
  intros bare st. split; [| split].
  - destruct (latest_report_is_the_greatest_name bare) as (_ & _ & Hnone & _).
    apply Hnone.
    + vm_compute. reflexivity.
    + vm_compute. discriminate.
  - destruct (latest_report_is_the_greatest_name (Stub.verifier Mock.disk))
      as (_ & _ & Hnone & _).
    apply Hnone. vm_compute. reflexivity.
  - destruct (latest_report_is_the_greatest_name st) as (_ & _ & _ & Hsome).
    apply Hsome. vm_compute. discriminate.
Defined.

Lemma verifier_reads_the_report_just_written_witness :
  let fs := files (snd (saveDeploymentReport "sepolia" Stub.deployed)) in
  exists report,
    loadDeploymentReport (Stub.verifier fs) = (Ret report, Stub.verifier fs)
    /\ r_network report = "sepolia"
    /\ r_deployments report = deployments Stub.deployed.
Proof.
  intros fs. eexists. split.
  - apply (verifier_reads_the_report_just_written "sepolia" Stub.deployed
             (Stub.verifier fs)).
    + vm_compute. intros Hin.
      repeat (destruct Hin as [Hin | Hin]; [discriminate Hin |]). exact Hin.
    + intros f Hf. vm_compute in Hf. destruct Hf.
    + reflexivity.
  - split; reflexivity.
Defined.


(** ** The token command line *)

Section CliFacts.
Context {W : Type} `{ChainClient W} `{TokenContract W}.

Lemma cli_rpc_eq {A : Type} (c : AbiCall) (f : W -> result A * W) (st : Cli W) :
  cli_rpc c f st
  = (match fst (f (cli_world st)) with Ok a => Ret a | Err msg => Throw msg end,
     {| cli_world := snd (f (cli_world st)); cli_wallet := cli_wallet st;
        cli_tokens := cli_tokens st; cli_files := cli_files st;
        cli_calls := cli_calls st ++ [c] |}).
Proof. unfold cli_rpc. destruct (f (cli_world st)). reflexivity. Qed.

Lemma started_rpc_eq {A : Type} (c : AbiCall) (f : W -> result A * W) (st : Cli W) :
  started (cli_rpc c f) st
  = (Ret (fst (f (cli_world st))),
     {| cli_world := snd (f (cli_world st)); cli_wallet := cli_wallet st;
        cli_tokens := cli_tokens st; cli_files := cli_files st;
        cli_calls := cli_calls st ++ [c] |}).
Proof.
  unfold started, try_catch. rewrite bind_unfold, cli_rpc_eq.
  destruct (fst (f (cli_world st))); reflexivity.
Qed.

Lemma cli_eta (st : Cli W) :
  {| cli_world := cli_world st; cli_wallet := cli_wallet st;
     cli_tokens := cli_tokens st; cli_files := cli_files st;
     cli_calls := cli_calls st ++ [] |} = st.
Proof. destruct st. cbn. rewrite app_nil_r. reflexivity. Qed.

(** A method of the interactor that throws before any call leaves the
    interactor as it was. *)
Lemma lift_unchanged {A : Type} (m : M (TokenInteractor W) A) (st : Cli W) o :
  (forall ist, m ist = (o, ist)) -> lift m st = (o, st).
Proof.
  intros Hm. unfold lift. rewrite Hm. cbn [map i_world i_wallet i_tokens i_files i_calls].
  rewrite cli_eta. reflexivity.
Qed.

(** [loadTokenAddresses] makes no call and writes no file. *)
Lemma lift_load_frame (st st1 : Cli W) o :
  lift loadTokenAddresses st = (o, st1) ->
  cli_calls st1 = cli_calls st /\ cli_world st1 = cli_world st
  /\ cli_files st1 = cli_files st /\ cli_wallet st1 = cli_wallet st.
Proof.
  unfold lift, loadTokenAddresses. rewrite bind_unfold. unfold gets. cbv beta iota.
  cbn [i_files].
  destruct (cli_files st !! addressPath) as [text |].
  - destruct (JSON_parse text ≫= json_to_addressMap) as [m |];
      intros E; inversion E; subst; cbn; rewrite app_nil_r; auto.
  - intros E; inversion E; subst; cbn; rewrite app_nil_r; auto.
Qed.


(** A transaction and the wait for it. *)
Lemma send_run (c : AbiCall) (f : W -> result string * W) (st : Cli W) :
  exists o st' rest,
    (tx ← cli_rpc c f;
     receipt ← cli_rpc (Chain (CallWait tx)) (tx_wait tx);
     ret receipt) st = (o, st')
    /\ cli_calls st' = cli_calls st ++ c :: rest
    /\ Forall is_wait rest /\ (length rest <= 1)%nat
    /\ forall code, o <> Exit code.
Proof.
  rewrite bind_unfold, cli_rpc_eq.
  destruct (fst (f (cli_world st))) as [tx | msg].
  - rewrite bind_unfold, cli_rpc_eq. cbn [cli_world cli_calls].
    destruct (fst (tx_wait tx _)) as [receipt | msg].
    + eexists _, _, [Chain (CallWait tx)]. split; [reflexivity |].
      cbn [cli_calls]. rewrite <- app_assoc.
      split; [reflexivity |]. split; [repeat constructor |].
      split; [cbn; lia | discriminate].
    + eexists _, _, [Chain (CallWait tx)]. split; [reflexivity |].
      cbn [cli_calls]. rewrite <- app_assoc.
      split; [reflexivity |]. split; [repeat constructor |].
      split; [cbn; lia | discriminate].
  - eexists _, _, []. split; [reflexivity |]. cbn [cli_calls].
    split; [reflexivity |]. split; [constructor |].
    split; [cbn; lia | discriminate].
Qed.

(** The common course of [transfer], [approve] and [burn] on a known
    token. *)
Lemma scaled_send_run (contract amount : string) (send : Z -> AbiCall)
    (f : Z -> W -> result string * W) (st : Cli W) :
  exists o st' new,
    (decimals ← cli_rpc (CallDecimals contract) (contract_decimals contract);
     amountWei ← of_result (parseUnits amount decimals);
     tx ← cli_rpc (send amountWei) (f amountWei);
     receipt ← cli_rpc (Chain (CallWait tx)) (tx_wait tx);
     ret receipt) st = (o, st')
    /\ cli_calls st' = cli_calls st ++ new
    /\ scaled_send (cli_world st) contract amount send o new.
Proof.
  unfold scaled_send. rewrite bind_unfold, cli_rpc_eq.
  destruct (fst (contract_decimals contract (cli_world st))) as [d | msg].
  - rewrite bind_unfold.
    destruct (parseUnits amount d) as [v | msg]; cbn [of_result ret throw].
    + destruct (send_run (send v) (f v)
                  {| cli_world := snd (contract_decimals contract (cli_world st));
                     cli_wallet := cli_wallet st; cli_tokens := cli_tokens st;
                     cli_files := cli_files st;
                     cli_calls := cli_calls st ++ [CallDecimals contract] |})
        as (o & st' & rest & -> & Hc & Hw & Hl & He).
      exists o, st', (CallDecimals contract :: send v :: rest).
      split; [reflexivity |].
      split; [rewrite Hc; cbn [cli_calls]; rewrite <- app_assoc; reflexivity |].
      exists rest. auto.
    + eexists _, _, [CallDecimals contract]. split; [reflexivity |].
      split; [reflexivity | auto].
  - eexists _, _, [CallDecimals contract]. split; [reflexivity |].
    split; [reflexivity | auto].
Qed.

End CliFacts.

Section CliMethodFacts.
Context {W : Type} `{ChainClient W} `{TokenContract W}.

Lemma getTokenInfo_unknown symbol (st : Cli W) :
  obj_get (cli_tokens st) symbol = None ->
  getTokenInfo symbol st = (Throw ("Token " +:+ symbol +:+ " not found"), st).
Proof.
  intros Hnone. unfold getTokenInfo. rewrite bind_unfold. unfold gets.
  cbv beta iota. rewrite Hnone. reflexivity.
Qed.

Lemma transfer_unknown symbol to amount (st : Cli W) :
  obj_get (cli_tokens st) symbol = None ->
  transfer symbol to amount st = (Throw ("Token " +:+ symbol +:+ " not found"), st).
Proof.
  intros Hnone. unfold transfer. rewrite bind_unfold. unfold gets.
  cbv beta iota. rewrite Hnone. reflexivity.
Qed.

Lemma approve_unknown symbol spender amount (st : Cli W) :
  obj_get (cli_tokens st) symbol = None ->
  approve symbol spender amount st
  = (Throw ("Token " +:+ symbol +:+ " not found"), st).
Proof.
  intros Hnone. unfold approve. rewrite bind_unfold. unfold gets.
  cbv beta iota. rewrite Hnone. reflexivity.
Qed.

Lemma mint_unknown symbol to amount (st : Cli W) :
  obj_get (cli_tokens st) symbol = None ->
  mint symbol to amount st = (Throw ("Token " +:+ symbol +:+ " not found"), st).
Proof.
  intros Hnone. unfold mint. rewrite bind_unfold. unfold gets.
  cbv beta iota. rewrite Hnone. reflexivity.
Qed.

Lemma burn_unknown symbol amount (st : Cli W) :
  obj_get (cli_tokens st) symbol = None ->
  burn symbol amount st = (Throw ("Token " +:+ symbol +:+ " not found"), st).
Proof.
  intros Hnone. unfold burn. rewrite bind_unfold. unfold gets.
  cbv beta iota. rewrite Hnone. reflexivity.
Qed.

Lemma pause_unknown symbol (st : Cli W) :
  obj_get (cli_tokens st) symbol = None ->
  pause symbol st = (Throw ("Token " +:+ symbol +:+ " not found"), st).
Proof.
  intros Hnone. unfold pause. rewrite bind_unfold. unfold gets.
  cbv beta iota. rewrite Hnone. reflexivity.
Qed.

Lemma unpause_unknown symbol (st : Cli W) :
  obj_get (cli_tokens st) symbol = None ->
  unpause symbol st = (Throw ("Token " +:+ symbol +:+ " not found"), st).
Proof.
  intros Hnone. unfold unpause. rewrite bind_unfold. unfold gets.
  cbv beta iota. rewrite Hnone. reflexivity.
Qed.

Lemma grantRole_unknown symbol role account (st : Cli W) :
  obj_get (cli_tokens st) symbol = None ->
  lift (grantRole symbol role account) st
  = (Throw ("Token " +:+ symbol +:+ " not found"), st).
Proof.
  intros Hnone. unfold lift, grantRole. rewrite bind_unfold. unfold gets.
  cbv beta iota. cbn [i_tokens]. rewrite Hnone.
  cbn [throw map i_world i_wallet i_tokens i_files i_calls].
  rewrite cli_eta. reflexivity.
Qed.

(** [getTokenInfo] on a known token makes its four calls, whatever they
    answer. *)
Lemma getTokenInfo_run symbol (st : Cli W) tokenData :
  obj_get (cli_tokens st) symbol = Some tokenData ->
  exists o st',
    getTokenInfo symbol st = (o, st')
    /\ cli_calls st' = cli_calls st ++ info_calls (td_address tokenData) (cli_wallet st)
    /\ cli_tokens st' = cli_tokens st
    /\ cli_wallet st' = cli_wallet st
    /\ cli_files st' = cli_files st
    /\ forall code, o <> Exit code.
Proof.
  intros Htok. unfold getTokenInfo. rewrite bind_unfold. unfold gets at 1.
  cbv beta iota. rewrite Htok. cbv zeta.
  rewrite bind_unfold. unfold gets at 1. cbv beta iota.
  rewrite bind_unfold, started_rpc_eq.
  rewrite bind_unfold, started_rpc_eq. cbn [cli_world cli_wallet cli_tokens cli_files cli_calls].
  rewrite bind_unfold, started_rpc_eq. cbn [cli_world cli_wallet cli_tokens cli_files cli_calls].
  rewrite bind_unfold, started_rpc_eq. cbn [cli_world cli_wallet cli_tokens cli_files cli_calls].
  rewrite <- !app_assoc. cbn [app]. fold (info_calls (td_address tokenData) (cli_wallet st)).
  rewrite bind_unfold.
  destruct (fst (contract_name _ _)) as [nm | msg];
    [| eexists _, _; split; [reflexivity |]; cbn; repeat split; discriminate].
  cbn [of_result ret]. rewrite bind_unfold.
  destruct (fst (contract_totalSupply _ _)) as [supply | msg];
    [| eexists _, _; split; [reflexivity |]; cbn; repeat split; discriminate].
  cbn [of_result ret]. rewrite bind_unfold.
  destruct (fst (contract_decimals _ _)) as [d | msg];
    [| eexists _, _; split; [reflexivity |]; cbn; repeat split; discriminate].
  cbn [of_result ret]. rewrite bind_unfold.
  destruct (fst (contract_balanceOf _ _ _)) as [balance | msg];
    [| eexists _, _; split; [reflexivity |]; cbn; repeat split; discriminate].
  eexists _, _. split; [reflexivity |]. cbn. repeat split; discriminate.
Qed.

(** The loop of [listAllTokens] over any entries. *)
Lemma list_loop_run (entries : list (string * TokenData)) (st : Cli W) :
  exists st',
    for_of entries (fun entry =>
      try_catch (getTokenInfo (fst entry);; ret tt) (fun _ => ret tt)) st
    = (Ret tt, st')
    /\ cli_calls st'
       = cli_calls st
         ++ flat_map (fun entry =>
                        match obj_get (cli_tokens st) (fst entry) with
                        | Some data => info_calls (td_address data) (cli_wallet st)
                        | None => []
                        end) entries
    /\ cli_tokens st' = cli_tokens st
    /\ cli_wallet st' = cli_wallet st
    /\ cli_files st' = cli_files st.
Proof.
  revert st. induction entries as [| entry entries IH]; intros st.
  - exists st. cbn [for_of flat_map]. rewrite app_nil_r. auto.
  - cbn [for_of flat_map]. rewrite bind_unfold. unfold try_catch at 1.
    rewrite bind_unfold.
    destruct (obj_get (cli_tokens st) (fst entry)) as [data |] eqn:Htok.
    + destruct (getTokenInfo_run _ _ _ Htok) as (o & st1 & -> & Hc & Ht & Hw & Hf & He).
      assert (Hstep : exists u,
                 match (match o with
                        | Ret a => ret tt st1
                        | Throw msg => (Throw msg, st1)
                        | Exit code => (Exit code, st1)
                        end) with
                 | (Throw msg, s) => ret tt s
                 | other => other
                 end = (Ret u, st1)).
      { destruct o as [info | msg | code]; [eexists; reflexivity | eexists; reflexivity |].
        exfalso. eapply He. reflexivity. }
      destruct Hstep as ([] & ->).
      destruct (IH st1) as (st' & -> & Hc' & Ht' & Hw' & Hf').
      exists st'. split; [reflexivity |].
      rewrite Hc', Hc, Ht, Hw, <- app_assoc.
      repeat split; congruence.
    + rewrite (getTokenInfo_unknown _ _ Htok). cbn [ret].
      destruct (IH st) as (st' & -> & Hc' & Ht' & Hw' & Hf').
      exists st'. split; [reflexivity |]. cbn [app]. auto.
Qed.

End CliMethodFacts.

Ltac case_labels :=
  repeat match goal with
  | |- context [is_case (Some ?c) ?l] =>
      let b := eval vm_compute in (is_case (Some c) l) in
      change (is_case (Some c) l) with b; cbv iota
  end.

Section CliProperties.
Context {W : Type} `{ChainClient W} `{TokenContract W}.

(** X16: a command that names a token the address map does not hold ends
    the process with status 1 before any call: whichever of [info],
    [transfer], [approve], [mint], [burn], [grant-role], [pause] and
    [unpause] it is, once the address map is loaded the interactor is left
    as it was, and the chain has not been called. *)
Theorem unknown_symbol_is_refused_before_any_call (command symbol : string)
    (n : nat) (rest : list string) (st st1 : Cli W) :
  In (command, n) token_commands ->
  (n <= length (symbol :: rest))%nat ->
  lift loadTokenAddresses st = (Ret tt, st1) ->
  obj_get (cli_tokens st1) symbol = None ->
  interactWithTokens_main (command :: symbol :: rest) st = (Exit 1, st1)
  /\ cli_calls st1 = cli_calls st
  /\ cli_world st1 = cli_world st.
Proof.
  intros Hcmd Hlen Hload Hnone.
  split; [| apply lift_load_frame in Hload; tauto].
  unfold interactWithTokens_main. rewrite bind_unfold, Hload.
  cbn [head tail]. unfold try_catch.
  cbn [token_commands In] in Hcmd.
  repeat match type of Hcmd with
  | _ \/ _ => destruct Hcmd as [Hcmd | Hcmd]
  end; try contradiction; inversion Hcmd; subst command n; clear Hcmd;
    case_labels.
  - rewrite bind_unfold, (getTokenInfo_unknown _ _ Hnone). reflexivity.
  - destruct rest as [| a [| b rest]]; cbn [length] in Hlen; try lia.
    rewrite bind_unfold, (transfer_unknown _ _ _ _ Hnone). reflexivity.
  - destruct rest as [| a [| b rest]]; cbn [length] in Hlen; try lia.
    rewrite bind_unfold, (approve_unknown _ _ _ _ Hnone). reflexivity.
  - destruct rest as [| a [| b rest]]; cbn [length] in Hlen; try lia.
    rewrite bind_unfold, (mint_unknown _ _ _ _ Hnone). reflexivity.
  - destruct rest as [| a rest]; cbn [length] in Hlen; try lia.
    rewrite bind_unfold, (burn_unknown _ _ _ Hnone). reflexivity.
  - destruct rest as [| a [| b rest]]; cbn [length] in Hlen; try lia.
    rewrite bind_unfold, (grantRole_unknown _ _ _ _ Hnone). reflexivity.
  - rewrite bind_unfold, (pause_unknown _ _ Hnone). reflexivity.
  - rewrite bind_unfold, (unpause_unknown _ _ Hnone). reflexivity.
Qed.

(** X17: a command with fewer arguments than it needs ends the process
    with status 1 once the address map is loaded, without any call. *)
Theorem too_few_arguments_exit (command : string) (n : nat) (args : list string)
    (st st1 : Cli W) :
  In (command, n) token_commands ->
  (length args < n)%nat ->
  lift loadTokenAddresses st = (Ret tt, st1) ->
  interactWithTokens_main (command :: args) st = (Exit 1, st1)
  /\ cli_calls st1 = cli_calls st
  /\ cli_world st1 = cli_world st.
Proof.
  intros Hcmd Hlen Hload.
  split; [| apply lift_load_frame in Hload; tauto].
  unfold interactWithTokens_main. rewrite bind_unfold, Hload.
  cbn [head tail]. unfold try_catch.
  cbn [token_commands In] in Hcmd.
  repeat match type of Hcmd with
  | _ \/ _ => destruct Hcmd as [Hcmd | Hcmd]
  end; try contradiction; inversion Hcmd; subst command n; clear Hcmd;
    case_labels.
  all: repeat (destruct args as [| ? args]; cbn [length] in Hlen; try lia;
               try reflexivity).
Qed.

(** X18: without a command, or with a word that is none of the nine
    commands, [main] prints the help and returns: once the address map is
    loaded the interactor is left as it was, and the chain has not been
    called. *)
Theorem unknown_command_shows_help (argv : list string) (st st1 : Cli W) :
  (forall c, head argv = Some c -> ~ In c known_commands) ->
  lift loadTokenAddresses st = (Ret tt, st1) ->
  interactWithTokens_main argv st = (Ret tt, st1)
  /\ cli_calls st1 = cli_calls st
  /\ cli_world st1 = cli_world st.
Proof.
  intros Hunknown Hload.
  split; [| apply lift_load_frame in Hload; tauto].
  unfold interactWithTokens_main. rewrite bind_unfold, Hload. unfold try_catch.
  assert (Hcase : forall l, In l known_commands -> is_case (head argv) l = false).
  { intros l Hl. unfold is_case. destruct (head argv) as [c |]; [| reflexivity].
    apply String.eqb_neq. intros ->. exact (Hunknown l eq_refl Hl). }
  rewrite !Hcase by (cbn; tauto). reflexivity.
Qed.



(** X22: [listAllTokens] always returns.  For every entry of the address
    map, in the order of the map, it makes the four views of
    [getTokenInfo] on the address held under the entry's symbol, whatever
    the views of the other entries answered: a token that fails does not
    stop the listing.  It makes no other call and leaves the address map
    and the files as they were. *)
Theorem listAllTokens_visits_every_token (st : Cli W) :
  let run := listAllTokens st in
  fst run = Ret tt
  /\ cli_calls (snd run)
     = cli_calls st
       ++ flat_map (fun entry =>
                      match obj_get (cli_tokens st) (fst entry) with
                      | Some data => info_calls (td_address data) (cli_wallet st)
                      | None => []
                      end) (cli_tokens st)
  /\ cli_tokens (snd run) = cli_tokens st
  /\ cli_files (snd run) = cli_files st.
Proof.
  intros run. subst run. unfold listAllTokens. rewrite bind_unfold.
  unfold gets. cbv beta iota.
  destruct (list_loop_run (cli_tokens st) st) as (st' & -> & Hc & Ht & _ & Hf).
  cbn [fst snd]. auto.
Qed.

End CliProperties.

Section MintProperties.
Context {W : Type} `{ChainClient W} `{TokenContract W}.

Lemma mint_run (symbol to amount : string) (st : Cli W) (tokenData : TokenData) :
  obj_get (cli_tokens st) symbol = Some tokenData ->
  let contract := td_address tokenData in
  let wallet := cli_wallet st in
  let lookup := contract_role contract MINTER_ROLE (cli_world st) in
  exists o st' new,
    mint symbol to amount st = (o, st')
    /\ cli_calls st' = cli_calls st ++ new
    /\ match fst lookup with
       | Err msg =>
           o = Throw msg /\ new = [Chain (CallRole contract MINTER_ROLE)]
       | Ok roleHash =>
           let check := contract_hasRole contract roleHash wallet (snd lookup) in
           let asked := [Chain (CallRole contract MINTER_ROLE);
                         CallHasRole contract roleHash wallet] in
           match fst check with
           | Err msg => o = Throw msg /\ new = asked
           | Ok false =>
               o = Throw ("Address " +:+ wallet +:+ " does not have MINTER_ROLE")
               /\ new = asked
           | Ok true =>
               exists rest,
                 new = asked ++ rest
                 /\ scaled_send (snd check) contract amount
                      (fun v => CallMint contract to v) o rest
           end
       end
    /\ (forall v, In (CallMint contract to v) new ->
          exists roleHash,
            fst lookup = Ok roleHash
            /\ fst (contract_hasRole contract roleHash wallet (snd lookup)) = Ok true).
Proof.
  intros Htok contract wallet lookup. subst lookup.
  unfold mint. rewrite bind_unfold. unfold gets at 1. cbv beta iota.
  rewrite Htok. cbv zeta. fold contract.
  rewrite bind_unfold, cli_rpc_eq.
  destruct (fst (contract_role contract MINTER_ROLE (cli_world st)))
    as [roleHash | msg] eqn:Erole.
  2: { eexists _, _, [Chain (CallRole contract MINTER_ROLE)].
       split; [reflexivity |]. cbn [cli_calls].
       split; [reflexivity |]. split; [split; reflexivity |].
       intros v [Hc | []]. discriminate Hc. }
  rewrite bind_unfold. unfold gets at 1. cbv beta iota. cbn [cli_wallet].
  unfold wallet.
  rewrite bind_unfold, cli_rpc_eq. cbn [cli_world cli_wallet cli_tokens cli_files cli_calls].
  destruct (fst (contract_hasRole contract roleHash (cli_wallet st)
                   (snd (contract_role contract MINTER_ROLE (cli_world st)))))
    as [[|] | msg] eqn:Ehas.
  - cbn [negb].
    destruct (scaled_send_run contract amount (fun v => CallMint contract to v)
                (fun v => contract_mint contract to v)
                {| cli_world := snd (contract_hasRole contract roleHash (cli_wallet st)
                                       (snd (contract_role contract MINTER_ROLE
                                               (cli_world st))));
                   cli_wallet := cli_wallet st; cli_tokens := cli_tokens st;
                   cli_files := cli_files st;
                   cli_calls := (cli_calls st ++ [Chain (CallRole contract MINTER_ROLE)])
                                ++ [CallHasRole contract roleHash (cli_wallet st)] |})
      as (o & st' & rest & -> & Hc & Hs).
    cbn [cli_world cli_calls] in Hc, Hs.
    exists o, st', ([Chain (CallRole contract MINTER_ROLE);
                     CallHasRole contract roleHash wallet] ++ rest).
    split; [reflexivity |].
    split; [rewrite Hc, <- !app_assoc; reflexivity |].
    split; [exists rest; split; [reflexivity | exact Hs] |].
    intros v _. exists roleHash. auto.
  - cbn [negb throw].
    eexists _, _, [Chain (CallRole contract MINTER_ROLE);
                   CallHasRole contract roleHash wallet].
    split; [reflexivity |]. cbn [cli_calls].
    split; [rewrite <- app_assoc; reflexivity |]. split; [split; reflexivity |].
    intros v [Hc | [Hc | []]]; discriminate Hc.
  - eexists _, _, [Chain (CallRole contract MINTER_ROLE);
                   CallHasRole contract roleHash wallet].
    split; [reflexivity |]. cbn [cli_calls].
    split; [rewrite <- app_assoc; reflexivity |]. split; [split; reflexivity |].
    intros v [Hc | [Hc | []]]; discriminate Hc.
Qed.

(** X21: [mint] on a known token first asks the contract for the
    identifier of the minter role and whether the wallet holds it.  When
    a question fails, or the answer is no, it throws after these two
    views and sends nothing; the message for a missing role names the
    wallet.  Only after the answer yes does it read the decimals and send
    the mint transaction with the scaled amount: a mint transaction in
    the log means that the contract had answered yes. *)
Theorem mint_requires_the_minter_role (symbol to amount : string)
    (st : Cli W) (tokenData : TokenData) :
  obj_get (cli_tokens st) symbol = Some tokenData ->
  let contract := td_address tokenData in
  let wallet := cli_wallet st in
  let run := mint symbol to amount st in
  let lookup := contract_role contract MINTER_ROLE (cli_world st) in
  exists new,
    cli_calls (snd run) = cli_calls st ++ new
    /\ match fst lookup with
       | Err msg =>
           fst run = Throw msg /\ new = [Chain (CallRole contract MINTER_ROLE)]
       | Ok roleHash =>
           let check := contract_hasRole contract roleHash wallet (snd lookup) in
           let asked := [Chain (CallRole contract MINTER_ROLE);
                         CallHasRole contract roleHash wallet] in
           match fst check with
           | Err msg => fst run = Throw msg /\ new = asked
           | Ok false =>
               fst run = Throw ("Address " +:+ wallet +:+ " does not have MINTER_ROLE")
               /\ new = asked
           | Ok true =>
               exists rest,
                 new = asked ++ rest
                 /\ scaled_send (snd check) contract amount
                      (fun v => CallMint contract to v) (fst run) rest
           end
       end
    /\ (forall v, In (CallMint contract to v) new ->
          exists roleHash,
            fst lookup = Ok roleHash
            /\ fst (contract_hasRole contract roleHash wallet (snd lookup)) = Ok true).
Proof.
  intros Htok contract wallet run lookup. subst run.
  destruct (mint_run symbol to amount st tokenData Htok)
    as (o & st' & new & -> & Hc & Hcases & Hmint).
  exists new. cbn [fst snd]. auto.
Qed.

End MintProperties.

(** ** Across the scripts *)


Section NetworkLabel.
Context {W : Type} `{ChainClient W} `{ContractBuilder}.



End NetworkLabel.

Section EncodedArguments.
Context {W : Type} `{ChainClient W} `{ContractBuilder}.
Context {X : Type} `{Explorer X} `{AbiCoder}.

(** X24: the verifier encodes the constructor arguments that the deployer
    used.  For the record that a returning [deployToken] stores,
    [encodeConstructorArgs] encodes exactly the argument tuple of the
    one deployment call that [deployToken] made, and returns the encoding
    without its first two characters, or throws when the encoder does. *)
Theorem verification_encodes_the_deployed_arguments (token : TokenDefinition)
    (st st' : TokenDeployer W) (vst : ContractVerifier X) (address : string) :
  deployToken token st = (Ret address, st') ->
  exists args gasLimit rest d,
    calls st' = calls st ++ CallEstimateGas args :: CallDeploy args gasLimit :: rest
    /\ Forall (distribution_call token) rest
    /\ deployments st' = deployments st ++ [d]
    /\ d_address d = address
    /\ encodeConstructorArgs d vst
       = (match abi_encode args with
          | Ok encoded => Ret (str (drop 2 (chars encoded)))
          | Err msg => Throw msg
          end, vst).
Proof.
  intros E. apply deployToken_run in E.
  destruct (parseUnits (initialSupply token) (decimals token)) as [v | msg] eqn:Hv.
  2: { destruct E as (Hbad & _). discriminate Hbad. }
  cbv zeta in E. destruct E as ((rest & Hc & Hrest) & contract & receipt & -> & Hd).
  exists (ctor_args token v),
         (gas_limit_of (fst (rpc_estimateGas (factory_of st) (ctor_args token v)
                               (world st)))),
         rest, (record_of token contract receipt).
  split; [exact Hc |]. split; [exact Hrest |].
  split; [exact Hd |]. split; [reflexivity |].
  unfold encodeConstructorArgs. cbn [record_of d_initialSupply d_decimals d_name
    d_symbol d_mintable d_burnable d_pausable].
  rewrite bind_unfold, Hv. cbn [of_result ret]. rewrite bind_unfold.
  fold (ctor_args token v).
  destruct (abi_encode (ctor_args token v)); reflexivity.
Qed.

End EncodedArguments.

(** ** How the scripts end *)

Section ExitsOnly.
Context {S : Type}.
Variable code : Z.










End ExitsOnly.

Section CliExits.
Context {W : Type} `{ChainClient W} `{TokenContract W}.




End CliExits.


Section EndingProperties.
Context {W : Type} `{ChainClient W} `{ContractBuilder} `{TokenContract W}.


(** X25: when the compilation cannot succeed, because the contract source
    is missing, the compiler reports an error or its output lacks the
    contract, [deploy] ends the process with status 1 whatever the
    configuration: no file is written, the ABI file included, no contract
    is set, no record is stored, and the only calls made are the two
    network queries. *)
Theorem failed_compilation_stops_the_run (file : option (result Config))
    (st : TokenDeployer W) :
  cannot_compile st ->
  let run := deploy file st in
  fst run = Exit 1
  /\ files (snd run) = files st
  /\ deployments (snd run) = deployments st
  /\ contractABI (snd run) = contractABI st
  /\ contractBytecode (snd run) = contractBytecode st
  /\ exists new, calls (snd run) = calls st ++ new /\ Forall network_query new.
Proof.
  intros Hcannot run. subst run. unfold deploy, try_catch. rewrite bind_unfold.
  destruct (getNetworkInfo st) as [[info | msg | code] s1] eqn:En;
    apply getNetworkInfo_calls in En as (Hcalls & Hne & Hr & Hf & Hc & Hb & _).
  2: { cbn [exit fst snd]. auto 10. }
  2: { exfalso. eapply Hne. reflexivity. }
  rewrite bind_unfold.
  destruct (loadTokenConfig file s1) as [[config | msg | code] s2] eqn:El.
  - apply loadTokenConfig_state in El. subst s2.
    rewrite bind_unfold, compileContract_run.
    unfold cannot_compile in Hcannot. unfold same_files in Hf. rewrite Hf.
    destruct (files st !! contractPath) as [source |]; [| cbn [exit fst snd]; auto 10].
    destruct Hcannot as [-> | Hnone]; [cbn [exit fst snd]; auto 10 |].
    destruct (has_errors (solc_compile source)); [cbn [exit fst snd]; auto 10 |].
    rewrite Hnone. cbn [exit fst snd]. auto 10.
  - apply loadTokenConfig_state in El. subst s2. cbn [exit fst snd]. auto 10.
  - pose proof (loadTokenConfig_exit _ _ _ _ El) as ->.
    apply loadTokenConfig_state in El. subst s2. cbn [fst snd]. auto 10.
Qed.



End EndingProperties.

(** *** The command line on the test doubles *)

Lemma cli_loads_the_address_map :
  lift loadTokenAddresses Stub.cli
  = (Ret tt, snd (lift loadTokenAddresses Stub.cli))
  /\ cli_tokens (snd (lift loadTokenAddresses Stub.cli)) = Stub.tokens.
Proof.
  assert (Hret : fst (lift loadTokenAddresses Stub.cli) = Ret tt)
    by (vm_compute; reflexivity).
  pose proof (surjective_pairing (lift loadTokenAddresses Stub.cli)) as Hrun.
  rewrite Hret in Hrun. split; [exact Hrun |]. vm_compute. reflexivity.
Qed.

Lemma unknown_symbol_is_refused_before_any_call_witness :
  let st1 := snd (lift loadTokenAddresses Stub.cli) in
  interactWithTokens_main ["transfer"; "GAM"; Mock.alice; "1"] Stub.cli = (Exit 1, st1)
  /\ cli_calls st1 = [].
Proof.
  intros st1.
  destruct (unknown_symbol_is_refused_before_any_call "transfer" "GAM" 3
              [Mock.alice; "1"] Stub.cli st1)
    as (Hrun & Hcalls & _).
  - right. left. reflexivity.
  - cbn. lia.
  - apply cli_loads_the_address_map.
  - unfold st1. rewrite (proj2 cli_loads_the_address_map). reflexivity.
  - split; [exact Hrun | exact Hcalls].
Defined.

Lemma too_few_arguments_exit_witness :
  let st1 := snd (lift loadTokenAddresses Stub.cli) in
  interactWithTokens_main ["burn"; "ALF"] Stub.cli = (Exit 1, st1)
  /\ cli_calls st1 = [].
Proof.
  intros st1.
  destruct (too_few_arguments_exit "burn" 2 ["ALF"] Stub.cli st1)
    as (Hrun & Hcalls & _).
  - do 4 right. left. reflexivity.
  - cbn. lia.
  - apply cli_loads_the_address_map.
  - split; [exact Hrun | exact Hcalls].
Defined.

Lemma unknown_command_shows_help_witness :
  let st1 := snd (lift loadTokenAddresses Stub.cli) in
  interactWithTokens_main ["help"] Stub.cli = (Ret tt, st1)
  /\ interactWithTokens_main [] Stub.cli = (Ret tt, st1)
  /\ cli_calls st1 = [].
Proof.
  intros st1.
  destruct (unknown_command_shows_help ["help"] Stub.cli st1) as (Hrun & Hcalls & _).
  - intros c Hc. inversion Hc; subst c. vm_compute.
    intros Hin. repeat (destruct Hin as [Hin | Hin]; [discriminate Hin |]). exact Hin.
  - apply cli_loads_the_address_map.
  - destruct (unknown_command_shows_help [] Stub.cli st1) as (Hnone & _).
    + intros c Hc. discriminate Hc.
    + apply cli_loads_the_address_map.
    + split; [exact Hrun |]. split; [exact Hnone | exact Hcalls].
Defined.



Lemma mint_requires_the_minter_role_witness :
  let holder := Stub.loaded Stub.wallet in
  let stranger := Stub.loaded Mock.bob in
  (fst (mint "ALF" Mock.alice "1.5" stranger)
   = Throw ("Address " +:+ Mock.bob +:+ " does not have MINTER_ROLE")
   /\ forall v, ~ In (CallMint "0xC0" Mock.alice v)
                     (cli_calls (snd (mint "ALF" Mock.alice "1.5" stranger))))
  /\ In (CallMint "0xC0" Mock.alice 1500000000000000000)
        (cli_calls (snd (mint "ALF" Mock.alice "1.5" holder))).
Proof.
  intros holder stranger. split.
  - destruct (mint_requires_the_minter_role "ALF" Mock.alice "1.5" stranger
                {| td_address := "0xC0"; td_decimals := 6 |} eq_refl)
      as (new & Hc & Hcases & Hmint).
    cbn [td_address] in Hc, Hcases, Hmint.
    change (fst (contract_role "0xC0" MINTER_ROLE (cli_world stranger)))
      with (Ok (Mock.role_id MINTER_ROLE) : result string) in Hcases, Hmint.
    cbv iota zeta in Hcases.
    change (fst (contract_hasRole "0xC0" (Mock.role_id MINTER_ROLE)
                   (cli_wallet stranger)
                   (snd (contract_role "0xC0" MINTER_ROLE (cli_world stranger)))))
      with (Ok false : result bool) in Hcases.
    cbv iota in Hcases. destruct Hcases as (Ho & Hnew).
    split; [exact Ho |].
    intros v Hin. rewrite Hc in Hin. cbn [cli_calls stranger Stub.loaded app] in Hin.
    destruct (Hmint v Hin) as (roleHash & Hrole & Hhas).
    inversion Hrole; subst roleHash. vm_compute in Hhas. discriminate Hhas.
  - vm_compute. right. right. right. left. reflexivity.
Defined.

Example listAllTokens_goes_on_after_a_failure :
  let st := {| cli_world := {| Mock.nonce := 0; Mock.failing_deploys := [];
                               Mock.failing_estimates := ["0xC0"];
                               Mock.failing_transfers := [] |};
               cli_wallet := Stub.wallet; cli_tokens := Stub.tokens;
               cli_files := ∅; cli_calls := [] |} in
  fst (getTokenInfo "ALF" st) = Throw "call revert exception"
  /\ fst (listAllTokens st) = Ret tt
  /\ cli_calls (snd (listAllTokens st))
     = info_calls "0xC0" Stub.wallet ++ info_calls "0xC1" Stub.wallet.
Proof. vm_compute. auto. Qed.

(** *** Across the scripts, on the test doubles *)


Lemma verification_encodes_the_deployed_arguments_witness :
  let st' := snd (deployToken Mock.tokenA (Mock.deployer Mock.quiet_chain)) in
  exists d,
    deployments st' = [d]
    /\ In (CallDeploy (ctor_args Mock.tokenA 100000000000000000) 1851853) (calls st')
    /\ fst (encodeConstructorArgs d (Stub.verifier Mock.disk))
       = Ret "100000000000000000".
Proof.
  intros st'.
  assert (Hret : fst (deployToken Mock.tokenA (Mock.deployer Mock.quiet_chain))
                 = Ret "0xC0") by (vm_compute; reflexivity).
  pose proof (surjective_pairing
                (deployToken Mock.tokenA (Mock.deployer Mock.quiet_chain))) as Hrun.
  rewrite Hret in Hrun.
  destruct (verification_encodes_the_deployed_arguments Mock.tokenA
              (Mock.deployer Mock.quiet_chain) st' (Stub.verifier Mock.disk) "0xC0" Hrun)
    as (args & gasLimit & rest & d & Hc & _ & Hd & _ & Henc).
  exists d. split; [exact Hd |].
  split; [vm_compute; right; left; reflexivity |].
  rewrite Henc. cbn [fst].
  assert (Hargs : args = ctor_args Mock.tokenA 100000000000000000).
  { assert (Hcalls : calls st'
                     = [CallEstimateGas (ctor_args Mock.tokenA 100000000000000000);
                        CallDeploy (ctor_args Mock.tokenA 100000000000000000) 1851853;
                        CallWaitForDeployment {| contract_address := "0xC0";
                                                 deployment_hash := "0xT0" |};
                        CallWait "0xT0";
                        CallTransfer "0xC0" Mock.alice 25000000000000000;
                        CallWait "0xT1"]) by (vm_compute; reflexivity).
    rewrite Hcalls in Hc. cbn [calls Mock.deployer new_TokenDeployer app] in Hc.
    inversion Hc. reflexivity. }
  rewrite Hargs. vm_compute. reflexivity.
Defined.

(** *** The endings on the test doubles *)

Lemma failed_compilation_stops_the_run_witness :
  let st := new_TokenDeployer Mock.quiet_chain Stub.wallet ∅ in
  let run := deploy (Mock.config None) st in
  fst run = Exit 1
  /\ files (snd run) = ∅
  /\ deployments (snd run) = []
  /\ calls (snd run) = [CallGetNetwork; CallGetBalance Stub.wallet].
Proof.
  intros st run.
  destruct (failed_compilation_stops_the_run (Mock.config None) st)
    as (Ho & Hf & Hd & _).
  - vm_compute. exact I.
  - split; [exact Ho |]. split; [exact Hf |]. split; [exact Hd |].
    vm_compute. reflexivity.
Defined.

